(** * ABCNN setup: a shallow embedding of [setup.py] and [vis_utils.py]

    The Python functions that assemble the ABCNN model, index the datasets
    and build the embedding matrix are transcribed as Rocq functions.
    Python [int] is [Z], [str] is [string], an insertion-ordered [dict] is an
    association list, a raised exception is the [Raise] branch of [result].
    Classes whose source lives outside the transcribed files (the blocks, the
    convolution, the model) are records of their constructor arguments;
    which arguments their constructors refuse is a parameter. *)

From Stdlib Require Import ZArith QArith Ascii String List Lia Lqa Bool.
From stdpp Require Import base tactics option list gmap strings.
Import ListNotations.
Local Open Scope string_scope.
Local Open Scope list_scope.
Local Open Scope Z_scope.

(** ** Exceptions *)

Inductive exn : Type :=
| Exception (msg : string)
| KeyError (key : string)
| IndexError
| ValueError
| AttributeError (attr : string)
| AssertionError
| RuntimeError (msg : string).

Inductive result (A : Type) : Type :=
| Ok (a : A)
| Raise (e : exn).
Arguments Ok {A} a.
Arguments Raise {A} e.

#[global] Instance result_ret : MRet result := fun A a => Ok a.
#[global] Instance result_bind : MBind result := fun A B k r =>
  match r with
  | Ok a => k a
  | Raise e => Raise e
  end.

#[global] Instance result_fmap : FMap result := fun A B f r =>
  match r with
  | Ok a => Ok (f a)
  | Raise e => Raise e
  end.

Definition raises {A} (r : result A) : bool :=
  match r with Ok _ => false | Raise _ => true end.

(** ** Python dictionaries, in insertion order *)

Definition dict (V : Type) : Type := list (string * V).

Fixpoint dict_get {V} (d : dict V) (k : string) : option V :=
  match d with
  | [] => None
  | (k', v) :: d' => if String.eqb k k' then Some v else dict_get d' k
  end.

(** [k in d] *)
Definition dict_contains {V} (d : dict V) (k : string) : bool :=
  match dict_get d k with Some _ => true | None => false end.

(** [d[k]] *)
Definition dict_getitem {V} (d : dict V) (k : string) : result V :=
  match dict_get d k with Some v => Ok v | None => Raise (KeyError k) end.

(** [d[k] = v]: an existing key keeps its position, a new key goes last. *)
Fixpoint dict_setitem {V} (d : dict V) (k : string) (v : V) : dict V :=
  match d with
  | [] => [(k, v)]
  | (k', v') :: d' =>
      if String.eqb k k' then (k, v) :: d' else (k', v') :: dict_setitem d' k v
  end.

Definition len {A} (l : list A) : Z := Z.of_nat (length l).

Definition keys {V} (d : dict V) : list string := fst <$> d.

(** ** Configuration ([config.json]) *)

Record block_config : Type := BlockConfig {
  type : string;
  input_size : Z;
  output_size : Z;
  width : Z;
  dropout_rate : Q;
  match_score : string;
  share_weights : bool
}.

Record embeddings_config : Type := EmbeddingsConfig {
  path : string;
  format : string;
  is_binary : bool;
  size : Z
}.

Record model_config : Type := ModelConfig {
  max_length : Z;
  layers : list (list block_config);
  use_all_layer_outputs : bool
}.

Record config : Type := Config {
  cfg_data_paths : dict string;
  cfg_embeddings : embeddings_config;
  cfg_model : model_config
}.

(** ** The model's building blocks, as their constructor arguments *)

(** [Convolution(input_size, output_size, width, channels)]: the fourth
    positional argument multiplies the input depth. *)
Record Convolution : Type := mkConvolution {
  conv_input_size : Z;
  conv_output_size : Z;
  conv_width : Z;
  conv_channels : Z
}.

Record WidthAP : Type := mkWidthAP { pool_width : Z }.

Record ABCNN1Attention : Type := mkABCNN1Attention {
  attn1_input_size : Z;
  attn1_max_length : Z;
  attn1_share_weights : bool;
  attn1_match_score : string
}.

Record ABCNN2Attention : Type := mkABCNN2Attention {
  attn2_max_length : Z;
  attn2_width : Z;
  attn2_match_score : string
}.

Inductive Block : Type :=
| BCNNBlock (conv : Convolution) (pool : WidthAP) (dropout_rate : Q)
| ABCNN1Block (attn : ABCNN1Attention) (conv : Convolution) (pool : WidthAP)
              (dropout_rate : Q)
| ABCNN2Block (conv : Convolution) (attn : ABCNN2Attention) (dropout_rate : Q)
| ABCNN3Block (attn1 : ABCNN1Attention) (conv : Convolution)
              (attn2 : ABCNN2Attention) (dropout_rate : Q).

Definition block_conv (b : Block) : Convolution :=
  match b with
  | BCNNBlock conv _ _ => conv
  | ABCNN1Block _ conv _ _ => conv
  | ABCNN2Block conv _ _ => conv
  | ABCNN3Block _ conv _ _ => conv
  end.

Record CNNLayer : Type := mkCNNLayer { blocks : list Block }.

Abbreviation Embedding := (list (list Q)).

(** ** Calling the constructors

    A constructor call names the class and the arguments. The bodies of the
    constructors are outside the transcribed files: whether a call raises,
    and what, is the parameter [init]; a call that raises nothing yields the
    object with those arguments. *)
Inductive object : Type :=
| OConvolution (conv : Convolution)
| OWidthAP (pool : WidthAP)
| OABCNN1Attention (attn : ABCNN1Attention)
| OABCNN2Attention (attn : ABCNN2Attention)
| OBlock (block : Block)
| OCNNLayer (layer : CNNLayer)
| OModel (embeddings : Embedding) (layers : list CNNLayer)
         (use_all_layer_outputs : bool) (final_size : Z).

Definition constructors : Type := object -> option exn.

Definition construct {A} (init : constructors) (o : object) (x : A) : result A :=
  match init o with
  | Some e => Raise e
  | None => Ok x
  end.

Definition new {A} (init : constructors) (class : A -> object) (x : A) : result A :=
  construct init (class x) x.

(** ** [setup_block] *)

Definition unsupported_block_type : exn :=
  Exception "Unsupported type. Must be one of 'bcnn', 'abcnn1', 'abcnn2', 'abcnn3'.".

Section Construction.

Variable init : constructors.

Definition setup_block (max_length : Z) (block_config : block_config)
  : result (Block * Z) :=
  let input_size := input_size block_config in
  let output_size := output_size block_config in
  let width := width block_config in
  let dropout_rate := dropout_rate block_config in
  let match_score := match_score block_config in
  let share_weights := share_weights block_config in
  block ←
    (if String.eqb (type block_config) "bcnn" then
       conv ← new init OConvolution (mkConvolution input_size output_size width 1);
       pool ← new init OWidthAP (mkWidthAP width);
       new init OBlock (BCNNBlock conv pool dropout_rate)
     else if String.eqb (type block_config) "abcnn1" then
       attn ← new init OABCNN1Attention
                (mkABCNN1Attention input_size max_length share_weights match_score);
       conv ← new init OConvolution (mkConvolution input_size output_size width 2);
       pool ← new init OWidthAP (mkWidthAP width);
       new init OBlock (ABCNN1Block attn conv pool dropout_rate)
     else if String.eqb (type block_config) "abcnn2" then
       conv ← new init OConvolution (mkConvolution input_size output_size width 1);
       attn ← new init OABCNN2Attention (mkABCNN2Attention max_length width match_score);
       new init OBlock (ABCNN2Block conv attn dropout_rate)
     else if String.eqb (type block_config) "abcnn3" then
       attn1 ← new init OABCNN1Attention
                 (mkABCNN1Attention input_size max_length share_weights match_score);
       conv ← new init OConvolution (mkConvolution input_size output_size width 2);
       attn2 ← new init OABCNN2Attention (mkABCNN2Attention max_length width match_score);
       new init OBlock (ABCNN3Block attn1 conv attn2 dropout_rate)
     else Raise unsupported_block_type);
  Ok (block, output_size).

(** ** [setup_layer] *)

(** [sum(xs)] *)
Definition sum (xs : list Z) : Z := fold_left Z.add xs 0.

(** The loop of [setup_layer]: [blocks] and [output_sizes] grow by
    [append]. *)
Fixpoint setup_layer_loop (max_length : Z) (layer_config : list block_config)
    (blocks : list Block) (output_sizes : list Z)
  : result (list Block * list Z) :=
  match layer_config with
  | [] => Ok (blocks, output_sizes)
  | block_config :: rest =>
      '(block, output_size) ← setup_block max_length block_config;
      setup_layer_loop max_length rest (blocks ++ [block])
                       (output_sizes ++ [output_size])
  end.

Definition setup_layer (max_length : Z) (layer_config : list block_config)
  : result (CNNLayer * Z) :=
  '(blocks, output_sizes) ← setup_layer_loop max_length layer_config [] [];
  layer ← new init OCNNLayer (mkCNNLayer blocks);
  let layer_size := sum output_sizes in
  Ok (layer, layer_size).

End Construction.

(** ** Strings: [s.find(sub)], [sub in s], and [s.replace(old, new)] with an
    empty [new] *)

Fixpoint str_find (s sub : string) : Z :=
  if String.prefix sub s then 0
  else match s with
       | EmptyString => -1
       | String _ s' => let r := str_find s' sub in
                        if r =? -1 then -1 else r + 1
       end.

Definition str_contains (sub s : string) : bool := negb (str_find s sub =? -1).

(** Left-to-right removal of the non-overlapping occurrences of [old];
    [skip] counts the characters of a match still to be dropped. *)
Fixpoint str_remove_go (old : string) (skip : nat) (s : string) : string :=
  match s with
  | EmptyString => EmptyString
  | String c s' =>
      match skip with
      | S k => str_remove_go old k s'
      | O => if String.prefix old s
             then str_remove_go old (String.length old - 1) s'
             else String c (str_remove_go old 0 s')
      end
  end.

(** [s.replace(old, new)] for the empty [new]; with an empty [old] Python
    inserts [new] between the characters, which leaves [s] as it is. *)
Definition str_remove (s old : string) : string :=
  match old with
  | EmptyString => s
  | _ => str_remove_go old 0 s
  end.

(** ** Lists: [l[i]] and [l[:n]] with Python's negative indices *)

Definition list_getitem {A} (l : list A) (i : Z) : result A :=
  let j := if i <? 0 then i + len l else i in
  if (j <? 0) || (len l <=? j) then Raise IndexError
  else match l !! Z.to_nat j with
       | Some x => Ok x
       | None => Raise IndexError
       end.

Definition slice_to {A} (l : list A) (n : Z) : list A :=
  if n <? 0 then take (length l - Z.to_nat (- n)) l else take (Z.to_nat n) l.

(** ** [torch.nn] modules and [weights_init] *)

(** A parameter tensor is followed through the in-place initialisers run
    on it; its random, floating-point contents are not represented. *)
Inductive init_op : Type :=
| XavierNormal
| Constant (val : Z).

Record Tensor : Type := mkTensor {
  ndim : nat;
  inits : list init_op
}.

(** An attribute holds a tensor or Python's [None] (as [bias] does in a
    layer built with [bias=False]). *)
#[warnings="-register-all"]
Inductive module : Type :=
| Module (classname : string) (attrs : dict (option Tensor))
         (children : list module).

Definition classname_of (m : module) : string :=
  match m with Module c _ _ => c end.
Definition attrs_of (m : module) : dict (option Tensor) :=
  match m with Module _ a _ => a end.
Definition children_of (m : module) : list module :=
  match m with Module _ _ cs => cs end.

Definition getattr (m : module) (name : string) : result (option Tensor) :=
  match dict_get (attrs_of m) name with
  | Some v => Ok v
  | None => Raise (AttributeError name)
  end.

Definition setattr (m : module) (name : string) (v : option Tensor) : module :=
  match m with
  | Module c a cs => Module c (dict_setitem a name v) cs
  end.

(** [nn.init.xavier_normal_]: needs a tensor of at least two dimensions. *)
Definition xavier_normal_ (m : module) (name : string) : result module :=
  t ← getattr m name;
  match t with
  | None => Raise (AttributeError "dim")
  | Some p =>
      if (ndim p <? 2)%nat then Raise ValueError
      else Ok (setattr m name (Some (mkTensor (ndim p) (inits p ++ [XavierNormal]))))
  end.

(** [nn.init.constant_] *)
Definition constant_ (m : module) (name : string) (val : Z) : result module :=
  t ← getattr m name;
  match t with
  | None => Raise (AttributeError "fill_")
  | Some p => Ok (setattr m name (Some (mkTensor (ndim p) (inits p ++ [Constant val]))))
  end.

Definition weights_init (m : module) : result module :=
  let classname := classname_of m in
  if negb (str_find classname "Conv2d" =? -1) then
    m ← xavier_normal_ m "weight";
    constant_ m "bias" 0
  else if negb (str_find classname "Linear" =? -1) then
    m ← xavier_normal_ m "weight";
    constant_ m "bias" 0
  else if negb (str_find classname "ABCNN1Attention" =? -1) then
    m ← xavier_normal_ m "W1";
    xavier_normal_ m "W2"
  else Ok m.

(** Running a fallible function over a list, left to right. *)
Fixpoint traverse {A B} (f : A -> result B) (l : list A) : result (list B) :=
  match l with
  | [] => Ok []
  | x :: rest =>
      y ← f x;
      rest' ← traverse f rest;
      Ok (y :: rest')
  end.

(** [nn.Module.apply]: the children first, then the module itself. *)
Fixpoint apply (fn : module -> result module) (m : module) : result module :=
  match m with
  | Module c a cs =>
      cs' ← traverse (apply fn) cs;
      fn (Module c a cs')
  end.

(** ** [setup_model] *)

(** The [Model] object: the arguments it was constructed with and the
    tree of modules it registered. *)
Record Model : Type := mkModel {
  model_embeddings : Embedding;
  model_layers : list CNNLayer;
  model_use_all_layer_outputs : bool;
  final_size : Z;
  modules : module
}.

Section SetupModel.

Variable init : constructors.

(** The class [Model] is defined outside the transcribed files: the tree
    of modules a constructed model has registered is a parameter. *)
Variable Model_modules : Embedding -> list CNNLayer -> bool -> Z -> module.

Fixpoint setup_model_loop (max_length : Z) (layer_configs : list (list block_config))
    (layers : list CNNLayer) (layer_sizes : list Z)
  : result (list CNNLayer * list Z) :=
  match layer_configs with
  | [] => Ok (layers, layer_sizes)
  | layer_config :: rest =>
      '(layer, layer_size) ← setup_layer init max_length layer_config;
      setup_model_loop max_length rest (layers ++ [layer])
                       (layer_sizes ++ [layer_size])
  end.

Definition setup_model (embeddings : Embedding) (config : config)
  : result Model :=
  let embeddings_size := size (cfg_embeddings config) in
  let max_length := max_length (cfg_model config) in
  let layer_configs := layers (cfg_model config) in
  let use_all_layer_outputs := use_all_layer_outputs (cfg_model config) in
  '(layers, layer_sizes) ←
      setup_model_loop max_length layer_configs [] [embeddings_size];
  final_size ←
      (if use_all_layer_outputs then Ok (2 * sum layer_sizes)
       else (last_size ← list_getitem layer_sizes (-1); Ok (2 * last_size)));
  model ← construct init
            (OModel embeddings layers use_all_layer_outputs final_size)
            (Model_modules embeddings layers use_all_layer_outputs final_size);
  model ← apply weights_init model;
  Ok (mkModel embeddings layers use_all_layer_outputs final_size model).

End SetupModel.

(** ** [setup_word_vectors] *)

(** Pretrained vectors: [word_vectors[word]], [None] standing for the
    [KeyError] of a word without a vector. *)
Definition KeyedVectors : Type := string -> option (list Q).

(** The file system and the gensim loaders the function calls. *)
Record loaders : Type := mkLoaders {
  isfile : string -> bool;
  load_word2vec_format : string -> bool -> result KeyedVectors;
  load_fasttext_format : string -> result KeyedVectors
}.

Definition unsupported_format : exn :=
  Exception "Unsupported type. Must be one of 'word2vec' or 'fasttext'.".

Definition setup_word_vectors (env : loaders) (config : config)
  : result (option KeyedVectors) :=
  let embeddings_path := path (cfg_embeddings config) in
  let embeddings_format := format (cfg_embeddings config) in
  let is_binary := is_binary (cfg_embeddings config) in
  let word_vectors := None in
  if String.eqb embeddings_format "word2vec" then
    if isfile env embeddings_path then
      word_vectors ← load_word2vec_format env embeddings_path is_binary;
      Ok (Some word_vectors)
    else Ok word_vectors
  else if String.eqb embeddings_format "fasttext" then
    if isfile env embeddings_path then
      word_vectors ← load_fasttext_format env embeddings_path;
      Ok (Some word_vectors)
    else Ok word_vectors
  else Raise unsupported_format.

(** ** [setup_datasets] *)

(** A row of a dataset frame, its text cells already passed through
    [str]. *)
Record example : Type := mkExample {
  question1 : string;
  question2 : string;
  is_duplicate : Z
}.

Definition DataFrame : Type := list example.

Record TensorDataset : Type := mkTensorDataset {
  indexed_examples : list (list (list Z));
  labels : list Z
}.

(** What the [datasets] dict holds under a name: the frame read from disk
    or, once processed, the tensors. *)
Inductive dataset : Type :=
| Frame (rows : DataFrame)
| Tensors (tensors : TensorDataset).

(** The [datasets] dict is an object shared with the caller: it lives in a
    heap and is passed by reference. *)
Abbreviation loc := nat.
Abbreviation heap := (gmap loc (dict dataset)).

Definition deref (h : heap) (l : loc) : result (dict dataset) :=
  match h !! l with
  | Some d => Ok d
  | None => Raise (RuntimeError "dangling reference")
  end.

Definition question_cols : list (example -> string) := [question1; question2].

(** A nested list becomes a tensor only if it is rectangular and its
    entries are 64-bit signed integers. *)
Definition in_int64 (x : Z) : bool := (- 2 ^ 63 <=? x) && (x <? 2 ^ 63).

Definition same_lengths {A} (l : list (list A)) : bool :=
  match l with
  | [] => true
  | x :: xs => forallb (fun y => Nat.eqb (length y) (length x)) xs
  end.

(** [torch.LongTensor(indexed_examples)]: the entries are 0 or positions in
    [word2index]; they are below the number of keys of a dict, which is
    below 2^63, so the shape is all that can be wrong. *)
Definition LongTensor3 (l : list (list (list Z))) : result (list (list (list Z))) :=
  if same_lengths l && same_lengths (concat l) then Ok l else Raise ValueError.

(** [torch.LongTensor(labels)]: the labels are what the file holds;
    [overflow] is the exception torch raises for an integer outside the
    64-bit range. *)
Definition LongTensor1 (overflow : exn) (l : list Z) : result (list Z) :=
  if forallb in_int64 l then Ok l else Raise overflow.

(** The [TensorDataset] constructor asserts equal first dimensions. *)
Definition new_TensorDataset (examples : list (list (list Z))) (labels : list Z)
  : result TensorDataset :=
  if Nat.eqb (length examples) (length labels)
  then Ok (mkTensorDataset examples labels)
  else Raise AssertionError.

Section SetupDatasets.

(** The regular-expression cleaner, the NLTK stop-word list and the
    overflow exception of torch are taken as given. *)
Variable text_to_word_list : string -> list string.
Variable stopwords_english : list string.
Variable overflow : exn.

Definition remove_stop_words (words : list string) : list string :=
  let stops := stopwords_english in
  filter (fun w => w ∉ stops) words.

(** Body of [for word in words]. *)
Definition index_word (word2index : dict Z) (word : string)
  : result (dict Z * Z) :=
  let word2index :=
    if negb (dict_contains word2index word)
    then dict_setitem word2index word (len word2index)
    else word2index in
  index ← dict_getitem word2index word;
  Ok (word2index, index).

Fixpoint index_words (word2index : dict Z) (words : list string)
    (indexes : list Z) : result (dict Z * list Z) :=
  match words with
  | [] => Ok (word2index, indexes)
  | word :: rest =>
      '(word2index, index) ← index_word word2index word;
      index_words word2index rest (indexes ++ [index])
  end.

(** Body of [for column in question_cols], for the text of one cell. *)
Definition index_question (max_length : Z) (word2index : dict Z)
    (question : string) : result (dict Z * (list Z * list string)) :=
  let words := text_to_word_list question in
  let words := remove_stop_words words in
  '(word2index, indexes) ← index_words word2index words [];
  let length := if len indexes <? max_length then len indexes else max_length in
  let indexes := slice_to indexes length in
  let words := slice_to words length in
  let '(indexes, words) :=
    if length <? max_length then
      let num_padding := max_length - length in
      (indexes ++ replicate (Z.to_nat num_padding) 0,
       words ++ replicate (Z.to_nat num_padding) "<PAD>")
    else (indexes, words) in
  Ok (word2index, (indexes, words)).

Fixpoint index_columns (max_length : Z) (columns : list (example -> string))
    (example : example) (word2index : dict Z)
    (index_map : list (list Z)) (parsed_text : list (list string))
  : result (dict Z * (list (list Z) * list (list string))) :=
  match columns with
  | [] => Ok (word2index, (index_map, parsed_text))
  | column :: rest =>
      let question := column example in
      '(word2index, (indexes, words)) ← index_question max_length word2index question;
      index_columns max_length rest example word2index
                    (index_map ++ [indexes]) (parsed_text ++ [words])
  end.

(** The loop over [dataset.iterrows()]. *)
Fixpoint index_rows (max_length : Z) (rows : list example) (word2index : dict Z)
    (labels : list Z) (indexed_examples : list (list (list Z)))
    (parsed_texts : list (list (list string)))
  : result (dict Z * (list Z * list (list (list Z)) * list (list (list string)))) :=
  match rows with
  | [] => Ok (word2index, (labels, indexed_examples, parsed_texts))
  | example :: rest =>
      '(word2index, (index_map, parsed_text)) ←
          index_columns max_length question_cols example word2index [] [];
      index_rows max_length rest word2index
                 (labels ++ [is_duplicate example])
                 (indexed_examples ++ [index_map])
                 (parsed_texts ++ [parsed_text])
  end.

(** The loop over [datasets.items()]. The body only overwrites the value
    of the key being visited, so the items seen are those the dict had
    when the loop started. *)
Fixpoint setup_datasets_loop (datasets : loc) (max_length : Z)
    (items : dict dataset) (texts : dict (list (list (list string))))
    (word2index : dict Z) (h : heap)
  : result ((loc * dict (list (list (list string))) * dict Z) * heap) :=
  match items with
  | [] => Ok ((datasets, texts, word2index), h)
  | (name, dataset) :: rest =>
      rows ← match dataset with
             | Frame rows => Ok rows
             | Tensors _ => Raise (AttributeError "iterrows")
             end;
      '(word2index, (labels, indexed_examples, parsed_texts)) ←
          index_rows max_length rows word2index [] [] [];
      labels ← LongTensor1 overflow labels;
      indexed_examples ← LongTensor3 indexed_examples;
      dataset ← new_TensorDataset indexed_examples labels;
      d ← deref h datasets;
      let h := <[datasets := dict_setitem d name (Tensors dataset)]> h in
      let texts := dict_setitem texts name parsed_texts in
      setup_datasets_loop datasets max_length rest texts word2index h
  end.

Definition setup_datasets (datasets : loc) (embeddings_size max_length : Z)
    (h : heap)
  : result ((loc * dict (list (list (list string))) * dict Z) * heap) :=
  let texts := [] in
  let word2index := [("<PAD>", 0)] in
  items ← deref h datasets;
  setup_datasets_loop datasets max_length items texts word2index h.

(** *** What the loops establish *)

(** The words of a cell after cleaning and stop-word removal. *)
Definition tokens (question : string) : list string :=
  remove_stop_words (text_to_word_list question).

(** [idxs] are the indices of [words] under [word2index]. *)
Definition encodes (word2index : dict Z) (words : list string) (idxs : list Z) : Prop :=
  Forall2 (fun w i => dict_get word2index w = Some i) words idxs.

(** The truncation and padding steps of [index_question], on their own. *)
Definition truncate_pad {A} (max_length : Z) (pad : A) (l : list A) : list A :=
  let length := if len l <? max_length then len l else max_length in
  let l := slice_to l length in
  if length <? max_length
  then l ++ replicate (Z.to_nat (max_length - length)) pad
  else l.

Definition sentence_ok (max_length : Z) (word2index : dict Z)
    (question : string) (s : list Z) : Prop :=
  exists idxs, encodes word2index (tokens question) idxs /\
               s = truncate_pad max_length 0 idxs.

Definition example_ok (max_length : Z) (word2index : dict Z)
    (e : example) (index_map : list (list Z)) : Prop :=
  Forall2 (fun column s => sentence_ok max_length word2index (column e) s)
          question_cols index_map.

(** An entry of the dict before and after its dataset was processed. *)
Definition dataset_ok (max_length : Z) (word2index : dict Z)
    (before after : string * dataset) : Prop :=
  fst after = fst before /\
  exists rows examples,
    snd before = Frame rows /\
    snd after = Tensors (mkTensorDataset examples (is_duplicate <$> rows)) /\
    Forall2 (example_ok max_length word2index) rows examples.

End SetupDatasets.

(** The invariant of [word2index]: the padding word comes first with index
    0, the indices count up in insertion order, no word occurs twice. *)
Definition vocab_ok (word2index : dict Z) : Prop :=
  (exists rest, word2index = ("<PAD>", 0) :: rest) /\
  snd <$> word2index = Z.of_nat <$> seq 0 (length word2index) /\
  NoDup (keys word2index).

Definition is_frame (d : dataset) : bool :=
  match d with Frame _ => true | Tensors _ => false end.

(** ** [setup_embedding_matrix] *)

(** [word_vectors[word]] *)
Definition word_vectors_getitem (word_vectors : KeyedVectors) (word : string)
  : result (list Q) :=
  match word_vectors word with
  | Some v => Ok v
  | None => Raise (KeyError word)
  end.

(** NumPy broadcasting of a one-dimensional value into a row of [n]
    entries. *)
Definition broadcast (n : nat) (v : list Q) : result (list Q) :=
  if Nat.eqb (length v) n then Ok v
  else match v with
       | [x] => Ok (replicate n x)
       | _ => Raise ValueError
       end.

(** [embeddings[index] = v] on a two-dimensional array with [cols]
    columns. *)
Definition ndarray_setitem (cols : nat) (embeddings : Embedding) (index : Z)
    (v : list Q) : result Embedding :=
  let j := if index <? 0 then index + len embeddings else index in
  if (j <? 0) || (len embeddings <=? j) then Raise IndexError
  else (row ← broadcast cols v; Ok (<[Z.to_nat j := row]> embeddings)).

Section SetupEmbeddingMatrix.

(** [np.random.uniform(low, high, (rows, cols))] *)
Variable uniform : Q -> Q -> nat -> nat -> Embedding.

(** The [try ... except (RuntimeError, KeyError): pass] of the loop. *)
Definition try_copy (cols : nat) (word_vectors : KeyedVectors)
    (embeddings : Embedding) (word : string) (index : Z) : result Embedding :=
  match (v ← word_vectors_getitem word_vectors word;
         ndarray_setitem cols embeddings index v) with
  | Ok embeddings' => Ok embeddings'
  | Raise (RuntimeError _) => Ok embeddings
  | Raise (KeyError _) => Ok embeddings
  | Raise e => Raise e
  end.

Fixpoint embedding_loop (cols : nat) (word_vectors : KeyedVectors)
    (items : dict Z) (embeddings : Embedding) : result Embedding :=
  match items with
  | [] => Ok embeddings
  | (word, index) :: rest =>
      embeddings ← try_copy cols word_vectors embeddings word index;
      embedding_loop cols word_vectors rest embeddings
  end.

Definition setup_embedding_matrix (word_vectors : option KeyedVectors)
    (word2index : dict Z) (embeddings_size : Z) : result Embedding :=
  if embeddings_size <? 0 then Raise ValueError
  else
    let cols := Z.to_nat embeddings_size in
    let embeddings := uniform (-1 # 100) (1 # 100) (length word2index + 1) cols in
    embeddings ← ndarray_setitem cols embeddings 0 [0%Q];
    match word_vectors with
    | Some word_vectors => embedding_loop cols word_vectors word2index embeddings
    | None => Ok embeddings
    end.

End SetupEmbeddingMatrix.

(** ** [make_block] ([vis_utils.py]) *)

(** A saved tensor: its shape and its entries. *)
Record weights : Type := mkWeights {
  shape : list nat;
  entries : list Q
}.

Definition state_dict_error : exn := RuntimeError "Error(s) in loading state_dict".

(** The parameter [kv] of the module is given a tensor of another shape. *)
Definition size_mismatch (given : dict weights) (kv : string * weights) : bool :=
  match dict_get given (fst kv) with
  | Some w => negb (bool_decide (shape w = shape (snd kv)))
  | None => false
  end.

(** [load_state_dict] with its default [strict=True]: the keys given must
    be exactly the module's own, and each tensor given must have the shape
    of the parameter it is copied into. *)
Definition load_state_dict (own given : dict weights) : result (dict weights) :=
  let missing := filter (fun k => dict_contains given k = false) (keys own) in
  let unexpected := filter (fun k => dict_contains own k = false) (keys given) in
  let mismatched := filter (fun kv => size_mismatch given kv = true) own in
  match missing, unexpected, mismatched with
  | [], [], [] =>
      Ok ((fun kv => (fst kv, default (snd kv) (dict_get given (fst kv)))) <$> own)
  | _, _, _ => Raise state_dict_error
  end.

Fixpoint make_block_loop (block_prefix : string) (items : dict weights)
    (block_dict : dict weights) : dict weights :=
  match items with
  | [] => block_dict
  | (name, weights) :: rest =>
      let block_dict :=
        if str_contains block_prefix name then
          let block_name := str_remove name block_prefix in
          if dict_contains block_dict block_name
          then dict_setitem block_dict name weights
          else block_dict
        else block_dict in
      make_block_loop block_prefix rest block_dict
  end.

Section MakeBlock.

Variable init : constructors.

(** The parameters of a freshly constructed block, by name; the block
    classes are defined outside the transcribed files. *)
Variable state_dict : Block -> dict weights.

(** The block is returned with the parameter values it holds after
    [load_state_dict]. *)
Definition make_block (model_dict : dict weights) (block_prefix : string)
    (max_length : Z) (block_config : block_config)
  : result ((Block * dict weights) * Z) :=
  '(block, output_size) ← setup_block init max_length block_config;
  let block_dict := state_dict block in
  let block_dict := make_block_loop block_prefix model_dict block_dict in
  loaded ← load_state_dict (state_dict block) block_dict;
  Ok ((block, loaded), output_size).

End MakeBlock.

(** * Specification vocabulary and sample inputs *)

Definition block_types : list string := ["bcnn"; "abcnn1"; "abcnn2"; "abcnn3"].
Definition embedding_formats : list string := ["word2vec"; "fasttext"].

(** The objects a block is made of, in the order they are constructed: its
    arguments from left to right, then the block. *)
Definition parts (b : Block) : list object :=
  match b with
  | BCNNBlock conv pool _ => [OConvolution conv; OWidthAP pool; OBlock b]
  | ABCNN1Block attn conv pool _ =>
      [OABCNN1Attention attn; OConvolution conv; OWidthAP pool; OBlock b]
  | ABCNN2Block conv attn _ =>
      [OConvolution conv; OABCNN2Attention attn; OBlock b]
  | ABCNN3Block attn1 conv attn2 _ =>
      [OABCNN1Attention attn1; OConvolution conv; OABCNN2Attention attn2; OBlock b]
  end.

(** The exception of the first of [objects] that its constructor refuses. *)
Fixpoint refusal (init : constructors) (objects : list object) : option exn :=
  match objects with
  | [] => None
  | o :: rest =>
      match init o with
      | Some e => Some e
      | None => refusal init rest
      end
  end.

(** Constructing [objects] in order and then returning [x]. *)
Definition outcome {A} (init : constructors) (objects : list object) (x : A)
  : result A :=
  match refusal init objects with
  | Some e => Raise e
  | None => Ok x
  end.

(** Constructors that raise nothing and, for examples, constructors that
    check the match score of an attention and the dropout rate of a
    block. *)
Definition accept_all : constructors := fun _ => None.

Definition block_dropout (b : Block) : Q :=
  match b with
  | BCNNBlock _ _ p | ABCNN1Block _ _ _ p | ABCNN2Block _ _ p | ABCNN3Block _ _ _ p => p
  end.

Definition score_supported (match_score : string) : bool :=
  String.eqb match_score "cosine" || String.eqb match_score "euclidean".

Definition checking : constructors := fun o =>
  match o with
  | OABCNN1Attention attn =>
      if score_supported (attn1_match_score attn) then None
      else Some (Exception "Unsupported match score.")
  | OABCNN2Attention attn =>
      if score_supported (attn2_match_score attn) then None
      else Some (Exception "Unsupported match score.")
  | OBlock b =>
      if Qle_bool 0 (block_dropout b) && Qle_bool (block_dropout b) 1 then None
      else Some ValueError
  | _ => None
  end.

(** The configuration type a block class belongs to. *)
Definition block_type (b : Block) : string :=
  match b with
  | BCNNBlock _ _ _ => "bcnn"
  | ABCNN1Block _ _ _ _ => "abcnn1"
  | ABCNN2Block _ _ _ => "abcnn2"
  | ABCNN3Block _ _ _ _ => "abcnn3"
  end.

(** The block runs ABCNN1 attention on the input of its convolution. *)
Definition attention_before_conv (b : Block) : bool :=
  match b with
  | ABCNN1Block _ _ _ _ | ABCNN3Block _ _ _ _ => true
  | BCNNBlock _ _ _ | ABCNN2Block _ _ _ => false
  end.

Definition abcnn3_config : block_config :=
  BlockConfig "abcnn3" 300 50 3 (1 # 2) "cosine" true.

Definition abcnn1_config : block_config :=
  BlockConfig "abcnn1" 300 50 3 (1 # 2) "euclidean" false.

Definition abcnn2_config : block_config :=
  BlockConfig "abcnn2" 300 50 4 (1 # 2) "cosine" true.

(** A supported type with a match score no attention knows. *)
Definition bad_score_config : block_config :=
  BlockConfig "abcnn2" 300 50 4 (1 # 2) "no such score" true.

(** With no file at the configured path nothing is loaded and nothing is
    raised. *)
Definition no_files : loaders :=
  mkLoaders (fun _ => false)
            (fun _ _ => Raise (RuntimeError "no such file"))
            (fun _ => Raise (RuntimeError "no such file")).

(** The pooled size of a layer: the sum of its blocks' [output_size]. *)
Definition pooled_size (layer_config : list block_config) : Z :=
  sum (output_size <$> layer_config).

(** A model tree with just the classification head, and a one-layer
    configuration that concatenates all layer outputs. *)
Definition linear_module : module :=
  Module "Linear" [("weight", Some (mkTensor 2 [])); ("bias", Some (mkTensor 1 []))] [].

Definition head_only (_ : Embedding) (_ : list CNNLayer) (_ : bool) (_ : Z) : module :=
  Module "Model" [] [linear_module].

Definition bcnn_config : block_config :=
  BlockConfig "bcnn" 300 50 3 (1 # 2) "cosine" true.

Definition all_outputs_config : config :=
  Config [] (EmbeddingsConfig "vectors.bin" "word2vec" true 300)
         (ModelConfig 40 [[bcnn_config]] true).

(** What NumPy documents of [np.random.uniform]: the requested shape, and
    entries in the half-open interval from [low] to [high]. *)
Definition draws_shape (uniform : Q -> Q -> nat -> nat -> Embedding) : Prop :=
  forall low high r c,
    length (uniform low high r c) = r /\
    Forall (fun row => length row = c) (uniform low high r c).

Definition draws_in_range (uniform : Q -> Q -> nat -> nat -> Embedding) : Prop :=
  forall low high r c,
    (low < high)%Q ->
    Forall (Forall (fun x => (low <= x /\ x < high)%Q)) (uniform low high r c).

Definition small (x : Q) : Prop := (-1 # 100 <= x /\ x < 1 # 100)%Q.

(** The matrix before any pretrained vector is copied: the draw with its
    row 0 zeroed. *)
Definition initial_matrix (uniform : Q -> Q -> nat -> nat -> Embedding)
    (word2index : dict Z) (embeddings_size : Z) : Embedding :=
  <[0%nat := replicate (Z.to_nat embeddings_size) 0%Q]>
    (uniform (-1 # 100) (1 # 100) (length word2index + 1)%nat
             (Z.to_nat embeddings_size)).

(** A draw that is constant, three quarters of the way from [low] to
    [high], for examples. *)
Definition constant_draw (low high : Q) (r c : nat) : Embedding :=
  replicate r (replicate c (Qred ((low + 3 * high) * (1 # 4)))).

(** A store with one vector. *)
Definition single_vector (word : string) (v : list Q) : KeyedVectors :=
  fun w => if String.eqb w word then Some v else None.

(** A cleaner that only splits at spaces, and a small stop-word list, for
    examples. *)
Fixpoint split_spaces_go (current : string) (s : string) : list string :=
  match s with
  | EmptyString =>
      match current with EmptyString => [] | _ => [current] end
  | String c s' =>
      if Ascii.eqb c " "%char then
        match current with
        | EmptyString => split_spaces_go EmptyString s'
        | _ => current :: split_spaces_go EmptyString s'
        end
      else split_spaces_go (current ++ String c EmptyString)%string s'
  end.

Definition split_spaces (s : string) : list string := split_spaces_go EmptyString s.

Definition sample_stops : list string := ["do"; "how"; "why"].

Definition sample_frames : dict dataset :=
  [("train", Frame [mkExample "how do magnets work" "why do magnets attract iron" 0;
                    mkExample "magnets" "iron magnets attract iron filings easily" 1]);
   ("test", Frame [mkExample "iron work" "work" 1])].

Definition sample_heap : heap := {[ 1%nat := sample_frames ]}.

Definition sample_word2index : dict Z :=
  [("<PAD>", 0); ("magnets", 1); ("work", 2); ("attract", 3); ("iron", 4);
   ("filings", 5); ("easily", 6)].

Definition sample_tensors : dict dataset :=
  [("train", Tensors (mkTensorDataset
      [[[1; 2; 0; 0]; [1; 3; 4; 0]]; [[1; 0; 0; 0]; [4; 1; 3; 4]]] [0; 1]));
   ("test", Tensors (mkTensorDataset [[[4; 2; 0; 0]; [2; 0; 0; 0]]] [1]))].

(** The pretrained vector of a word, if the store is there and has one. *)
Definition pretrained (word_vectors : option KeyedVectors) (word : string)
  : option (list Q) :=
  match word_vectors with
  | Some store => store word
  | None => None
  end.

Definition sample_embeddings : Embedding :=
  Eval vm_compute in
    match setup_embedding_matrix constant_draw
            (Some (single_vector "iron" [1%Q; 2%Q])) sample_word2index 2 with
    | Ok E => E
    | Raise _ => []
    end.

(** *** Vocabulary for [weights_init] *)

(** The module reached by following child positions from the root. *)
Fixpoint submodule (m : module) (path : list nat) : option module :=
  match path with
  | [] => Some m
  | i :: rest =>
      match children_of m !! i with
      | Some child => submodule child rest
      | None => None
      end
  end.

Definition is_conv_or_linear (classname : string) : bool :=
  str_contains "Conv2d" classname || str_contains "Linear" classname.

Definition is_attention1 (classname : string) : bool :=
  negb (is_conv_or_linear classname) && str_contains "ABCNN1Attention" classname.

(** The attribute [name] holds a tensor of at least [min_ndim] dimensions. *)
Definition has_tensor (attrs : dict (option Tensor)) (name : string)
    (min_ndim : nat) : bool :=
  match dict_get attrs name with
  | Some (Some t) => (min_ndim <=? ndim t)%nat
  | _ => false
  end.

(** One more initialiser recorded on the tensor under [name]. *)
Definition record_init (attrs : dict (option Tensor)) (name : string)
    (op : init_op) : dict (option Tensor) :=
  match dict_get attrs name with
  | Some (Some t) => dict_setitem attrs name (Some (mkTensor (ndim t) (inits t ++ [op])))
  | _ => attrs
  end.

(** The attributes of a module of class [classname] after one
    initialisation as the specification describes it. *)
Definition init_attrs (classname : string) (attrs : dict (option Tensor))
  : dict (option Tensor) :=
  if is_conv_or_linear classname then
    record_init (record_init attrs "weight" XavierNormal) "bias" (Constant 0)
  else if is_attention1 classname then
    record_init (record_init attrs "W1" XavierNormal) "W2" XavierNormal
  else attrs.

(** The module has the tensors its initialisation touches. *)
Definition node_ready (classname : string) (attrs : dict (option Tensor)) : bool :=
  if is_conv_or_linear classname then
    has_tensor attrs "weight" 2 && has_tensor attrs "bias" 0
  else if is_attention1 classname then
    has_tensor attrs "W1" 2 && has_tensor attrs "W2" 2
  else true.

Fixpoint all_ready (m : module) : bool :=
  match m with
  | Module c a cs => node_ready c a && forallb all_ready cs
  end.

Fixpoint module_map (f : string -> dict (option Tensor) -> dict (option Tensor))
    (m : module) : module :=
  match m with
  | Module c a cs => Module c (f c a) (List.map (module_map f) cs)
  end.

(** A model tree with an attention module, a convolution and the head. *)
Definition sample_tree : module :=
  Module "Model" []
    [Module "CNNLayer" []
       [Module "ABCNN1Block" [("dropout", None)]
          [Module "ABCNN1Attention"
             [("W1", Some (mkTensor 2 [])); ("W2", Some (mkTensor 2 []))] [];
           Module "Conv2d"
             [("weight", Some (mkTensor 4 [])); ("bias", Some (mkTensor 1 []))] []]];
     linear_module].

Definition sample_modules (_ : Embedding) (_ : list CNNLayer) (_ : bool) (_ : Z)
  : module := sample_tree.

(** A saved model and the parameters of a fresh block, for examples. *)
Definition sample_model_dict : dict weights :=
  [("layers.0.blocks.0.conv.weight", mkWeights [2%nat] [1%Q; 2%Q]);
   ("layers.0.blocks.0.conv.bias", mkWeights [1%nat] [3%Q]);
   ("fc.weight", mkWeights [1%nat] [4%Q])].

Definition sample_state_dict (_ : Block) : dict weights :=
  [("conv.weight", mkWeights [2%nat] [0%Q; 0%Q]);
   ("conv.bias", mkWeights [1%nat] [0%Q])].

(** Configurations with an unsupported block type and an unsupported
    embeddings format. *)
Definition uppercase_config : block_config :=
  BlockConfig "BCNN" 300 50 3 (1 # 2) "cosine" true.


(** * Further vocabulary *)

Definition supported (bc : block_config) : Prop := type bc ∈ block_types.

(** The word stored at a position of [word2index] (the [index2word] of the
    docstring of [setup_datasets]). *)
Definition index2word (word2index : dict Z) (i : Z) : option string :=
  if i <? 0 then None else fst <$> word2index !! Z.to_nat i.

Definition one_row_heap : heap :=
  {[ 1%nat := [("pairs", Frame [mkExample "magnets work" "iron attract" 1])] ]}.

(** A saved model whose names are the block's own, and one entry the block
    does not have. *)
Definition plain_model_dict : dict weights :=
  [("conv.weight", mkWeights [2%nat] [1%Q; 2%Q]); ("fc.weight", mkWeights [1%nat] [4%Q])].

(** The same with the convolution weight saved in another shape. *)
Definition reshaped_model_dict : dict weights :=
  [("conv.weight", mkWeights [3%nat] [1%Q; 2%Q; 3%Q]); ("fc.weight", mkWeights [1%nat] [4%Q])].

(** The blocks of two sample configurations, built for sequences of
    length 40. *)
Definition bcnn_block : Block :=
  BCNNBlock (mkConvolution 300 50 3 1) (mkWidthAP 3) (1 # 2).

Definition abcnn3_block : Block :=
  ABCNN3Block (mkABCNN1Attention 300 40 true "cosine") (mkConvolution 300 50 3 2)
              (mkABCNN2Attention 40 3 "cosine") (1 # 2).

(** The labels of all frames fit a [LongTensor]. *)
Definition labels_fit (d : dict dataset) : Prop :=
  Forall (fun x => match snd x with
                   | Frame rows => Forall (fun e => in_int64 (is_duplicate e) = true) rows
                   | Tensors _ => True
                   end) d.

(** The size of the classification head that [setup_model] computes. *)
Definition head_size (config : config) : Z :=
  let sizes := pooled_size <$> layers (cfg_model config) in
  if use_all_layer_outputs (cfg_model config)
  then 2 * (size (cfg_embeddings config) + sum sizes)
  else 2 * default (size (cfg_embeddings config)) (last sizes).

(** A model tree whose convolution was built without a bias. *)
Definition bias_free_tree : module :=
  Module "Model" []
    [Module "Conv2d" [("weight", Some (mkTensor 4 [])); ("bias", None)] [];
     linear_module].

Definition bias_free_modules (_ : Embedding) (_ : list CNNLayer) (_ : bool) (_ : Z)
  : module := bias_free_tree.

(** The words kept for one row: per question, its tokens cut or padded with
    the padding word like the indices. *)
Definition parsed_row (text_to_word_list : string -> list string)
    (stopwords_english : list string) (max_length : Z) (e : example)
  : list (list string) :=
  (fun column =>
     truncate_pad max_length "<PAD>"
                  (tokens text_to_word_list stopwords_english (column e)))
    <$> question_cols.

Definition parsed_texts (text_to_word_list : string -> list string)
    (stopwords_english : list string) (max_length : Z) (rows : list example)
  : list (list (list string)) :=
  parsed_row text_to_word_list stopwords_english max_length <$> rows.

(** The words of [ws] not in [seen], each once, in order of first
    occurrence. *)
Fixpoint new_words (seen : list string) (ws : list string) : list string :=
  match ws with
  | [] => []
  | w :: rest =>
      if bool_decide (w ∈ seen) then new_words seen rest
      else w :: new_words (seen ++ [w]) rest
  end.

(** All tokens of a dict of frames, in the order the loops visit them:
    dataset by dataset, row by row, question1 before question2. *)
Definition row_tokens (text_to_word_list : string -> list string)
    (stopwords_english : list string) (e : example) : list string :=
  concat ((fun column => tokens text_to_word_list stopwords_english (column e))
            <$> question_cols).

Definition frame_tokens (text_to_word_list : string -> list string)
    (stopwords_english : list string) (rows : list example) : list string :=
  concat (row_tokens text_to_word_list stopwords_english <$> rows).

Definition all_tokens (text_to_word_list : string -> list string)
    (stopwords_english : list string) (d : dict dataset) : list string :=
  concat ((fun x => match snd x with
                    | Frame rows => frame_tokens text_to_word_list stopwords_english rows
                    | Tensors _ => []
                    end) <$> d).

(** [d'] extends [d] by the new words of [ws]. *)
Definition grows_by (d d' : dict Z) (ws : list string) : Prop :=
  keys d' = keys d ++ new_words (keys d) ws.

(** ** [text_to_word_list]

    Characters are code points below 256. *)

Definition code (c : ascii) : nat := nat_of_ascii c.

Definition in_range (lo hi : nat) (c : ascii) : bool :=
  (lo <=? code c)%nat && (code c <=? hi)%nat.

(** [str.lower] on code points below 256: A-Z and the accented capitals. *)
Definition lower_char (c : ascii) : ascii :=
  if in_range 65 90 c || in_range 192 214 c || in_range 216 222 c
  then ascii_of_nat (code c + 32)
  else c.

Fixpoint str_lower (s : string) : string :=
  match s with
  | EmptyString => EmptyString
  | String c s' => String (lower_char c) (str_lower s')
  end.

(** Whitespace, for [str.split] and the pattern [\s]. *)
Definition is_space (c : ascii) : bool :=
  in_range 9 13 c || in_range 28 32 c || (code c =? 133)%nat || (code c =? 160)%nat.

Definition is_digit (c : ascii) : bool := in_range 48 57 c.

(** The characters the class [A-Za-z0-9^,!.\/'+-=] lists; [+-=] is the
    range from the plus sign to the equals sign. *)
Definition in_class (c : ascii) : bool :=
  in_range 65 90 c || in_range 97 122 c || in_range 48 57 c
  || (code c =? 94)%nat || (code c =? 44)%nat || (code c =? 33)%nat
  || (code c =? 46)%nat || (code c =? 47)%nat || (code c =? 39)%nat
  || in_range 43 61 c.

(** [re.sub] of the negated class by a space. *)
Fixpoint sub_not_in_class (s : string) : string :=
  match s with
  | EmptyString => EmptyString
  | String c s' =>
      String (if in_class c then c else " "%char) (sub_not_in_class s')
  end.

(** [re.sub] of a pattern without special characters, which is
    [str.replace]: the occurrences are found left to right and do not
    overlap; [skip] counts the characters of a match still to be dropped. *)
Fixpoint str_replace_go (old new : string) (skip : nat) (s : string) : string :=
  match s with
  | EmptyString => EmptyString
  | String c s' =>
      match skip with
      | S k => str_replace_go old new k s'
      | O => if String.prefix old s
             then (new ++ str_replace_go old new (String.length old - 1) s')%string
             else String c (str_replace_go old new 0 s')
      end
  end.

(** With an empty pattern the replacement goes before every character and
    at the end. *)
Fixpoint str_intersperse (new : string) (s : string) : string :=
  match s with
  | EmptyString => new
  | String c s' => (new ++ String c (str_intersperse new s'))%string
  end.

Definition re_sub (pattern repl : string) (s : string) : string :=
  match pattern with
  | EmptyString => str_intersperse repl s
  | _ => str_replace_go pattern repl 0 s
  end.

(** [re.sub] of a run of digits followed by k: the digits stay and the k
    becomes 000. A match needs a digit just before the k, in the text not
    yet consumed by an earlier match. *)
Fixpoint sub_digits_k (after_digit : bool) (s : string) : string :=
  match s with
  | EmptyString => EmptyString
  | String c s' =>
      if after_digit && Ascii.eqb c "k"%char
      then ("000" ++ sub_digits_k false s')%string
      else String c (sub_digits_k (is_digit c) s')
  end.

(** [re.sub] of two or more whitespace characters by one space; [in_run]
    says that the run being read has been replaced already. *)
Fixpoint sub_spaces (in_run : bool) (s : string) : string :=
  match s with
  | EmptyString => EmptyString
  | String c s' =>
      if is_space c then
        if in_run then sub_spaces true s'
        else match s' with
             | String c' _ =>
                 if is_space c' then String " "%char (sub_spaces true s')
                 else String c (sub_spaces false s')
             | EmptyString => String c EmptyString
             end
      else String c (sub_spaces false s')
  end.

(** [str.split()]: the maximal runs of characters that are not
    whitespace. *)
Fixpoint str_split_go (current : string) (s : string) : list string :=
  match s with
  | EmptyString =>
      match current with EmptyString => [] | _ => [current] end
  | String c s' =>
      if is_space c then
        match current with
        | EmptyString => str_split_go EmptyString s'
        | _ => current :: str_split_go EmptyString s'
        end
      else str_split_go (current ++ String c EmptyString)%string s'
  end.

Definition str_split (s : string) : list string := str_split_go EmptyString s.

Definition text_to_word_list (text : string) : list string :=
  let text := str_lower text in
  let text := sub_not_in_class text in
  let text := re_sub "what's" "what is " text in
  let text := re_sub "'s" " " text in
  let text := re_sub "'ve" " have " text in
  let text := re_sub "can't" "cannot " text in
  let text := re_sub "n't" " not " text in
  let text := re_sub "i'm" "i am " text in
  let text := re_sub "'re" " are " text in
  let text := re_sub "'d" " would " text in
  let text := re_sub "'ll" " will " text in
  let text := re_sub "," " " text in
  let text := re_sub "." " " text in
  let text := re_sub "!" " ! " text in
  let text := re_sub "/" " " text in
  let text := re_sub "^" " ^ " text in
  let text := re_sub "+" " + " text in
  let text := re_sub "-" " - " text in
  let text := re_sub "=" " = " text in
  let text := re_sub "'" " " text in
  let text := sub_digits_k false text in
  let text := re_sub ":" " : " text in
  let text := re_sub " e g " " eg " text in
  let text := re_sub " b g " " bg " text in
  let text := re_sub " u s " " american " text in
  let text := re_sub (String "000"%char "s") "0" text in
  let text := re_sub " 9 11 " "911" text in
  let text := re_sub "e - mail" "email" text in
  let text := re_sub "j k" "jk" text in
  let text := sub_spaces false text in
  str_split text.

(** The characters a word can be made of: lower-case letters, digits, and
    the signs ! ^ + - = : ; and the less-than sign. *)
Definition word_char (c : ascii) : bool :=
  in_range 97 122 c || in_range 48 57 c
  || (code c =? 33)%nat || (code c =? 94)%nat || (code c =? 43)%nat
  || (code c =? 45)%nat || in_range 58 61 c.

Fixpoint Str_all (P : ascii -> Prop) (s : string) : Prop :=
  match s with
  | EmptyString => True
  | String c s' => P c /\ Str_all P s'
  end.

(** A word character or a space, or one of the characters [ex] still to be
    replaced. *)
Definition clean_char (ex : list ascii) (c : ascii) : Prop :=
  word_char c = true \/ c = " "%char \/ c ∈ ex.

Definition clean_charb (ex : list ascii) (c : ascii) : bool :=
  word_char c || Ascii.eqb c " "%char || existsb (Ascii.eqb c) ex.

(** ** [setup] *)

Section Setup.

(** [pd.read_csv], the NLTK stop words, the overflow exception of torch,
    the loaders, the random draw, the constructors and the model class are
    taken as given. *)
Variable read_csv : string -> result DataFrame.
Variable stopwords_english : list string.
Variable overflow : exn.
Variable env : loaders.
Variable uniform : Q -> Q -> nat -> nat -> Embedding.
Variable init : constructors.
Variable Model_modules : Embedding -> list CNNLayer -> bool -> Z -> module.

(** The dict comprehension over [data_paths.items()]. *)
Fixpoint read_frames (items : dict string) (datasets : dict dataset)
  : result (dict dataset) :=
  match items with
  | [] => Ok datasets
  | (name, data_path) :: rest =>
      frame ← read_csv data_path;
      read_frames rest (dict_setitem datasets name (Frame frame))
  end.

(** The new dict is allocated at a location the heap does not use. *)
Definition setup (config : config) (h : heap) : result ((loc * Model) * heap) :=
  let data_paths := cfg_data_paths config in
  let embeddings_size := size (cfg_embeddings config) in
  let max_length := max_length (cfg_model config) in
  frames ← read_frames data_paths [];
  let datasets := fresh (dom h) in
  let h := <[datasets := frames]> h in
  '((datasets, texts, word2index), h) ←
      setup_datasets text_to_word_list stopwords_english overflow
                     datasets embeddings_size max_length h;
  word_vectors ← setup_word_vectors env config;
  embeddings ← setup_embedding_matrix uniform word_vectors word2index embeddings_size;
  model ← setup_model init Model_modules embeddings config;
  Ok ((datasets, model), h).

End Setup.

(** What torch raises for an integer outside the 64-bit range, for
    examples. *)
Definition sample_overflow : exn := RuntimeError "Overflow when unpacking long".

(** A frame with a label that does not fit. *)
Definition big_label_heap : heap :=
  {[ 1%nat := [("pairs", Frame [mkExample "magnets work" "iron attract" (2 ^ 63)])] ]}.

Definition sample_csv (data_path : string) : result DataFrame :=
  if String.eqb data_path "train.csv"
  then Ok [mkExample "how do magnets work" "why do magnets attract iron" 0]
  else if String.eqb data_path "test.csv"
  then Ok [mkExample "iron work" "work" 1]
  else Raise (Exception "No such file").

Definition sample_setup_config : config :=
  Config [("train", "train.csv"); ("test", "test.csv")]
         (EmbeddingsConfig "vectors.bin" "word2vec" true 2)
         (ModelConfig 4 [[bcnn_config]] true).

Definition late_error_config : config :=
  Config [("train", "train.csv"); ("test", "test.csv")]
         (EmbeddingsConfig "vectors.txt" "glove" false 2)
         (ModelConfig 4 [[uppercase_config]] true).



(** * Properties *)

(** ** The error monad *)

Lemma bind_Ok {A B} (r : result A) (k : A -> result B) (b : B) :
  (r ≫= k) = Ok b -> exists a, r = Ok a /\ k a = Ok b.
Proof. destruct r as [a|e]; simpl; [eauto | discriminate]. Qed.

Lemma bind_Raise {A B} (r : result A) (k : A -> result B) (e : exn) :
  r = Raise e -> (r ≫= k) = Raise e.
Proof. intros ->. reflexivity. Qed.

Ltac inv_bind H :=
  let a := fresh "a" in
  let Ha := fresh "Ha" in
  apply bind_Ok in H; destruct H as (a & Ha & H).

(** ** [sum] *)

Lemma fold_left_add_acc (xs : list Z) (a : Z) :
  fold_left Z.add xs a = a + fold_left Z.add xs 0.
Proof.
  revert a. induction xs as [|x xs IH]; intros a; simpl; [lia|].
  rewrite (IH (a + x)), (IH (0 + x)). lia.
Qed.

Lemma sum_nil : sum [] = 0.
Proof. reflexivity. Qed.

Lemma sum_cons (x : Z) (xs : list Z) : sum (x :: xs) = x + sum xs.
Proof. unfold sum. simpl. apply fold_left_add_acc. Qed.

Lemma sum_app (xs ys : list Z) : sum (xs ++ ys) = sum xs + sum ys.
Proof.
  induction xs as [|x xs IH]; simpl; [reflexivity|].
  rewrite !sum_cons, IH. lia.
Qed.

(** ** [setup_block] *)



Lemma elem_of_block_types (t : string) :
  t ∈ block_types <-> t = "bcnn" \/ t = "abcnn1" \/ t = "abcnn2" \/ t = "abcnn3".
Proof. unfold block_types. rewrite !elem_of_cons, elem_of_nil. tauto. Qed.

Lemma elem_of_embedding_formats (t : string) :
  t ∈ embedding_formats <-> t = "word2vec" \/ t = "fasttext".
Proof. unfold embedding_formats. rewrite !elem_of_cons, elem_of_nil. tauto. Qed.

Ltac case_type bc :=
  destruct (String.eqb_spec (type bc) "bcnn");
  [|destruct (String.eqb_spec (type bc) "abcnn1");
    [|destruct (String.eqb_spec (type bc) "abcnn2");
      [|destruct (String.eqb_spec (type bc) "abcnn3")]]].

Lemma construct_Ok {A} (init : constructors) (o : object) (x y : A) :
  construct init o x = Ok y -> init o = None /\ y = x.
Proof. unfold construct. destruct (init o); [discriminate|]. now intros [= <-]. Qed.

Lemma new_Ok {A} (init : constructors) (class : A -> object) (x y : A) :
  new init class x = Ok y -> init (class x) = None /\ y = x.
Proof. apply construct_Ok. Qed.

Lemma setup_block_output_size (init : constructors) (ml : Z) (bc : block_config)
    (b : Block) (sz : Z) :
  setup_block init ml bc = Ok (b, sz) -> sz = output_size bc.
Proof.
  unfold setup_block. intros H. apply bind_Ok in H as (b' & _ & H). congruence.
Qed.

Lemma setup_block_unsupported (init : constructors) (ml : Z) (bc : block_config) :
  type bc ∉ block_types -> setup_block init ml bc = Raise unsupported_block_type.
Proof.
  rewrite elem_of_block_types. unfold setup_block.
  case_type bc; simpl; tauto.
Qed.

(** The block a configuration of a supported type describes: whatever the
    constructors do, [setup_block] constructs its parts in order and returns
    it unless one of them is refused. *)
Lemma setup_block_outcome (ml : Z) (bc : block_config) :
  type bc ∈ block_types ->
  exists b,
    (forall init, setup_block init ml bc = outcome init (parts b) (b, output_size bc)) /\
    block_type b = type bc /\
    block_conv b = mkConvolution (input_size bc) (output_size bc) (width bc)
                                 (if attention_before_conv b then 2 else 1) /\
    (attention_before_conv b = true <-> type bc = "abcnn1" \/ type bc = "abcnn3").
Proof.
  rewrite elem_of_block_types. intros Ht.
  unfold setup_block. case_type bc; [| | | | exfalso; tauto].
  - exists (BCNNBlock (mkConvolution (input_size bc) (output_size bc) (width bc) 1)
                      (mkWidthAP (width bc)) (dropout_rate bc)).
    split; [|split; [now symmetry|split; [reflexivity|]]].
    + intros init. unfold new, construct, outcome. cbn [parts refusal].
      repeat (cbn [mbind result_bind];
              match goal with
              | |- context [init ?o] => destruct (init o)
              end);
        reflexivity.
    + cbn. split; [discriminate|]. intros [H|H]; congruence.
  - exists (ABCNN1Block
              (mkABCNN1Attention (input_size bc) ml (share_weights bc) (match_score bc))
              (mkConvolution (input_size bc) (output_size bc) (width bc) 2)
              (mkWidthAP (width bc)) (dropout_rate bc)).
    split; [|split; [now symmetry|split; [reflexivity|]]].
    + intros init. unfold new, construct, outcome. cbn [parts refusal].
      repeat (cbn [mbind result_bind];
              match goal with
              | |- context [init ?o] => destruct (init o)
              end);
        reflexivity.
    + cbn. tauto.
  - exists (ABCNN2Block (mkConvolution (input_size bc) (output_size bc) (width bc) 1)
                        (mkABCNN2Attention ml (width bc) (match_score bc))
                        (dropout_rate bc)).
    split; [|split; [now symmetry|split; [reflexivity|]]].
    + intros init. unfold new, construct, outcome. cbn [parts refusal].
      repeat (cbn [mbind result_bind];
              match goal with
              | |- context [init ?o] => destruct (init o)
              end);
        reflexivity.
    + cbn. split; [discriminate|]. intros [H|H]; congruence.
  - exists (ABCNN3Block
              (mkABCNN1Attention (input_size bc) ml (share_weights bc) (match_score bc))
              (mkConvolution (input_size bc) (output_size bc) (width bc) 2)
              (mkABCNN2Attention ml (width bc) (match_score bc))
              (dropout_rate bc)).
    split; [|split; [now symmetry|split; [reflexivity|]]].
    + intros init. unfold new, construct, outcome. cbn [parts refusal].
      repeat (cbn [mbind result_bind];
              match goal with
              | |- context [init ?o] => destruct (init o)
              end);
        reflexivity.
    + cbn. tauto.
Qed.

Lemma outcome_Ok {A} (init : constructors) (objects : list object) (x y : A) :
  outcome init objects x = Ok y <-> refusal init objects = None /\ y = x.
Proof.
  unfold outcome. destruct (refusal init objects).
  - split; [discriminate | intros [? _]; discriminate].
  - split; [intros [= <-]; auto | intros [_ ->]; reflexivity].
Qed.

Lemma refusal_None (init : constructors) (objects : list object) :
  refusal init objects = None <-> Forall (fun o => init o = None) objects.
Proof.
  induction objects as [|o os IH]; simpl.
  - split; [constructor | reflexivity].
  - rewrite Forall_cons. destruct (init o).
    + split; [discriminate | intros [? _]; discriminate].
    + rewrite IH. tauto.
Qed.

Lemma outcome_accept_all {A} (objects : list object) (x : A) :
  outcome accept_all objects x = Ok x.
Proof.
  unfold outcome.
  now rewrite (proj2 (refusal_None accept_all objects)) by (apply Forall_forall; reflexivity).
Qed.

(** C6: for each of the four supported types [setup_block] constructs a
    convolution from the configured sizes and width whose input-depth
    multiplier is 2 when the block runs ABCNN1 attention before it, which is
    the case for the types abcnn1 and abcnn3, and 1 for bcnn and abcnn2; the
    block built around it is returned unless a constructor raises. *)
Theorem setup_block_conv_multiplier (ml : Z) (bc : block_config) :
  type bc ∈ block_types ->
  exists b,
    (forall init, setup_block init ml bc = outcome init (parts b) (b, output_size bc)) /\
    (forall init b' sz, setup_block init ml bc = Ok (b', sz) -> b' = b) /\
    OConvolution (block_conv b) ∈ parts b /\
    block_conv b = mkConvolution (input_size bc) (output_size bc) (width bc)
                                 (if attention_before_conv b then 2 else 1) /\
    (attention_before_conv b = true <-> type bc = "abcnn1" \/ type bc = "abcnn3") /\
    (attention_before_conv b = false <-> type bc = "bcnn" \/ type bc = "abcnn2") /\
    (conv_channels (block_conv b) = 2 <-> type bc = "abcnn1" \/ type bc = "abcnn3") /\
    (conv_channels (block_conv b) = 1 <-> type bc = "bcnn" \/ type bc = "abcnn2").
Proof.
  intros Ht. destruct (setup_block_outcome ml bc Ht) as (b & Hrun & _ & Hconv & Hattn).
  apply elem_of_block_types in Ht.
  assert (Hnot : attention_before_conv b = false <->
                 type bc = "bcnn" \/ type bc = "abcnn2").
  { destruct (attention_before_conv b).
    - split; [discriminate|]. intros H. exfalso.
      destruct (proj1 Hattn eq_refl) as [H1|H1], H as [H2|H2]; congruence.
    - split; [|reflexivity]. intros _.
      destruct Ht as [H|[H|[H|H]]]; auto;
        (assert (true = false) by (symmetry; apply Hattn; auto)); discriminate. }
  exists b. split; [exact Hrun|]. split; [|split; [|split; [exact Hconv|]]].
  - intros init b' sz H. rewrite Hrun in H. apply outcome_Ok in H as [_ H]. congruence.
  - destruct b; cbn; rewrite !elem_of_cons; auto.
  - split; [exact Hattn|]. split; [exact Hnot|].
    rewrite Hconv. cbn [conv_channels].
    destruct (attention_before_conv b).
    + split; [rewrite <- Hattn; tauto|]. rewrite <- Hnot. split; [lia | discriminate].
    + split; [rewrite <- Hattn; split; [lia | discriminate]|]. rewrite <- Hnot. tauto.
Qed.

Lemma setup_block_conv_multiplier_witness :
  (exists b, setup_block checking 40 bcnn_config = Ok (b, 50) /\
             conv_channels (block_conv b) = 1) /\
  (exists b, setup_block checking 40 abcnn1_config = Ok (b, 50) /\
             conv_channels (block_conv b) = 2) /\
  (exists b, setup_block checking 40 abcnn2_config = Ok (b, 50) /\
             conv_channels (block_conv b) = 1) /\
  (exists b, setup_block checking 40 abcnn3_config = Ok (b, 50) /\
             conv_channels (block_conv b) = 2).
Proof.
  split; [|split; [|split]].
  - destruct (setup_block_conv_multiplier 40 bcnn_config)
      as (b & Hrun & _ & _ & _ & _ & _ & _ & Hone); [compute_done|].
    exists b. split; [|apply Hone; left; reflexivity].
    pose proof (Hrun accept_all) as H0. rewrite outcome_accept_all in H0.
    injection H0 as <-. rewrite Hrun. reflexivity.
  - destruct (setup_block_conv_multiplier 40 abcnn1_config)
      as (b & Hrun & _ & _ & _ & _ & _ & Htwo & _); [compute_done|].
    exists b. split; [|apply Htwo; left; reflexivity].
    pose proof (Hrun accept_all) as H0. rewrite outcome_accept_all in H0.
    injection H0 as <-. rewrite Hrun. reflexivity.
  - destruct (setup_block_conv_multiplier 40 abcnn2_config)
      as (b & Hrun & _ & _ & _ & _ & _ & _ & Hone); [compute_done|].
    exists b. split; [|apply Hone; right; reflexivity].
    pose proof (Hrun accept_all) as H0. rewrite outcome_accept_all in H0.
    injection H0 as <-. rewrite Hrun. reflexivity.
  - destruct (setup_block_conv_multiplier 40 abcnn3_config)
      as (b & Hrun & _ & _ & _ & _ & _ & Htwo & _); [compute_done|].
    exists b. split; [|apply Htwo; right; reflexivity].
    pose proof (Hrun accept_all) as H0. rewrite outcome_accept_all in H0.
    injection H0 as <-. rewrite Hrun. reflexivity.
Defined.

(** ** [setup_word_vectors] *)

Ltac case_format cfg :=
  destruct (String.eqb_spec (format (cfg_embeddings cfg)) "word2vec");
  [|destruct (String.eqb_spec (format (cfg_embeddings cfg)) "fasttext")].

Lemma setup_word_vectors_unsupported (env : loaders) (cfg : config) :
  format (cfg_embeddings cfg) ∉ embedding_formats ->
  setup_word_vectors env cfg = Raise unsupported_format.
Proof.
  rewrite elem_of_embedding_formats. unfold setup_word_vectors.
  case_format cfg; tauto.
Qed.


Lemma setup_word_vectors_supported_no_file (cfg : config) :
  format (cfg_embeddings cfg) ∈ embedding_formats ->
  setup_word_vectors no_files cfg = Ok None.
Proof.
  rewrite elem_of_embedding_formats. unfold setup_word_vectors.
  case_format cfg; simpl; tauto.
Qed.

(** On a supported format the function returns what the loader returns, or
    [None] when the file is absent. *)
Lemma setup_word_vectors_supported (env : loaders) (cfg : config) :
  format (cfg_embeddings cfg) ∈ embedding_formats ->
  setup_word_vectors env cfg =
    if isfile env (path (cfg_embeddings cfg)) then
      Some <$> (if String.eqb (format (cfg_embeddings cfg)) "word2vec"
                then load_word2vec_format env (path (cfg_embeddings cfg))
                                          (is_binary (cfg_embeddings cfg))
                else load_fasttext_format env (path (cfg_embeddings cfg)))
    else Ok None.
Proof.
  rewrite elem_of_embedding_formats. unfold setup_word_vectors.
  case_format cfg; simpl; try tauto; intros _;
    destruct (isfile env _); reflexivity.
Qed.



(** ** [setup_layer] and [setup_model] *)

Section Layers.
Variable init : constructors.

#[local] Abbreviation setup_block := (setup_block init).
#[local] Abbreviation setup_layer_loop := (setup_layer_loop init).
#[local] Abbreviation setup_layer := (setup_layer init).

Lemma setup_layer_loop_sizes (ml : Z) (lc : list block_config)
    (bs bs' : list Block) (os os' : list Z) :
  setup_layer_loop ml lc bs os = Ok (bs', os') ->
  os' = os ++ (output_size <$> lc).
Proof.
  revert bs os. induction lc as [|bc lc IH]; intros bs os H; simpl in H.
  - inversion H. now rewrite app_nil_r.
  - inv_bind H. destruct a as [b sz].
    apply setup_block_output_size in Ha. subst sz.
    apply IH in H. rewrite H, <- app_assoc. reflexivity.
Qed.

Lemma setup_layer_size (ml : Z) (lc : list block_config) (l : CNNLayer) (sz : Z) :
  setup_layer ml lc = Ok (l, sz) -> sz = pooled_size lc.
Proof.
  unfold setup_layer. intros H. inv_bind H. destruct a as [bs os].
  apply setup_layer_loop_sizes in Ha. inv_bind H. inversion H. subst. reflexivity.
Qed.

Lemma setup_model_loop_sizes (ml : Z) (lcs : list (list block_config))
    (ls ls' : list CNNLayer) (szs szs' : list Z) :
  setup_model_loop init ml lcs ls szs = Ok (ls', szs') ->
  szs' = szs ++ (pooled_size <$> lcs).
Proof.
  revert ls szs. induction lcs as [|lc lcs IH]; intros ls szs H; simpl in H.
  - inversion H. now rewrite app_nil_r.
  - inv_bind H. destruct a as [l sz].
    apply setup_layer_size in Ha. subst sz.
    apply IH in H. rewrite H, <- app_assoc. reflexivity.
Qed.

End Layers.

Lemma list_getitem_last {A} (l : list A) (x : A) :
  list_getitem l (-1) = Ok x -> last l = Some x.
Proof.
  unfold list_getitem, len. simpl (-1 <? 0).  cbv iota.
  destruct (_ || _); [discriminate|].
  destruct (l !! _) as [y|] eqn:E; [|discriminate].
  intros H. inversion H. subst y. rewrite last_lookup.
  rewrite <- E. f_equal. destruct l; simpl in *; [discriminate|].
  lia.
Qed.

(** C1: the size of the classification head is twice the embedding size
    plus the pooled sizes of all layers when [use_all_layer_outputs] is set,
    and twice the pooled size of the last layer otherwise (twice the
    embedding size when the configuration has no layer); the pooled size
    [setup_layer] returns is the sum of its blocks' [output_size]. *)
Theorem setup_model_final_size (init : constructors)
    (Model_modules : Embedding -> list CNNLayer -> bool -> Z -> module)
    (emb : Embedding) (cfg : config) (m : Model) :
  setup_model init Model_modules emb cfg = Ok m ->
  (forall lc l sz, setup_layer init (max_length (cfg_model cfg)) lc = Ok (l, sz) ->
                   sz = sum (output_size <$> lc)) /\
  final_size m =
    if use_all_layer_outputs (cfg_model cfg)
    then 2 * (size (cfg_embeddings cfg) + sum (pooled_size <$> layers (cfg_model cfg)))
    else 2 * default (size (cfg_embeddings cfg))
                     (last (pooled_size <$> layers (cfg_model cfg))).
Proof.
  intros H. split.
  { intros lc l sz Hl. apply setup_layer_size in Hl. exact Hl. }
  unfold setup_model in H.
  apply bind_Ok in H as ([ls szs] & Hloop & H).
  apply setup_model_loop_sizes in Hloop. simpl in Hloop.
  apply bind_Ok in H as (fs & Hfs & H).
  apply bind_Ok in H as (tree0 & _ & H).
  apply bind_Ok in H as (tree & _ & H).
  inversion H; subst m; simpl. clear H.
  destruct (use_all_layer_outputs _).
  - inversion Hfs. subst. rewrite sum_cons. reflexivity.
  - apply bind_Ok in Hfs as (x & Hx & Hfs). inversion Hfs.
    apply list_getitem_last in Hx.
    subst szs. destruct (pooled_size <$> _) as [|p ps] eqn:E.
    + simpl in Hx. inversion Hx. reflexivity.
    + rewrite last_cons_cons in Hx. rewrite Hx. reflexivity.
Qed.


Lemma setup_model_final_size_witness :
  exists m, setup_model checking head_only [] all_outputs_config = Ok m /\
            final_size m = 2 * (300 + 50).
Proof.
  eexists. split; [reflexivity|].
  pose proof (setup_model_final_size checking head_only [] all_outputs_config _ eq_refl)
    as [_ H].
  exact H.
Defined.

(** With all layer outputs in use, the head of a model with embeddings of
    size 300 and one layer of pooled size 50 has size 700, not 2 * 50. *)
Lemma final_size_includes_embeddings :
  exists m, setup_model checking head_only [] all_outputs_config = Ok m /\
            use_all_layer_outputs (cfg_model all_outputs_config) = true /\
            final_size m = 700 /\
            2 * sum (pooled_size <$> layers (cfg_model all_outputs_config)) = 100 /\
            final_size m <>
              2 * sum (pooled_size <$> layers (cfg_model all_outputs_config)).
Proof.
  eexists. split; [reflexivity|]. repeat split. discriminate.
Qed.

(** ** Dictionaries *)

Section Dict.
Context {V : Type}.
Implicit Types (d : dict V) (k : string) (v : V).

Lemma dict_get_None d k : dict_get d k = None <-> k ∉ keys d.
Proof.
  induction d as [|[k' v'] d IH]; simpl.
  - split; [intros _; apply not_elem_of_nil | reflexivity].
  - rewrite not_elem_of_cons. destruct (String.eqb_spec k k').
    + split; [discriminate | tauto].
    + tauto.
Qed.

Lemma dict_get_Some_elem d k v : dict_get d k = Some v -> (k, v) ∈ d.
Proof.
  induction d as [|[k' v'] d IH]; simpl; [discriminate|].
  destruct (String.eqb_spec k k').
  - intros [= ->]. subst. apply list_elem_of_here.
  - intros H. apply list_elem_of_further, IH, H.
Qed.

Lemma dict_get_elem_NoDup d k v :
  NoDup (keys d) -> (k, v) ∈ d -> dict_get d k = Some v.
Proof.
  induction d as [|[k' v'] d IH]; simpl; intros Hnd Hin.
  - apply elem_of_nil in Hin as [].
  - apply NoDup_cons in Hnd as [Hk Hnd].
    apply elem_of_cons in Hin as [[= -> ->]|Hin].
    + now rewrite String.eqb_refl.
    + destruct (String.eqb_spec k k'); [|auto].
      subst. exfalso. apply Hk. unfold keys.
      apply (list_elem_of_fmap_2 fst) in Hin. exact Hin.
Qed.

Lemma dict_get_app d d' k :
  dict_get (d ++ d') k =
    match dict_get d k with Some v => Some v | None => dict_get d' k end.
Proof.
  induction d as [|[k' v'] d IH]; simpl; [reflexivity|].
  destruct (String.eqb k k'); [reflexivity | exact IH].
Qed.

Lemma dict_get_app_Some d d' k v :
  dict_get d k = Some v -> dict_get (d ++ d') k = Some v.
Proof. intros H. now rewrite dict_get_app, H. Qed.

Lemma dict_setitem_fresh d k v :
  dict_get d k = None -> dict_setitem d k v = d ++ [(k, v)].
Proof.
  induction d as [|[k' v'] d IH]; simpl; [reflexivity|].
  destruct (String.eqb k k'); [discriminate|].
  intros H. now rewrite IH.
Qed.

Lemma dict_setitem_middle d d' k v v' :
  k ∉ keys d -> dict_setitem (d ++ (k, v) :: d') k v' = d ++ (k, v') :: d'.
Proof.
  induction d as [|[k0 v0] d IH]; simpl; intros Hk.
  - now rewrite String.eqb_refl.
  - apply not_elem_of_cons in Hk as [Hne Hk].
    destruct (String.eqb_spec k k0); [contradiction|].
    now rewrite IH.
Qed.

Lemma dict_get_setitem_eq d k v : dict_get (dict_setitem d k v) k = Some v.
Proof.
  induction d as [|[k' v'] d IH]; simpl.
  - now rewrite String.eqb_refl.
  - destruct (String.eqb_spec k k') as [->|Hne]; simpl.
    + now rewrite String.eqb_refl.
    + destruct (String.eqb_spec k k'); [contradiction | exact IH].
Qed.

Lemma dict_get_setitem_ne d k k' v :
  k <> k' -> dict_get (dict_setitem d k v) k' = dict_get d k'.
Proof.
  intros Hne. induction d as [|[k0 v0] d IH]; simpl.
  - destruct (String.eqb_spec k' k); [congruence | reflexivity].
  - destruct (String.eqb_spec k k0) as [->|Hne0]; simpl.
    + destruct (String.eqb_spec k' k0); [congruence | reflexivity].
    + destruct (String.eqb_spec k' k0); [reflexivity | exact IH].
Qed.

Lemma keys_setitem_present d k v :
  k ∈ keys d -> keys (dict_setitem d k v) = keys d.
Proof.
  induction d as [|[k' v'] d IH]; simpl; intros Hin.
  - apply elem_of_nil in Hin as [].
  - destruct (String.eqb_spec k k') as [->|Hne]; simpl; [reflexivity|].
    apply elem_of_cons in Hin as [?|Hin]; [contradiction|].
    now rewrite IH.
Qed.

End Dict.

Lemma dict_contains_keys {V} (d : dict V) (k : string) :
  dict_contains d k = true <-> k ∈ keys d.
Proof.
  unfold dict_contains. pose proof (dict_get_None d k) as H.
  destruct (dict_get d k).
  - split; [intros _|reflexivity].
    destruct (decide (k ∈ keys d)) as [Hin|Hnin]; [exact Hin|].
    apply H in Hnin. discriminate.
  - split; [discriminate|]. intros Hin. exfalso. now apply H.
Qed.

Lemma dict_contains_setitem_eq {V} (d : dict V) (k : string) (v : V) :
  dict_contains (dict_setitem d k v) k = true.
Proof. unfold dict_contains. now rewrite dict_get_setitem_eq. Qed.

Lemma dict_contains_setitem_mono {V} (d : dict V) (k k' : string) (v : V) :
  dict_contains d k' = true -> dict_contains (dict_setitem d k v) k' = true.
Proof.
  destruct (String.eqb_spec k k') as [->|Hne].
  - intros _. apply dict_contains_setitem_eq.
  - unfold dict_contains. now rewrite dict_get_setitem_ne.
Qed.

(** ** The vocabulary invariant *)

Lemma vocab_ok_init : vocab_ok [("<PAD>", 0)].
Proof.
  split; [|split].
  - now exists [].
  - reflexivity.
  - apply NoDup_singleton.
Qed.

Lemma vocab_ok_snoc (d : dict Z) (w : string) :
  vocab_ok d -> dict_get d w = None -> vocab_ok (d ++ [(w, len d)]).
Proof.
  intros ([rest ->] & Hval & Hnd) Hw. split; [|split].
  - now exists (rest ++ [(w, len (("<PAD>", 0) :: rest))]).
  - rewrite fmap_app, Hval, List.length_app. simpl length at 3.
    rewrite Nat.add_1_r, seq_S, fmap_app. reflexivity.
  - unfold keys. rewrite fmap_app. apply NoDup_app. split; [exact Hnd|].
    split; [|apply NoDup_singleton].
    intros k Hk Hk'. apply list_elem_of_singleton in Hk'. simpl in Hk'. subst k.
    apply dict_get_None in Hw. contradiction.
Qed.

Lemma vocab_ok_PAD (d : dict Z) : vocab_ok d -> dict_get d "<PAD>" = Some 0.
Proof. intros ([rest ->] & _). reflexivity. Qed.

Lemma vocab_ok_values (d : dict Z) (w : string) (i : Z) :
  vocab_ok d -> (w, i) ∈ d -> 0 <= i < len d.
Proof.
  intros (_ & Hval & _) Hin.
  apply (list_elem_of_fmap_2 snd) in Hin. rewrite Hval in Hin. simpl in Hin.
  apply list_elem_of_fmap_1 in Hin as (j & -> & Hj).
  apply elem_of_seq in Hj. unfold len. simpl. lia.
Qed.

Lemma vocab_ok_bound (d : dict Z) (w : string) (i : Z) :
  vocab_ok d -> dict_get d w = Some i -> 0 <= i < len d.
Proof. intros Hok Hw. eapply vocab_ok_values, dict_get_Some_elem; eauto. Qed.

Lemma NoDup_snd_inj {A B} (l : list (A * B)) (x y : A * B) :
  NoDup (snd <$> l) -> x ∈ l -> y ∈ l -> snd x = snd y -> x = y.
Proof.
  induction l as [|z l IH]; simpl; intros Hnd Hx Hy Heq.
  - apply elem_of_nil in Hx as [].
  - apply NoDup_cons in Hnd as [Hz Hnd].
    apply elem_of_cons in Hx as [->|Hx]; apply elem_of_cons in Hy as [->|Hy].
    + reflexivity.
    + exfalso. apply Hz. rewrite Heq. now apply list_elem_of_fmap_2.
    + exfalso. apply Hz. rewrite <- Heq. now apply list_elem_of_fmap_2.
    + now apply IH.
Qed.

Lemma vocab_ok_NoDup_values (d : dict Z) : vocab_ok d -> NoDup (snd <$> d).
Proof.
  intros (_ & -> & _). apply NoDup_fmap_2; [|apply NoDup_seq].
  intros x y. apply Nat2Z.inj.
Qed.

(** Only the padding word has index 0. *)
Lemma vocab_ok_zero (d : dict Z) (w : string) :
  vocab_ok d -> dict_get d w = Some 0 -> w = "<PAD>".
Proof.
  intros Hok Hw. pose proof (vocab_ok_PAD d Hok) as Hp.
  apply dict_get_Some_elem in Hw, Hp.
  pose proof (NoDup_snd_inj d _ _ (vocab_ok_NoDup_values d Hok) Hw Hp eq_refl) as H.
  congruence.
Qed.

(** ** Indexing the words of a question *)

Lemma encodes_extend (d ext : dict Z) (ws : list string) (idxs : list Z) :
  encodes d ws idxs -> encodes (d ++ ext) ws idxs.
Proof.
  unfold encodes. intros H. eapply Forall2_impl; [exact H|].
  intros w i. apply dict_get_app_Some.
Qed.

Lemma encodes_bound (d : dict Z) (ws : list string) (idxs : list Z) :
  vocab_ok d -> encodes d ws idxs -> Forall (fun i => 0 <= i < len d) idxs.
Proof.
  intros Hok. induction 1 as [|w i ws idxs Hw _ IH]; constructor; [|exact IH].
  eapply vocab_ok_bound; eauto.
Qed.

Section IndexWords.
Variable text_to_word_list : string -> list string.
Variable stopwords_english : list string.

Lemma index_word_present (d : dict Z) (w : string) (i : Z) :
  dict_get d w = Some i -> index_word d w = Ok (d, i).
Proof.
  intros H. unfold index_word, dict_contains, dict_getitem. rewrite H. simpl.
  rewrite H. reflexivity.
Qed.

Lemma index_word_fresh (d : dict Z) (w : string) :
  dict_get d w = None -> index_word d w = Ok (d ++ [(w, len d)], len d).
Proof.
  intros H. unfold index_word, dict_contains, dict_getitem. rewrite H. simpl.
  rewrite dict_get_setitem_eq. simpl. now rewrite dict_setitem_fresh.
Qed.

Lemma index_word_spec (d : dict Z) (w : string) :
  vocab_ok d ->
  exists ext i, index_word d w = Ok (d ++ ext, i) /\
                vocab_ok (d ++ ext) /\ dict_get (d ++ ext) w = Some i.
Proof.
  intros Hok. destruct (dict_get d w) as [i|] eqn:E.
  - exists [], i. rewrite app_nil_r. auto using index_word_present.
  - exists [(w, len d)], (len d). split; [now apply index_word_fresh|].
    split; [now apply vocab_ok_snoc|].
    rewrite dict_get_app, E. simpl. now rewrite String.eqb_refl.
Qed.

Lemma index_words_spec (ws : list string) (d : dict Z) (acc : list Z) :
  vocab_ok d ->
  exists ext idxs, index_words d ws acc = Ok (d ++ ext, acc ++ idxs) /\
                   vocab_ok (d ++ ext) /\ encodes (d ++ ext) ws idxs.
Proof.
  revert d acc. induction ws as [|w ws IH]; intros d acc Hok.
  - exists [], []. rewrite !app_nil_r.
    split; [reflexivity|]. split; [exact Hok | constructor].
  - destruct (index_word_spec d w Hok) as (e1 & i & Hw & Hok1 & Hi).
    destruct (IH (d ++ e1) (acc ++ [i]) Hok1) as (e2 & idxs & Hws & Hok2 & Henc).
    exists (e1 ++ e2), (i :: idxs). rewrite app_assoc.
    split; [|split; [exact Hok2|]].
    + simpl. rewrite Hw. simpl. rewrite Hws.
      rewrite <- (app_assoc acc [i] idxs). reflexivity.
    + constructor; [now apply dict_get_app_Some | exact Henc].
Qed.

End IndexWords.

(** ** Truncation and padding *)

Lemma slice_to_nonneg {A} (l : list A) (n : Z) :
  0 <= n -> slice_to l n = take (Z.to_nat n) l.
Proof.
  intros Hn. unfold slice_to. destruct (Z.ltb_spec n 0); [lia | reflexivity].
Qed.

Lemma truncate_pad_nonneg {A} (max_length : Z) (pad : A) (l : list A) :
  0 <= max_length ->
  truncate_pad max_length pad l =
    take (Z.to_nat max_length) l ++ replicate (Z.to_nat max_length - length l) pad.
Proof.
  intros Hml. unfold truncate_pad, len.
  destruct (Z.of_nat (length l) <? max_length) eqn:E.
  - rewrite E. apply Z.ltb_lt in E.
    rewrite slice_to_nonneg by lia. rewrite Nat2Z.id.
    rewrite !take_ge by lia. f_equal. f_equal. lia.
  - apply Z.ltb_ge in E. rewrite Z.ltb_irrefl. rewrite slice_to_nonneg by lia.
    replace (Z.to_nat max_length - length l)%nat with 0%nat by lia.
    simpl. now rewrite app_nil_r.
Qed.

Lemma truncate_pad_short {A} (max_length : Z) (pad : A) (l : list A) :
  len l <= max_length ->
  truncate_pad max_length pad l =
    l ++ replicate (Z.to_nat max_length - length l) pad.
Proof.
  unfold len. intros H. rewrite truncate_pad_nonneg by lia.
  now rewrite take_ge by lia.
Qed.

Lemma truncate_pad_long {A} (max_length : Z) (pad : A) (l : list A) :
  0 <= max_length <= len l ->
  truncate_pad max_length pad l = take (Z.to_nat max_length) l.
Proof.
  unfold len. intros H. rewrite truncate_pad_nonneg by lia.
  replace (Z.to_nat max_length - length l)%nat with 0%nat by lia.
  simpl. now rewrite app_nil_r.
Qed.

Lemma length_truncate_pad {A} (max_length : Z) (pad : A) (l : list A) :
  0 <= max_length -> length (truncate_pad max_length pad l) = Z.to_nat max_length.
Proof.
  intros H. rewrite truncate_pad_nonneg by lia.
  rewrite List.length_app, length_take, length_replicate. lia.
Qed.

(** Truncation and padding keep or drop entries and add [pad]. *)
Lemma elem_of_truncate_pad {A} (max_length : Z) (pad : A) (l : list A) (x : A) :
  x ∈ truncate_pad max_length pad l -> x ∈ l \/ x = pad.
Proof.
  unfold truncate_pad, slice_to.
  set (n := if len l <? max_length then len l else max_length).
  assert (Hsub : forall k, x ∈ take k l -> x ∈ l)
    by (intros k Hk; eapply subseteq_take; eauto).
  destruct (n <? max_length); destruct (n <? 0);
    rewrite ?elem_of_app; intros H;
    repeat match goal with
           | H : _ \/ _ |- _ => destruct H as [H|H]
           | H : _ ∈ replicate _ _ |- _ => apply elem_of_replicate_inv in H
           end; eauto.
Qed.

(** ** Indexing questions, examples and rows *)

Section Indexing.
Variable text_to_word_list : string -> list string.
Variable stopwords_english : list string.

#[local] Abbreviation tokens := (tokens text_to_word_list stopwords_english).
#[local] Abbreviation index_question := (index_question text_to_word_list stopwords_english).
#[local] Abbreviation index_columns := (index_columns text_to_word_list stopwords_english).
#[local] Abbreviation index_rows := (index_rows text_to_word_list stopwords_english).
#[local] Abbreviation sentence_ok := (sentence_ok text_to_word_list stopwords_english).
#[local] Abbreviation example_ok := (example_ok text_to_word_list stopwords_english).
#[local] Abbreviation dataset_ok := (dataset_ok text_to_word_list stopwords_english).

Lemma index_question_spec (ml : Z) (d : dict Z) (q : string) :
  vocab_ok d ->
  exists ext idxs,
    index_question ml d q =
      Ok (d ++ ext, (truncate_pad ml 0 idxs, truncate_pad ml "<PAD>" (tokens q))) /\
    vocab_ok (d ++ ext) /\ encodes (d ++ ext) (tokens q) idxs.
Proof.
  intros Hok.
  destruct (index_words_spec (tokens q) d [] Hok) as (ext & idxs & Hws & Hok' & Henc).
  exists ext, idxs. split; [|split; assumption].
  unfold index_question. fold (tokens q). rewrite Hws. simpl.
  assert (Hlen : len (tokens q) = len idxs)
    by (unfold len; f_equal; eapply Forall2_length; eauto).
  unfold truncate_pad. rewrite Hlen.
  destruct ((if len idxs <? ml then len idxs else ml) <? ml); reflexivity.
Qed.

Lemma sentence_ok_extend (ml : Z) (d ext : dict Z) (q : string) (s : list Z) :
  sentence_ok ml d q s -> sentence_ok ml (d ++ ext) q s.
Proof. intros (idxs & Henc & ->). exists idxs. auto using encodes_extend. Qed.

Lemma example_ok_extend (ml : Z) (d ext : dict Z) (e : example) (m : list (list Z)) :
  example_ok ml d e m -> example_ok ml (d ++ ext) e m.
Proof.
  unfold example_ok. intros H. eapply Forall2_impl; [exact H|].
  intros col s. apply sentence_ok_extend.
Qed.

Lemma dataset_ok_extend (ml : Z) (d ext : dict Z) (x y : string * dataset) :
  dataset_ok ml d x y -> dataset_ok ml (d ++ ext) x y.
Proof.
  intros (Hname & rows & exs & Hx & Hy & Hrows). split; [exact Hname|].
  exists rows, exs. split; [exact Hx|]. split; [exact Hy|].
  eapply Forall2_impl; [exact Hrows|]. intros e m. apply example_ok_extend.
Qed.

Lemma index_columns_spec (ml : Z) (cols : list (example -> string)) (e : example)
    (d : dict Z) (m : list (list Z)) (p : list (list string)) :
  vocab_ok d ->
  exists ext m' p',
    index_columns ml cols e d m p = Ok (d ++ ext, (m ++ m', p ++ p')) /\
    vocab_ok (d ++ ext) /\
    Forall2 (fun col s => sentence_ok ml (d ++ ext) (col e) s) cols m'.
Proof.
  revert d m p. induction cols as [|col cols IH]; intros d m p Hok.
  - exists [], [], []. rewrite !app_nil_r.
    split; [reflexivity|]. split; [exact Hok | constructor].
  - destruct (index_question_spec ml d (col e) Hok) as (e1 & idxs & Hq & Hok1 & Henc).
    destruct (IH (d ++ e1) (m ++ [truncate_pad ml 0 idxs])
                 (p ++ [truncate_pad ml "<PAD>" (tokens (col e))]) Hok1)
      as (e2 & m' & p' & Hcols & Hok2 & Hall).
    exists (e1 ++ e2), (truncate_pad ml 0 idxs :: m'),
           (truncate_pad ml "<PAD>" (tokens (col e)) :: p').
    rewrite app_assoc. split; [|split; [exact Hok2|]].
    + simpl. rewrite Hq. simpl. rewrite Hcols.
      rewrite <- (app_assoc m [_] m'), <- (app_assoc p [_] p'). reflexivity.
    + constructor; [|exact Hall].
      apply sentence_ok_extend. exists idxs. split; [exact Henc | reflexivity].
Qed.

Lemma index_rows_spec (ml : Z) (rows : list example) (d : dict Z)
    (lb : list Z) (ie : list (list (list Z))) (pt : list (list (list string))) :
  vocab_ok d ->
  exists ext exs pts,
    index_rows ml rows d lb ie pt =
      Ok (d ++ ext, (lb ++ (is_duplicate <$> rows), ie ++ exs, pt ++ pts)) /\
    vocab_ok (d ++ ext) /\
    Forall2 (example_ok ml (d ++ ext)) rows exs.
Proof.
  revert d lb ie pt. induction rows as [|e rows IH]; intros d lb ie pt Hok.
  - exists [], [], []. rewrite !app_nil_r.
    split; [reflexivity|]. split; [exact Hok | constructor].
  - destruct (index_columns_spec ml question_cols e d [] [] Hok)
      as (e1 & m' & p' & Hcols & Hok1 & Hall).
    destruct (IH (d ++ e1) (lb ++ [is_duplicate e]) (ie ++ [m']) (pt ++ [p']) Hok1)
      as (e2 & exs & pts & Hrows & Hok2 & Hexs).
    exists (e1 ++ e2), (m' :: exs), (p' :: pts).
    rewrite app_assoc. split; [|split; [exact Hok2|]].
    + cbn [index_rows]. rewrite Hcols. cbn [mbind result_bind app].
      rewrite Hrows.
      rewrite <- (app_assoc lb [_] _), <- (app_assoc ie [_] exs),
              <- (app_assoc pt [_] pts). reflexivity.
    + constructor; [|exact Hexs]. apply example_ok_extend. exact Hall.
Qed.

End Indexing.

(** ** Tensors from nested lists *)

Lemma same_lengths_Forall {A} (l : list (list A)) (n : nat) :
  Forall (fun x => length x = n) l -> same_lengths l = true.
Proof.
  intros H. destruct l as [|x xs]; [reflexivity|]. simpl.
  apply Forall_cons in H as [Hx Hxs]. apply forallb_forall.
  intros y Hy. apply Nat.eqb_eq. rewrite Hx.
  rewrite Forall_forall in Hxs. apply Hxs. now apply list_elem_of_In.
Qed.

Lemma Forall_concat {A} (P : A -> Prop) (ls : list (list A)) :
  Forall (Forall P) ls -> Forall P (concat ls).
Proof.
  induction 1 as [|l ls Hl _ IH]; simpl; [constructor|].
  apply Forall_app. split; assumption.
Qed.

Lemma LongTensor1_fit (overflow : exn) (l : list Z) :
  Forall (fun x => in_int64 x = true) l -> LongTensor1 overflow l = Ok l.
Proof.
  intros H. unfold LongTensor1.
  assert (forallb in_int64 l = true) as ->; [|reflexivity].
  apply forallb_forall. rewrite Forall_forall in H.
  intros x Hx. apply H. now apply list_elem_of_In.
Qed.

Lemma LongTensor1_Ok (overflow : exn) (l l' : list Z) :
  LongTensor1 overflow l = Ok l' ->
  l' = l /\ Forall (fun x => in_int64 x = true) l.
Proof.
  unfold LongTensor1. destruct (forallb in_int64 l) eqn:E; [|discriminate].
  intros [= <-]. split; [reflexivity|]. apply Forall_forall.
  intros x Hx. rewrite forallb_forall in E. apply E. now apply list_elem_of_In.
Qed.

Lemma LongTensor1_unfit (overflow : exn) (l : list Z) :
  ~ Forall (fun x => in_int64 x = true) l -> LongTensor1 overflow l = Raise overflow.
Proof.
  intros H. destruct (LongTensor1 overflow l) as [l'|e] eqn:E.
  - apply LongTensor1_Ok in E as [_ E]. contradiction.
  - unfold LongTensor1 in E. destruct (forallb in_int64 l); congruence.
Qed.

Section Loop.
Variable text_to_word_list : string -> list string.
Variable stopwords_english : list string.
Variable overflow : exn.

#[local] Abbreviation tokens := (tokens text_to_word_list stopwords_english).
#[local] Abbreviation index_rows := (index_rows text_to_word_list stopwords_english).
#[local] Abbreviation sentence_ok := (sentence_ok text_to_word_list stopwords_english).
#[local] Abbreviation example_ok := (example_ok text_to_word_list stopwords_english).
#[local] Abbreviation dataset_ok := (dataset_ok text_to_word_list stopwords_english).
#[local] Abbreviation setup_datasets_loop :=
  (setup_datasets_loop text_to_word_list stopwords_english overflow).
#[local] Abbreviation setup_datasets :=
  (setup_datasets text_to_word_list stopwords_english overflow).

Lemma sentence_ok_length (ml : Z) (d : dict Z) (q : string) (s : list Z) :
  0 <= ml -> sentence_ok ml d q s -> length s = Z.to_nat ml.
Proof. intros Hml (idxs & _ & ->). now apply length_truncate_pad. Qed.

Lemma example_ok_shape (ml : Z) (d : dict Z) (e : example) (m : list (list Z)) :
  0 <= ml -> example_ok ml d e m ->
  length m = 2%nat /\ Forall (fun s => length s = Z.to_nat ml) m.
Proof.
  intros Hml H. split.
  - apply Forall2_length in H. rewrite <- H. reflexivity.
  - unfold example_ok in H. induction H as [|col s cols m Hs _ IH]; constructor.
    + eapply sentence_ok_length; eauto.
    + exact IH.
Qed.

Lemma LongTensor3_rows (ml : Z) (d : dict Z) (rows : list example)
    (exs : list (list (list Z))) :
  0 <= ml -> Forall2 (example_ok ml d) rows exs -> LongTensor3 exs = Ok exs.
Proof.
  intros Hml H. unfold LongTensor3.
  assert (Hshape : Forall (fun m => length m = 2%nat /\
                                    Forall (fun s => length s = Z.to_nat ml) m) exs).
  { induction H as [|e m rows exs He _ IH]; constructor; [|exact IH].
    eapply example_ok_shape; eauto. }
  rewrite (same_lengths_Forall exs 2).
  - rewrite (same_lengths_Forall (concat exs) (Z.to_nat ml)); [reflexivity|].
    apply Forall_concat. eapply Forall_impl; [exact Hshape|]. now intros m [_ Hm].
  - eapply Forall_impl; [exact Hshape|]. now intros m [Hm _].
Qed.

Lemma LongTensor3_Ok (l l' : list (list (list Z))) :
  LongTensor3 l = Ok l' -> l' = l.
Proof. unfold LongTensor3. destruct (_ && _); congruence. Qed.

Lemma new_TensorDataset_Ok (exs : list (list (list Z))) (lbls : list Z) :
  length exs = length lbls ->
  new_TensorDataset exs lbls = Ok (mkTensorDataset exs lbls).
Proof. intros H. unfold new_TensorDataset. now rewrite H, Nat.eqb_refl. Qed.

Lemma new_TensorDataset_inv (exs : list (list (list Z))) (lbls : list Z)
    (t : TensorDataset) :
  new_TensorDataset exs lbls = Ok t -> t = mkTensorDataset exs lbls.
Proof. unfold new_TensorDataset. destruct (Nat.eqb _ _); congruence. Qed.

Lemma deref_Some (h : heap) (l : loc) (d : dict dataset) :
  h !! l = Some d -> deref h l = Ok d.
Proof. intros H. unfold deref. now rewrite H. Qed.

Lemma deref_Ok (h : heap) (l : loc) (d : dict dataset) :
  deref h l = Ok d -> h !! l = Some d.
Proof. unfold deref. destruct (h !! l); congruence. Qed.

(** The loop, started on the entries [items] that follow the already
    processed entries [pre]: it succeeds on frames whose labels fit when
    [max_length] is not negative, and whenever it succeeds it has replaced
    each remaining entry in place. *)
Lemma setup_datasets_loop_spec (l : loc) (ml : Z) (items : dict dataset) :
  forall (pre : dict dataset) (texts : dict (list (list (list string))))
         (d : dict Z) (h : heap),
    h !! l = Some (pre ++ items) ->
    NoDup (keys (pre ++ items)) ->
    vocab_ok d ->
    (0 <= ml -> Forall (fun x => is_frame (snd x) = true) items ->
     labels_fit items ->
     exists r, setup_datasets_loop l ml items texts d h = Ok r) /\
    (forall l' texts' d' h',
        setup_datasets_loop l ml items texts d h = Ok ((l', texts', d'), h') ->
        l' = l /\
        exists ext post,
          d' = d ++ ext /\ vocab_ok d' /\
          h' = <[l := pre ++ post]> h /\
          Forall2 (dataset_ok ml d') items post).
Proof.
  induction items as [|[name ds] rest IH]; intros pre texts d h Hh Hnd Hok.
  - split; [intros _ _ _; eexists; reflexivity|].
    intros l' texts' d' h' [= <- <- <- <-]. split; [reflexivity|].
    exists [], []. rewrite !app_nil_r in *.
    split; [reflexivity|]. split; [exact Hok|].
    split; [symmetry; now apply insert_id | constructor].
  - destruct ds as [rows|t].
    2:{ split.
        - intros _ Hfr _. apply Forall_cons in Hfr as [Hfr _]. discriminate.
        - intros l' texts' d' h' H. discriminate. }
    destruct (index_rows_spec text_to_word_list stopwords_english
                ml rows d [] [] [] Hok) as (e1 & exs & pts & Hrows & Hok1 & Hexs).
    simpl in Hrows.
    assert (Hname : name ∉ keys pre).
    { unfold keys in Hnd. rewrite fmap_app in Hnd.
      apply NoDup_app in Hnd as (_ & Hdisj & _). intros Hin.
      apply (Hdisj name Hin). simpl. apply list_elem_of_here. }
    set (t := mkTensorDataset exs (is_duplicate <$> rows)).
    set (h1 := <[l := pre ++ (name, Tensors t) :: rest]> h).
    assert (Hstep : forall texts,
      Forall (fun x => in_int64 x = true) (is_duplicate <$> rows) ->
      LongTensor3 exs = Ok exs ->
      setup_datasets_loop l ml ((name, Frame rows) :: rest) texts d h =
      setup_datasets_loop l ml rest (dict_setitem texts name pts) (d ++ e1) h1).
    { intros texts0 HL1 HL. cbn [setup_datasets_loop].
      cbn [mbind result_bind]. rewrite Hrows. cbn [mbind result_bind].
      rewrite (LongTensor1_fit overflow _ HL1). cbn [mbind result_bind].
      rewrite HL. cbn [mbind result_bind].
      rewrite new_TensorDataset_Ok
        by (rewrite length_fmap; symmetry; eapply Forall2_length; eauto).
      cbn [mbind result_bind]. rewrite (deref_Some _ _ _ Hh).
      cbn [mbind result_bind]. rewrite dict_setitem_middle by exact Hname.
      reflexivity. }
    assert (Hh1 : h1 !! l = Some ((pre ++ [(name, Tensors t)]) ++ rest)).
    { unfold h1. rewrite lookup_insert_eq, <- app_assoc. reflexivity. }
    assert (Hnd1 : NoDup (keys ((pre ++ [(name, Tensors t)]) ++ rest))).
    { rewrite <- app_assoc. unfold keys in *. rewrite fmap_app in *. exact Hnd. }
    destruct (IH (pre ++ [(name, Tensors t)]) (dict_setitem texts name pts)
                 (d ++ e1) h1 Hh1 Hnd1 Hok1) as [IH1 IH2].
    split.
    + intros Hml Hfr Hfit. apply Forall_cons in Hfr as [_ Hfr].
      apply Forall_cons in Hfit as [Hfit1 Hfit]. cbn [snd] in Hfit1.
      rewrite Hstep; [now apply IH1 | | eapply LongTensor3_rows; eauto].
      apply Forall_fmap. exact Hfit1.
    + intros l' texts' d' h' H.
      assert (HL : Forall (fun x => in_int64 x = true) (is_duplicate <$> rows) /\
                   LongTensor3 exs = Ok exs).
      { cbn [setup_datasets_loop] in H. cbn [mbind result_bind] in H.
        rewrite Hrows in H. cbn [mbind result_bind] in H.
        destruct (LongTensor1 overflow (is_duplicate <$> rows)) as [lb'|] eqn:E1;
          [|discriminate].
        apply LongTensor1_Ok in E1 as [-> E1]. split; [exact E1|].
        cbn [mbind result_bind] in H.
        destruct (LongTensor3 exs) as [exs'|] eqn:E; [|discriminate].
        now rewrite (LongTensor3_Ok _ _ E). }
      rewrite (Hstep _ (proj1 HL) (proj2 HL)) in H.
      apply IH2 in H as (-> & e2 & post & -> & Hok2 & -> & Hpost).
      split; [reflexivity|].
      exists (e1 ++ e2), ((name, Tensors t) :: post).
      rewrite app_assoc. split; [reflexivity|]. split; [exact Hok2|].
      split.
      * unfold h1. rewrite insert_insert_eq, <- app_assoc. reflexivity.
      * constructor; [|exact Hpost].
        split; [reflexivity|]. exists rows, exs.
        split; [reflexivity|]. split; [reflexivity|].
        eapply Forall2_impl; [exact Hexs|].
        intros e m. apply example_ok_extend.
Qed.

(** The vocabulary alone, for any dict of datasets. *)
Lemma setup_datasets_loop_vocab (l : loc) (ml : Z) (items : dict dataset) :
  forall (texts : dict (list (list (list string)))) (d : dict Z) (h : heap)
         l' texts' d' h',
    vocab_ok d ->
    setup_datasets_loop l ml items texts d h = Ok ((l', texts', d'), h') ->
    exists ext, d' = d ++ ext /\ vocab_ok d'.
Proof.
  induction items as [|[name ds] rest IH]; intros texts d h l' texts' d' h' Hok H.
  - injection H as <- <- <- <-. exists []. now rewrite app_nil_r.
  - destruct ds as [rows|t]; [|discriminate].
    destruct (index_rows_spec text_to_word_list stopwords_english
                ml rows d [] [] [] Hok) as (e1 & exs & pts & Hrows & Hok1 & _).
    simpl in Hrows.
    cbn [setup_datasets_loop] in H. cbn [mbind result_bind] in H.
    rewrite Hrows in H. cbn [mbind result_bind] in H.
    apply bind_Ok in H as (lb' & _ & H).
    apply bind_Ok in H as (exs' & _ & H).
    apply bind_Ok in H as (t & _ & H).
    apply bind_Ok in H as (d0 & _ & H).
    apply IH in H as (e2 & -> & Hok2); [|exact Hok1].
    exists (e1 ++ e2). now rewrite app_assoc.
Qed.

Lemma setup_datasets_vocab (l : loc) (es ml : Z) (h h' : heap) (l' : loc)
    (texts : dict (list (list (list string)))) (w2i : dict Z) :
  setup_datasets l es ml h = Ok ((l', texts, w2i), h') -> vocab_ok w2i.
Proof.
  unfold setup_datasets. intros H.
  apply bind_Ok in H as (items & _ & H).
  apply setup_datasets_loop_vocab in H as (ext & _ & Hok);
    [exact Hok | apply vocab_ok_init].
Qed.

Lemma setup_datasets_spec (l : loc) (es ml : Z) (h : heap) (d0 : dict dataset) :
  h !! l = Some d0 ->
  NoDup (keys d0) ->
  (0 <= ml -> Forall (fun x => is_frame (snd x) = true) d0 ->
   labels_fit d0 ->
   exists r, setup_datasets l es ml h = Ok r) /\
  (forall l' texts w2i h',
      setup_datasets l es ml h = Ok ((l', texts, w2i), h') ->
      l' = l /\ vocab_ok w2i /\
      exists d', h' = <[l := d']> h /\ Forall2 (dataset_ok ml w2i) d0 d').
Proof.
  intros Hh Hnd. unfold setup_datasets.
  rewrite (deref_Some _ _ _ Hh). cbn [mbind result_bind].
  destruct (setup_datasets_loop_spec l ml d0 [] [] [("<PAD>", 0)] h Hh Hnd vocab_ok_init)
    as [H1 H2].
  split; [exact H1|].
  intros l' texts w2i h' H.
  apply H2 in H as (-> & ext & post & -> & Hok & -> & Hall).
  split; [reflexivity|]. split; [exact Hok|]. exists post. auto.
Qed.

(** Where an entry of the processed dict comes from. *)
Lemma dataset_ok_origin (ml : Z) (w2i : dict Z) (d0 d' : dict dataset)
    (name : string) (t : TensorDataset) :
  NoDup (keys d0) ->
  Forall2 (dataset_ok ml w2i) d0 d' ->
  dict_get d' name = Some (Tensors t) ->
  exists rows,
    dict_get d0 name = Some (Frame rows) /\
    labels t = is_duplicate <$> rows /\
    Forall2 (example_ok ml w2i) rows (indexed_examples t).
Proof.
  intros Hnd Hall Hget. apply dict_get_Some_elem in Hget.
  apply list_elem_of_lookup_1 in Hget as [k Hk].
  destruct (Forall2_lookup_r _ _ _ _ _ Hall Hk) as ([name0 ds0] & Hk0 & Hok).
  destruct Hok as (Hname & rows & exs & Hds0 & Ht & Hrows). simpl in *.
  subst name0 ds0. injection Ht as ->. exists rows.
  split; [|split; [reflexivity | exact Hrows]].
  apply dict_get_elem_NoDup; [exact Hnd|].
  eapply list_elem_of_lookup_2; eauto.
Qed.

Lemma dataset_ok_keys (ml : Z) (w2i : dict Z) (d0 d' : dict dataset) :
  Forall2 (dataset_ok ml w2i) d0 d' -> keys d' = keys d0.
Proof.
  induction 1 as [|x y d0 d' Hxy _ IH]; [reflexivity|].
  unfold keys in *. rewrite !fmap_cons, IH. f_equal. apply Hxy.
Qed.

End Loop.

(** ** The embedding matrix *)

Lemma broadcast_same (n : nat) (v : list Q) : length v = n -> broadcast n v = Ok v.
Proof. intros H. unfold broadcast. now rewrite H, Nat.eqb_refl. Qed.

Lemma ndarray_setitem_in_range (cols : nat) (E : Embedding) (i : Z) (v : list Q) :
  0 <= i < len E -> length v = cols ->
  ndarray_setitem cols E i v = Ok (<[Z.to_nat i := v]> E).
Proof.
  intros Hi Hv. unfold ndarray_setitem.
  destruct (Z.ltb_spec i 0); [lia|].
  destruct (Z.ltb_spec i 0); [lia|].
  destruct (Z.leb_spec (len E) i); [lia|]. simpl.
  now rewrite broadcast_same.
Qed.

Lemma ndarray_setitem_length (cols : nat) (E E' : Embedding) (i : Z) (v : list Q) :
  ndarray_setitem cols E i v = Ok E' -> length E' = length E.
Proof.
  unfold ndarray_setitem. destruct (_ || _); [discriminate|].
  intros H. apply bind_Ok in H as (row & _ & [= <-]). apply length_insert.
Qed.

Section EmbeddingMatrix.
Variable uniform : Q -> Q -> nat -> nat -> Embedding.

Lemma try_copy_length (cols : nat) (wv : KeyedVectors) (E E' : Embedding)
    (w : string) (i : Z) :
  try_copy cols wv E w i = Ok E' -> length E' = length E.
Proof.
  unfold try_copy, word_vectors_getitem. destruct (wv w) as [v|]; simpl.
  - destruct (ndarray_setitem cols E i v) as [E1|e] eqn:Hset.
    + intros [= <-]. eapply ndarray_setitem_length; eauto.
    + destruct e; congruence.
  - congruence.
Qed.

Lemma embedding_loop_length (cols : nat) (wv : KeyedVectors) (items : dict Z)
    (E E' : Embedding) :
  embedding_loop cols wv items E = Ok E' -> length E' = length E.
Proof.
  revert E. induction items as [|[w i] items IH]; intros E H; simpl in H.
  - congruence.
  - apply bind_Ok in H as (E1 & H1 & H). apply IH in H.
    apply try_copy_length in H1. congruence.
Qed.

(** The matrix has one row more than [word2index] has words. *)
Lemma setup_embedding_matrix_rows (wv : option KeyedVectors) (w2i : dict Z)
    (sz : Z) (E : Embedding) :
  draws_shape uniform ->
  setup_embedding_matrix uniform wv w2i sz = Ok E ->
  len E = len w2i + 1.
Proof.
  intros Hshape. unfold setup_embedding_matrix.
  destruct (sz <? 0); [discriminate|]. intros H.
  apply bind_Ok in H as (E0 & H0 & H).
  apply ndarray_setitem_length in H0.
  destruct (Hshape (-1 # 100)%Q (1 # 100)%Q (length w2i + 1)%nat (Z.to_nat sz)) as [Hrows _].
  assert (length E = length E0).
  { destruct wv as [wv|]; [|congruence].
    eapply embedding_loop_length; eauto. }
  unfold len. lia.
Qed.

End EmbeddingMatrix.

(** ** The vocabulary as a numbering *)

Lemma vocab_ok_position (d : dict Z) (w : string) (i : Z) :
  vocab_ok d ->
  dict_get d w = Some i <-> 0 <= i /\ d !! Z.to_nat i = Some (w, i).
Proof.
  intros Hok. pose proof Hok as (_ & Hval & Hnd). split.
  - intros Hget. pose proof (vocab_ok_bound d w i Hok Hget) as Hb.
    split; [lia|]. apply dict_get_Some_elem in Hget.
    apply list_elem_of_lookup_1 in Hget as [k Hk].
    assert (Hi : (snd <$> d) !! k = Some i) by (rewrite list_lookup_fmap, Hk; reflexivity).
    rewrite Hval, list_lookup_fmap in Hi.
    destruct (seq 0 (length d) !! k) as [j|] eqn:Hj; [|discriminate].
    apply lookup_seq in Hj as [-> _]. injection Hi as <-.
    now rewrite Nat2Z.id.
  - intros [_ Hk]. apply dict_get_elem_NoDup; [exact Hnd|].
    eapply list_elem_of_lookup_2; eauto.
Qed.

Lemma vocab_ok_index2word (d : dict Z) (w : string) (i : Z) :
  vocab_ok d -> dict_get d w = Some i <-> index2word d i = Some w.
Proof.
  intros Hok. rewrite (vocab_ok_position d w i Hok). unfold index2word. split.
  - intros [Hi Hk]. destruct (Z.ltb_spec i 0); [lia|]. now rewrite Hk.
  - destruct (Z.ltb_spec i 0); [discriminate|]. intros Hw. split; [lia|].
    destruct (d !! Z.to_nat i) as [[w' j]|] eqn:Hk; [|discriminate].
    injection Hw as ->.
    assert (Hget : dict_get d w = Some j).
    { apply dict_get_elem_NoDup; [apply Hok|].
      eapply list_elem_of_lookup_2; eauto. }
    apply (vocab_ok_position d w j Hok) in Hget as [Hj Hk'].
    assert (Z.to_nat j = Z.to_nat i) as Heq.
    { apply (NoDup_lookup (fst <$> d) _ _ w); [apply Hok| |];
        unfold dict in *; rewrite list_lookup_fmap.
      - now rewrite Hk'.
      - now rewrite Hk. }
    assert (j = i) as -> by lia. reflexivity.
Qed.

(** ** The vocabulary is the words seen *)

Lemma new_words_app (ws1 ws2 : list string) :
  forall seen,
    new_words seen (ws1 ++ ws2) =
      new_words seen ws1 ++ new_words (seen ++ new_words seen ws1) ws2.
Proof.
  induction ws1 as [|w ws1 IH]; intros seen; simpl.
  - now rewrite app_nil_r.
  - destruct (bool_decide (w ∈ seen)); [apply IH|].
    simpl. rewrite IH, <- app_assoc. reflexivity.
Qed.

Lemma elem_of_new_words (ws : list string) :
  forall seen w, w ∈ new_words seen ws <-> w ∈ ws /\ w ∉ seen.
Proof.
  induction ws as [|w0 ws IH]; intros seen w; simpl.
  - rewrite !elem_of_nil. tauto.
  - destruct (bool_decide_reflect (w0 ∈ seen)) as [Hin|Hnin].
    + rewrite IH, elem_of_cons. split; [tauto|].
      intros [[->|Hw] Hn]; [contradiction | tauto].
    + rewrite !elem_of_cons, IH, not_elem_of_app, list_elem_of_singleton.
      split.
      * intros [->|(Hw & Hn & Hne)]; tauto.
      * intros [[->|Hw] Hn]; [tauto|].
        destruct (decide (w = w0)); tauto.
Qed.

Lemma grows_by_nil (d : dict Z) : grows_by d d [].
Proof. unfold grows_by. simpl. now rewrite app_nil_r. Qed.

Lemma grows_by_app (d d1 d2 : dict Z) (ws1 ws2 : list string) :
  grows_by d d1 ws1 -> grows_by d1 d2 ws2 -> grows_by d d2 (ws1 ++ ws2).
Proof.
  unfold grows_by. intros H1 H2.
  rewrite H2, H1, new_words_app, <- app_assoc. reflexivity.
Qed.

Lemma index_word_grows (d d' : dict Z) (w : string) (i : Z) :
  index_word d w = Ok (d', i) -> grows_by d d' [w].
Proof.
  unfold index_word, grows_by. intros H.
  apply bind_Ok in H as (i' & _ & [= <- _]). simpl.
  destruct (dict_contains d w) eqn:Hc; simpl.
  - apply dict_contains_keys in Hc.
    rewrite (bool_decide_eq_true_2 _ Hc). now rewrite app_nil_r.
  - assert (Hn : w ∉ keys d).
    { intros Hin. apply dict_contains_keys in Hin. congruence. }
    rewrite (bool_decide_eq_false_2 _ Hn).
    rewrite dict_setitem_fresh by now apply dict_get_None.
    unfold keys. now rewrite fmap_app.
Qed.

Lemma index_words_grows (ws : list string) :
  forall (d : dict Z) (acc : list Z) (d' : dict Z) (idxs : list Z),
    index_words d ws acc = Ok (d', idxs) -> grows_by d d' ws.
Proof.
  induction ws as [|w ws IH]; intros d acc d' idxs H.
  - injection H as <- _. apply grows_by_nil.
  - cbn [index_words] in H. apply bind_Ok in H as ([d1 i] & Hw & H).
    apply index_word_grows in Hw. apply IH in H.
    apply (grows_by_app d d1 d' [w] ws Hw H).
Qed.

Section Growth.
Variable text_to_word_list : string -> list string.
Variable stopwords_english : list string.
Variable overflow : exn.

#[local] Abbreviation tokens := (tokens text_to_word_list stopwords_english).
#[local] Abbreviation index_question := (index_question text_to_word_list stopwords_english).
#[local] Abbreviation index_columns := (index_columns text_to_word_list stopwords_english).
#[local] Abbreviation index_rows := (index_rows text_to_word_list stopwords_english).
#[local] Abbreviation setup_datasets_loop :=
  (setup_datasets_loop text_to_word_list stopwords_english overflow).
#[local] Abbreviation setup_datasets :=
  (setup_datasets text_to_word_list stopwords_english overflow).
#[local] Abbreviation row_tokens := (row_tokens text_to_word_list stopwords_english).
#[local] Abbreviation frame_tokens := (frame_tokens text_to_word_list stopwords_english).
#[local] Abbreviation all_tokens := (all_tokens text_to_word_list stopwords_english).

Lemma index_question_grows (ml : Z) (d d' : dict Z) (q : string)
    (r : list Z * list string) :
  index_question ml d q = Ok (d', r) -> grows_by d d' (tokens q).
Proof.
  unfold index_question. fold (tokens q). intros H.
  apply bind_Ok in H as ([d1 idxs] & Hidx & H).
  apply index_words_grows in Hidx.
  destruct ((if len idxs <? ml then len idxs else ml) <? ml);
    injection H as <- _; exact Hidx.
Qed.

Lemma index_columns_grows (ml : Z) (cols : list (example -> string)) (e : example) :
  forall d m p d' r,
    index_columns ml cols e d m p = Ok (d', r) ->
    grows_by d d' (concat ((fun column => tokens (column e)) <$> cols)).
Proof.
  induction cols as [|col cols IH]; intros d m p d' r H.
  - injection H as <- _. apply grows_by_nil.
  - cbn [index_columns] in H. apply bind_Ok in H as ([d1 [s ws]] & Hq & H).
    apply index_question_grows in Hq. apply IH in H.
    rewrite fmap_cons. cbn [concat]. eapply grows_by_app; eauto.
Qed.

Lemma index_rows_grows (ml : Z) (rows : list example) :
  forall d lb ie pt d' r,
    index_rows ml rows d lb ie pt = Ok (d', r) ->
    grows_by d d' (frame_tokens rows).
Proof.
  induction rows as [|e rows IH]; intros d lb ie pt d' r H.
  - injection H as <- _. apply grows_by_nil.
  - cbn [index_rows] in H. apply bind_Ok in H as ([d1 [m p]] & Hc & H).
    apply index_columns_grows in Hc. apply IH in H.
    unfold frame_tokens. rewrite fmap_cons. cbn [concat].
    eapply grows_by_app; eauto.
Qed.

Lemma setup_datasets_loop_grows (l : loc) (ml : Z) (items : dict dataset) :
  forall texts d h l' texts' d' h',
    setup_datasets_loop l ml items texts d h = Ok ((l', texts', d'), h') ->
    grows_by d d' (all_tokens items).
Proof.
  induction items as [|[n ds] rest IH]; intros texts d h l' texts' d' h' H.
  - injection H as _ _ <- _. apply grows_by_nil.
  - destruct ds as [rows|t]; [|discriminate].
    cbn [setup_datasets_loop] in H. cbn [mbind result_bind] in H.
    apply bind_Ok in H as ([d1 [[lb ie] pt]] & Hrows & H).
    apply index_rows_grows in Hrows.
    apply bind_Ok in H as (lb' & _ & H).
    apply bind_Ok in H as (ie' & _ & H).
    apply bind_Ok in H as (t & _ & H).
    apply bind_Ok in H as (dd & _ & H).
    apply IH in H. unfold all_tokens. rewrite fmap_cons. cbn [concat snd].
    eapply grows_by_app; eauto.
Qed.

(** The keys of the returned [word2index]: the padding word, then the
    distinct tokens in the order of their first occurrence. *)
Lemma setup_datasets_keys (l : loc) (es ml : Z) (h : heap)
    (d0 : dict dataset) (l' : loc) (texts : dict (list (list (list string))))
    (w2i : dict Z) (h' : heap) :
  h !! l = Some d0 ->
  setup_datasets l es ml h = Ok ((l', texts, w2i), h') ->
  keys w2i = "<PAD>" :: new_words ["<PAD>"] (all_tokens d0).
Proof.
  intros Hh Hrun. unfold setup_datasets in Hrun.
  rewrite (deref_Some _ _ _ Hh) in Hrun. cbn [mbind result_bind] in Hrun.
  apply setup_datasets_loop_grows in Hrun. exact Hrun.
Qed.

End Growth.

(** ** The claims about [setup_datasets] *)


Section SetupDatasetsClaims.
Variable text_to_word_list : string -> list string.
Variable stopwords_english : list string.
Variable overflow : exn.

#[local] Abbreviation tokens := (tokens text_to_word_list stopwords_english).
#[local] Abbreviation example_ok := (example_ok text_to_word_list stopwords_english).
#[local] Abbreviation dataset_ok := (dataset_ok text_to_word_list stopwords_english).
#[local] Abbreviation all_tokens := (all_tokens text_to_word_list stopwords_english).
#[local] Abbreviation setup_datasets :=
  (setup_datasets text_to_word_list stopwords_english overflow).


(** C9: on a dict of frames whose labels are 64-bit integers,
    [setup_datasets] succeeds and returns the very reference it was given;
    in the heap only the object behind that reference has changed; the dict
    has the same keys in the same order, and under each key the frame has
    been replaced by the tensors of its indexed examples and its labels.
    Whenever the function returns, on any input, it has returned the
    reference it was given and changed the heap at that reference only. *)
Theorem setup_datasets_in_place (l : loc) (es ml : Z) (h : heap) (d0 : dict dataset) :
  h !! l = Some d0 ->
  NoDup (keys d0) ->
  (forall l' texts w2i h',
      setup_datasets l es ml h = Ok ((l', texts, w2i), h') ->
      l' = l /\
      exists d', h' = <[l := d']> h /\ keys d' = keys d0 /\
                 Forall2 (dataset_ok ml w2i) d0 d') /\
  (Forall (fun x => is_frame (snd x) = true) d0 ->
  labels_fit d0 ->
  0 <= ml ->
  exists texts w2i d',
    setup_datasets l es ml h = Ok ((l, texts, w2i), <[l := d']> h) /\
    keys d' = keys d0 /\
    Forall2 (dataset_ok ml w2i) d0 d' /\
    (forall name rows, dict_get d0 name = Some (Frame rows) ->
       exists examples,
         dict_get d' name =
           Some (Tensors (mkTensorDataset examples (is_duplicate <$> rows))) /\
         Forall2 (example_ok ml w2i) rows examples)).
Proof.
  intros Hh Hnd.
  destruct (setup_datasets_spec text_to_word_list stopwords_english overflow
              l es ml h d0 Hh Hnd) as [H1 H2].
  split.
  { intros l' texts w2i h' Hrun.
    destruct (H2 _ _ _ _ Hrun) as (-> & Hok & d' & -> & Hall).
    split; [reflexivity|]. exists d'. split; [reflexivity|].
    split; [|exact Hall]. exact (dataset_ok_keys _ _ _ _ _ _ Hall). }
  intros Hfr Hfit Hml.
  destruct (H1 Hml Hfr Hfit) as ([[[l' texts] w2i] h'] & Hrun).
  destruct (H2 _ _ _ _ Hrun) as (-> & Hok & d' & -> & Hall).
  exists texts, w2i, d'. split; [exact Hrun|].
  pose proof (dataset_ok_keys _ _ _ _ _ _ Hall) as Hkeys.
  split; [exact Hkeys|]. split; [exact Hall|].
  intros name rows Hget. apply dict_get_Some_elem in Hget.
  apply list_elem_of_lookup_1 in Hget as [k Hk].
  destruct (Forall2_lookup_l _ _ _ _ _ Hall Hk) as ([name' ds'] & Hk' & Hok').
  destruct Hok' as (Hname & rows' & exs & Hfrm & Hds' & Hrows). simpl in *.
  injection Hfrm as <-. subst name' ds'. exists exs. split; [|exact Hrows].
  apply dict_get_elem_NoDup; [now rewrite Hkeys|].
  eapply list_elem_of_lookup_2; eauto.
Qed.

(** C3: with a non-negative [max_length], every token index sequence stored
    by [setup_datasets] has exactly [max_length] entries: it consists of the
    indices of the question's tokens, cut after [max_length] entries when
    there are more and followed by zeros up to [max_length] entries when
    there are fewer. *)
Theorem token_sequences_fit (l : loc) (es ml : Z) (h : heap) (d0 : dict dataset)
    (l' : loc) (texts : dict (list (list (list string)))) (w2i : dict Z)
    (h' : heap) (d' : dict dataset)
    (name : string) (t : TensorDataset) (i j : nat) (e : list (list Z))
    (s : list Z) :
  0 <= ml ->
  h !! l = Some d0 ->
  NoDup (keys d0) ->
  setup_datasets l es ml h = Ok ((l', texts, w2i), h') ->
  h' !! l' = Some d' ->
  dict_get d' name = Some (Tensors t) ->
  indexed_examples t !! i = Some e ->
  e !! j = Some s ->
  len s = ml /\
  exists rows row column idxs,
    dict_get d0 name = Some (Frame rows) /\
    rows !! i = Some row /\
    question_cols !! j = Some column /\
    encodes w2i (tokens (column row)) idxs /\
    s = take (Z.to_nat ml) idxs ++ replicate (Z.to_nat ml - length idxs) 0 /\
    (len idxs <= ml -> s = idxs ++ replicate (Z.to_nat ml - length idxs) 0) /\
    (ml <= len idxs -> s = take (Z.to_nat ml) idxs).
Proof.
  intros Hml Hh Hnd Hrun Hh' Hget Hi Hj.
  destruct (setup_datasets_spec text_to_word_list stopwords_english overflow
              l es ml h d0 Hh Hnd) as [_ H2].
  destruct (H2 _ _ _ _ Hrun) as (-> & Hok & d1 & -> & Hall).
  rewrite lookup_insert_eq in Hh'. injection Hh' as ->.
  destruct (dataset_ok_origin _ _ _ _ _ _ _ _ Hnd Hall Hget)
    as (rows & Hrows & _ & Hexs).
  destruct (Forall2_lookup_r _ _ _ _ _ Hexs Hi) as (row & Hrow & Hex).
  destruct (Forall2_lookup_r _ _ _ _ _ Hex Hj) as (col & Hcol & idxs & Henc & ->).
  split.
  - unfold len. rewrite length_truncate_pad by lia. lia.
  - exists rows, row, col, idxs. repeat (split; [assumption|]).
    split; [now apply truncate_pad_nonneg|].
    split; [apply truncate_pad_short | intros; apply truncate_pad_long; lia].
Qed.

(** C8: every token index stored in a tensor by [setup_datasets] lies in
    [0, len(word2index)), and the embedding matrix built from the same
    [word2index] has [len(word2index) + 1] rows, so the index addresses one
    of its rows. *)
Theorem token_indices_address_rows (l : loc) (es ml : Z) (h : heap)
    (d0 : dict dataset) (l' : loc) (texts : dict (list (list (list string))))
    (w2i : dict Z) (h' : heap) (d' : dict dataset)
    (name : string) (t : TensorDataset) (e : list (list Z)) (s : list Z) (x : Z)
    (uniform : Q -> Q -> nat -> nat -> Embedding) (wv : option KeyedVectors) (sz : Z)
    (E : Embedding) :
  h !! l = Some d0 ->
  NoDup (keys d0) ->
  setup_datasets l es ml h = Ok ((l', texts, w2i), h') ->
  h' !! l' = Some d' ->
  dict_get d' name = Some (Tensors t) ->
  e ∈ indexed_examples t -> s ∈ e -> x ∈ s ->
  draws_shape uniform ->
  setup_embedding_matrix uniform wv w2i sz = Ok E ->
  0 <= x < len w2i /\
  len E = len w2i + 1 /\
  is_Some (E !! Z.to_nat x).
Proof.
  intros Hh Hnd Hrun Hh' Hget He Hs Hx Hshape HE.
  destruct (setup_datasets_spec text_to_word_list stopwords_english overflow
              l es ml h d0 Hh Hnd) as [_ H2].
  destruct (H2 _ _ _ _ Hrun) as (-> & Hok & d1 & -> & Hall).
  rewrite lookup_insert_eq in Hh'. injection Hh' as ->.
  destruct (dataset_ok_origin _ _ _ _ _ _ _ _ Hnd Hall Hget)
    as (rows & Hrows & _ & Hexs).
  apply list_elem_of_lookup_1 in He as [i Hi].
  apply list_elem_of_lookup_1 in Hs as [j Hj].
  destruct (Forall2_lookup_r _ _ _ _ _ Hexs Hi) as (row & Hrow & Hex).
  destruct (Forall2_lookup_r _ _ _ _ _ Hex Hj) as (col & Hcol & idxs & Henc & ->).
  assert (Hb : 0 <= x < len w2i).
  { apply elem_of_truncate_pad in Hx as [Hx| ->].
    - pose proof (encodes_bound _ _ _ Hok Henc) as Hall'.
      rewrite Forall_forall in Hall'. now apply Hall'.
    - pose proof (vocab_ok_bound _ _ _ Hok (vocab_ok_PAD _ Hok)). lia. }
  pose proof (setup_embedding_matrix_rows uniform wv w2i sz E Hshape HE) as Hrows'.
  split; [exact Hb|]. split; [exact Hrows'|].
  apply lookup_lt_is_Some. unfold len in *. lia.
Qed.

End SetupDatasetsClaims.

Lemma sample_run :
  exists texts,
    setup_datasets split_spaces sample_stops sample_overflow 1%nat 300 4 sample_heap =
      Ok ((1%nat, texts, sample_word2index), <[1%nat := sample_tensors]> sample_heap).
Proof. eexists. vm_compute. reflexivity. Qed.

Lemma constant_draw_shape : draws_shape constant_draw.
Proof.
  intros low high r c. unfold constant_draw. split; [apply length_replicate|].
  apply Forall_replicate, length_replicate.
Qed.

Lemma constant_draw_in_range : draws_in_range constant_draw.
Proof.
  intros low high r c Hlt. unfold constant_draw.
  apply Forall_replicate, Forall_replicate.
  rewrite Qred_correct. split; lra.
Qed.


Lemma setup_datasets_in_place_witness :
  exists texts w2i d',
    setup_datasets split_spaces sample_stops sample_overflow 1%nat 300 4 sample_heap =
      Ok ((1%nat, texts, w2i), <[1%nat := d']> sample_heap) /\
    keys d' = ["train"; "test"].
Proof.
  destruct (setup_datasets_in_place split_spaces sample_stops sample_overflow 1%nat 300 4
              sample_heap sample_frames) as [_ H].
  - reflexivity.
  - compute_done.
  - destruct H as (texts & w2i & d' & H1 & H2 & _).
    + compute_done.
    + repeat constructor.
    + lia.
    + eauto.
Defined.

Lemma token_sequences_fit_witness :
  len [1; 3; 4; 0] = 4 /\ len [4; 1; 3; 4] = 4.
Proof.
  split.
  - refine (proj1 (token_sequences_fit split_spaces sample_stops sample_overflow 1%nat 300 4
              sample_heap sample_frames 1%nat _ sample_word2index
              (<[1%nat := sample_tensors]> sample_heap) sample_tensors
              "train" _ 0 1 _ _ _ _ _ _ _ _ _ _)).
    + lia.
    + reflexivity.
    + compute_done.
    + vm_compute. reflexivity.
    + reflexivity.
    + reflexivity.
    + reflexivity.
    + reflexivity.
  - refine (proj1 (token_sequences_fit split_spaces sample_stops sample_overflow 1%nat 300 4
              sample_heap sample_frames 1%nat _ sample_word2index
              (<[1%nat := sample_tensors]> sample_heap) sample_tensors
              "train" _ 1 1 _ _ _ _ _ _ _ _ _ _)).
    + lia.
    + reflexivity.
    + compute_done.
    + vm_compute. reflexivity.
    + reflexivity.
    + reflexivity.
    + reflexivity.
    + reflexivity.
Defined.

Lemma token_indices_address_rows_witness :
  0 <= 4 < len sample_word2index /\
  len sample_embeddings = len sample_word2index + 1 /\
  is_Some (sample_embeddings !! Z.to_nat 4).
Proof.
  refine (token_indices_address_rows split_spaces sample_stops sample_overflow 1%nat 300 4
            sample_heap sample_frames 1%nat _ sample_word2index
            (<[1%nat := sample_tensors]> sample_heap) sample_tensors
            "train" _ [[1; 2; 0; 0]; [1; 3; 4; 0]] [1; 3; 4; 0] 4
            constant_draw (Some (single_vector "iron" [1%Q; 2%Q])) 2
            sample_embeddings _ _ _ _ _ _ _ _ _ _).
  - reflexivity.
  - compute_done.
  - vm_compute. reflexivity.
  - reflexivity.
  - reflexivity.
  - compute_done.
  - compute_done.
  - compute_done.
  - exact constant_draw_shape.
  - vm_compute. reflexivity.
Defined.

(** ** Copying the pretrained vectors *)

Lemma try_copy_hit (cols : nat) (wv : KeyedVectors) (E : Embedding)
    (w : string) (i : Z) (v : list Q) :
  wv w = Some v -> 0 <= i < len E -> length v = cols ->
  try_copy cols wv E w i = Ok (<[Z.to_nat i := v]> E).
Proof.
  intros Hw Hi Hv. unfold try_copy, word_vectors_getitem. rewrite Hw. simpl.
  now rewrite ndarray_setitem_in_range.
Qed.

Lemma try_copy_miss (cols : nat) (wv : KeyedVectors) (E : Embedding)
    (w : string) (i : Z) :
  wv w = None -> try_copy cols wv E w i = Ok E.
Proof.
  intros Hw. unfold try_copy, word_vectors_getitem. now rewrite Hw.
Qed.

Lemma embedding_loop_spec (cols : nat) (wv : KeyedVectors) (items : dict Z) :
  forall E : Embedding,
    Forall (fun x => 0 <= snd x < len E) items ->
    NoDup (snd <$> items) ->
    (forall w v, wv w = Some v -> length v = cols) ->
    exists E',
      embedding_loop cols wv items E = Ok E' /\
      length E' = length E /\
      (forall w i v, (w, i) ∈ items -> wv w = Some v ->
                     E' !! Z.to_nat i = Some v) /\
      (forall k, (forall w i, (w, i) ∈ items -> Z.to_nat i = k -> wv w = None) ->
                 E' !! k = E !! k).
Proof.
  induction items as [|[w i] items IH]; intros E Hrange Hnd Hdim.
  - exists E. split; [reflexivity|]. split; [reflexivity|].
    split; [|reflexivity]. intros w i v Hin. apply elem_of_nil in Hin as [].
  - apply Forall_cons in Hrange as [Hi Hrange]. simpl in Hi.
    rewrite fmap_cons in Hnd. apply NoDup_cons in Hnd as [Hfresh Hnd].
    simpl in Hfresh.
    assert (Hstep : exists E1,
      try_copy cols wv E w i = Ok E1 /\ length E1 = length E /\
      (forall v, wv w = Some v -> E1 !! Z.to_nat i = Some v) /\
      (forall k, (Z.to_nat i = k -> wv w = None) -> E1 !! k = E !! k)).
    { destruct (wv w) as [v|] eqn:Hw.
      - exists (<[Z.to_nat i := v]> E).
        split; [apply try_copy_hit; eauto|].
        split; [apply length_insert|]. split.
        + intros v' [= <-]. apply list_lookup_insert_eq. unfold len in Hi. lia.
        + intros k Hk. apply list_lookup_insert_ne. intros Heq.
          specialize (Hk Heq). discriminate.
      - exists E. split; [now apply try_copy_miss|].
        split; [reflexivity|]. split; [discriminate | reflexivity]. }
    destruct Hstep as (E1 & Hcopy & Hlen1 & Hhit1 & Hmiss1).
    destruct (IH E1) as (E' & Hloop & Hlen & Hhit & Hmiss).
    { eapply Forall_impl; [exact Hrange|]. unfold len. rewrite Hlen1. auto. }
    { exact Hnd. }
    { exact Hdim. }
    exists E'. split; [simpl; rewrite Hcopy; exact Hloop|].
    split; [congruence|]. split.
    + intros w' i' v Hin Hw'. apply elem_of_cons in Hin as [[= -> ->]|Hin].
      * rewrite Hmiss; [now apply Hhit1|].
        intros w'' i'' Hin'' Heq. exfalso. apply Hfresh.
        rewrite Forall_forall in Hrange. pose proof (Hrange _ Hin'') as Hr.
        simpl in Hr. assert (i'' = i) as <- by lia.
        now apply (list_elem_of_fmap_2 snd) in Hin''.
      * eapply Hhit; eauto.
    + intros k Hk. rewrite Hmiss.
      * apply Hmiss1. intros Heq. apply (Hk w i); [apply list_elem_of_here | exact Heq].
      * intros w' i' Hin Heq. apply (Hk w' i'); [now apply list_elem_of_further | exact Heq].
Qed.

Section EmbeddingMatrixRows.
Variable uniform : Q -> Q -> nat -> nat -> Embedding.

Lemma zero_padding_row (w2i : dict Z) (sz : Z) :
  draws_shape uniform ->
  ndarray_setitem (Z.to_nat sz)
    (uniform (-1 # 100)%Q (1 # 100)%Q (length w2i + 1)%nat (Z.to_nat sz)) 0 [0%Q]
  = Ok (initial_matrix uniform w2i sz).
Proof.
  intros Hshape.
  destruct (Hshape (-1 # 100)%Q (1 # 100)%Q (length w2i + 1)%nat (Z.to_nat sz))
    as [Hrows _].
  assert (Hle : (Z.of_nat (length w2i + 1) <=? 0) = false) by (apply Z.leb_gt; lia).
  unfold ndarray_setitem, initial_matrix, len. rewrite Hrows.
  cbn [Z.ltb Z.compare orb]. rewrite Hle.
  unfold broadcast. cbn [length].
  destruct (Nat.eqb_spec 1 (Z.to_nat sz)) as [<-|_]; reflexivity.
Qed.

Lemma setup_embedding_matrix_spec (wv : option KeyedVectors) (w2i : dict Z) (sz : Z) :
  draws_shape uniform ->
  0 <= sz ->
  Forall (fun x => 0 <= snd x <= len w2i) w2i ->
  NoDup (snd <$> w2i) ->
  (forall w v, pretrained wv w = Some v -> len v = sz) ->
  exists E,
    setup_embedding_matrix uniform wv w2i sz = Ok E /\
    length E = (length w2i + 1)%nat /\
    (forall w i v, (w, i) ∈ w2i -> pretrained wv w = Some v ->
                   E !! Z.to_nat i = Some v) /\
    (forall k, (forall w i, (w, i) ∈ w2i -> Z.to_nat i = k -> pretrained wv w = None) ->
               E !! k = initial_matrix uniform w2i sz !! k).
Proof.
  intros Hshape Hsz Hrange Hnd Hdim.
  destruct (Hshape (-1 # 100)%Q (1 # 100)%Q (length w2i + 1)%nat (Z.to_nat sz)) as [Hrows _].
  assert (Hlen0 : length (initial_matrix uniform w2i sz) = (length w2i + 1)%nat)
    by (unfold initial_matrix; now rewrite length_insert).
  unfold setup_embedding_matrix.
  destruct (Z.ltb_spec sz 0); [lia|].
  rewrite zero_padding_row by exact Hshape. cbn [mbind result_bind].
  destruct wv as [store|].
  - destruct (embedding_loop_spec (Z.to_nat sz) store w2i (initial_matrix uniform w2i sz))
      as (E & Hloop & Hlen & Hhit & Hmiss).
    + eapply Forall_impl; [exact Hrange|]. intros x Hx. unfold len in *.
      rewrite Hlen0. lia.
    + exact Hnd.
    + intros w v Hw. specialize (Hdim w v Hw). unfold len in Hdim. lia.
    + exists E. split; [exact Hloop|]. split; [congruence|]. split; assumption.
  - exists (initial_matrix uniform w2i sz).
    split; [reflexivity|]. split; [exact Hlen0|].
    split; [intros; discriminate | reflexivity].
Qed.

(** C4: when the indices of [word2index] are distinct row numbers of the
    matrix and the pretrained vectors have [embeddings_size] entries,
    [setup_embedding_matrix] raises nothing and returns a matrix with
    [len(word2index) + 1] rows in which, for the words with a non-zero
    index, the row of a word found in the store is its pretrained vector and
    the row of a word not found is its row of the one draw
    [np.random.uniform(-0.01, 0.01, ...)] (entries from -0.01 up to 0.01);
    row 0 is all zeros when no word of index 0 is found in the store. *)
Theorem embedding_matrix_rows (wv : option KeyedVectors) (w2i : dict Z) (sz : Z) :
  draws_shape uniform ->
  draws_in_range uniform ->
  0 <= sz ->
  Forall (fun x => 0 <= snd x <= len w2i) w2i ->
  NoDup (snd <$> w2i) ->
  (forall w v, pretrained wv w = Some v -> len v = sz) ->
  exists E,
    setup_embedding_matrix uniform wv w2i sz = Ok E /\
    len E = len w2i + 1 /\
    (forall w i v, (w, i) ∈ w2i -> i <> 0 -> pretrained wv w = Some v ->
                   E !! Z.to_nat i = Some v) /\
    (forall w i, (w, i) ∈ w2i -> i <> 0 -> pretrained wv w = None ->
       exists row,
         E !! Z.to_nat i = Some row /\
         uniform (-1 # 100)%Q (1 # 100)%Q (length w2i + 1)%nat (Z.to_nat sz)
           !! Z.to_nat i = Some row /\
         len row = sz /\ Forall small row) /\
    ((forall w, (w, 0) ∈ w2i -> pretrained wv w = None) ->
     E !! 0%nat = Some (replicate (Z.to_nat sz) 0%Q)).
Proof.
  intros Hshape Hsmall Hsz Hrange Hnd Hdim.
  destruct (setup_embedding_matrix_spec wv w2i sz Hshape Hsz Hrange Hnd Hdim)
    as (E & Hrun & Hlen & Hhit & Hmiss).
  assert (Hlt : (-1 # 100 < 1 # 100)%Q) by reflexivity.
  destruct (Hshape (-1 # 100)%Q (1 # 100)%Q (length w2i + 1)%nat (Z.to_nat sz)) as [Hrows Hcols].
  rewrite Forall_forall in Hrange.
  exists E. split; [exact Hrun|]. split; [unfold len; lia|].
  split; [intros w i v Hin _; now apply Hhit|]. split.
  - intros w i Hin Hi Hw. pose proof (Hrange _ Hin) as Hr. simpl in Hr.
    assert (Hk : (Z.to_nat i < length (uniform (-1 # 100)%Q (1 # 100)%Q
                                               (length w2i + 1)%nat (Z.to_nat sz)))%nat)
      by (unfold len in Hr; lia).
    apply lookup_lt_is_Some in Hk as [row Hrow]. exists row.
    split; [|split; [exact Hrow|split]].
    + rewrite Hmiss.
      * unfold initial_matrix. rewrite list_lookup_insert_ne by lia. exact Hrow.
      * intros w' i' Hin' Heq. pose proof (Hrange _ Hin') as Hr'. simpl in Hr'.
        assert (i' = i) as -> by lia.
        pose proof (NoDup_snd_inj w2i (w', i) (w, i) Hnd Hin' Hin eq_refl) as Heq'.
        injection Heq' as ->. exact Hw.
    + rewrite Forall_forall in Hcols. unfold len.
      rewrite (Hcols row) by (eapply list_elem_of_lookup_2; eauto). lia.
    + specialize (Hsmall _ _ (length w2i + 1)%nat (Z.to_nat sz) Hlt).
      rewrite Forall_forall in Hsmall. apply Hsmall.
      eapply list_elem_of_lookup_2; eauto.
  - intros Hzero. rewrite Hmiss.
    + unfold initial_matrix. apply list_lookup_insert_eq. lia.
    + intros w i Hin Heq. pose proof (Hrange _ Hin) as Hr. simpl in Hr.
      assert (i = 0) as -> by lia. now apply Hzero.
Qed.

End EmbeddingMatrixRows.

Lemma embedding_matrix_rows_witness :
  exists E,
    setup_embedding_matrix constant_draw (Some (single_vector "iron" [1%Q; 2%Q]))
                           sample_word2index 2 = Ok E /\
    E !! 4%nat = Some [1%Q; 2%Q] /\
    E !! 0%nat = Some [0%Q; 0%Q].
Proof.
  destruct (embedding_matrix_rows constant_draw
              (Some (single_vector "iron" [1%Q; 2%Q])) sample_word2index 2)
    as (E & Hrun & _ & Hhit & _ & Hzero).
  - exact constant_draw_shape.
  - exact constant_draw_in_range.
  - lia.
  - compute_done.
  - compute_done.
  - intros w v. simpl. unfold single_vector.
    destruct (String.eqb w "iron"); [|discriminate]. now intros [= <-].
  - exists E. split; [exact Hrun|]. split.
    + apply (Hhit "iron" 4); [compute_done | discriminate | reflexivity].
    + apply Hzero. intros w Hin.
      assert (w = "<PAD>") as ->.
      { unfold sample_word2index in Hin.
        repeat (apply elem_of_cons in Hin as [Hin|Hin]; [congruence|]).
        apply elem_of_nil in Hin as []. }
      reflexivity.
Defined.

(** The claimed absence of errors fails on two inputs: an index beyond the
    last row raises [IndexError], and a pretrained vector whose dimension is
    not [embeddings_size] raises [ValueError]; neither is caught by the
    [except] clause. *)
Lemma embedding_matrix_claim_fails :
  setup_embedding_matrix constant_draw (Some (single_vector "a" [1%Q]))
                         [("<PAD>", 0); ("a", 5)] 1
    = Raise IndexError /\
  setup_embedding_matrix constant_draw (Some (single_vector "iron" [1%Q; 2%Q]))
                         sample_word2index 3
    = Raise ValueError.
Proof. repeat split. Qed.

(** ** [weights_init] on one module *)

Lemma raises_bind_l {A B} (r : result A) (k : A -> result B) :
  raises r = true -> raises (r ≫= k) = true.
Proof. destruct r; [discriminate | reflexivity]. Qed.

Lemma xavier_normal_ready (c : string) (a : dict (option Tensor))
    (cs : list module) (name : string) :
  has_tensor a name 2 = true ->
  xavier_normal_ (Module c a cs) name =
    Ok (Module c (record_init a name XavierNormal) cs).
Proof.
  unfold has_tensor, xavier_normal_, getattr, record_init. cbn [attrs_of].
  destruct (dict_get a name) as [[t|]|]; try discriminate.
  cbn [mbind result_bind setattr].
  intros H. apply Nat.leb_le in H.
  destruct (Nat.ltb_spec (ndim t) 2); [lia | reflexivity].
Qed.

Lemma xavier_normal_unready (c : string) (a : dict (option Tensor))
    (cs : list module) (name : string) :
  has_tensor a name 2 = false ->
  raises (xavier_normal_ (Module c a cs) name) = true.
Proof.
  unfold has_tensor, xavier_normal_, getattr. cbn [attrs_of].
  destruct (dict_get a name) as [[t|]|]; try reflexivity.
  cbn [mbind result_bind].
  intros H. apply Nat.leb_gt in H.
  destruct (Nat.ltb_spec (ndim t) 2); [reflexivity | lia].
Qed.

Lemma constant_ready (c : string) (a : dict (option Tensor))
    (cs : list module) (name : string) (val : Z) :
  has_tensor a name 0 = true ->
  constant_ (Module c a cs) name val =
    Ok (Module c (record_init a name (Constant val)) cs).
Proof.
  unfold has_tensor, constant_, getattr, record_init. simpl.
  destruct (dict_get a name) as [[t|]|]; try discriminate. reflexivity.
Qed.

Lemma constant_unready (c : string) (a : dict (option Tensor))
    (cs : list module) (name : string) (val : Z) :
  has_tensor a name 0 = false ->
  raises (constant_ (Module c a cs) name val) = true.
Proof.
  unfold has_tensor, constant_, getattr. simpl.
  destruct (dict_get a name) as [[t|]|]; try reflexivity. discriminate.
Qed.

Lemma dict_get_record_init_ne (a : dict (option Tensor)) (n1 n2 : string)
    (op : init_op) :
  n1 <> n2 -> dict_get (record_init a n1 op) n2 = dict_get a n2.
Proof.
  intros Hne. unfold record_init.
  destruct (dict_get a n1) as [[t|]|]; try reflexivity.
  now apply dict_get_setitem_ne.
Qed.

Lemma dict_get_record_init_eq (a : dict (option Tensor)) (n : string)
    (op : init_op) (t : Tensor) :
  dict_get a n = Some (Some t) ->
  dict_get (record_init a n op) n = Some (Some (mkTensor (ndim t) (inits t ++ [op]))).
Proof.
  intros H. unfold record_init. rewrite H. apply dict_get_setitem_eq.
Qed.

Lemma has_tensor_record_init_ne (a : dict (option Tensor)) (n1 n2 : string)
    (op : init_op) (k : nat) :
  n1 <> n2 -> has_tensor (record_init a n1 op) n2 k = has_tensor a n2 k.
Proof.
  intros Hne. unfold has_tensor. now rewrite dict_get_record_init_ne.
Qed.

Lemma weights_init_unfold (c : string) (a : dict (option Tensor)) (cs : list module) :
  weights_init (Module c a cs) =
    if is_conv_or_linear c then
      m ← xavier_normal_ (Module c a cs) "weight"; constant_ m "bias" 0
    else if is_attention1 c then
      m ← xavier_normal_ (Module c a cs) "W1"; xavier_normal_ m "W2"
    else Ok (Module c a cs).
Proof.
  unfold weights_init, is_attention1, is_conv_or_linear, str_contains. simpl.
  destruct (str_find c "Conv2d" =? -1); simpl; [|reflexivity].
  destruct (str_find c "Linear" =? -1); simpl; [|reflexivity].
  reflexivity.
Qed.

Lemma weights_init_ready (c : string) (a : dict (option Tensor)) (cs : list module) :
  node_ready c a = true ->
  weights_init (Module c a cs) = Ok (Module c (init_attrs c a) cs).
Proof.
  rewrite weights_init_unfold. unfold node_ready, init_attrs.
  destruct (is_conv_or_linear c); [|destruct (is_attention1 c)].
  - intros [Hw Hb]%andb_prop. rewrite xavier_normal_ready by exact Hw. simpl.
    apply constant_ready. now rewrite has_tensor_record_init_ne.
  - intros [H1 H2]%andb_prop. rewrite xavier_normal_ready by exact H1. simpl.
    apply xavier_normal_ready. now rewrite has_tensor_record_init_ne.
  - reflexivity.
Qed.

Lemma weights_init_unready (c : string) (a : dict (option Tensor)) (cs : list module) :
  node_ready c a = false -> raises (weights_init (Module c a cs)) = true.
Proof.
  rewrite weights_init_unfold. unfold node_ready.
  destruct (is_conv_or_linear c); [|destruct (is_attention1 c)].
  - intros H. destruct (has_tensor a "weight" 2) eqn:Hw.
    + rewrite xavier_normal_ready by exact Hw. simpl.
      apply constant_unready. now rewrite has_tensor_record_init_ne.
    + apply raises_bind_l. now apply xavier_normal_unready.
  - intros H. destruct (has_tensor a "W1" 2) eqn:Hw.
    + rewrite xavier_normal_ready by exact Hw. simpl.
      apply xavier_normal_unready. now rewrite has_tensor_record_init_ne.
    + apply raises_bind_l. now apply xavier_normal_unready.
  - discriminate.
Qed.

(** ** [apply] over the module tree *)

Lemma module_tree_ind (P : module -> Prop) :
  (forall c a cs, Forall P cs -> P (Module c a cs)) -> forall m, P m.
Proof.
  intros H. fix IH 1. intros [c a cs]. apply H.
  induction cs as [|child cs IHcs]; constructor; [apply IH | exact IHcs].
Qed.

Lemma traverse_apply_ready (fn : module -> result module)
    (f : string -> dict (option Tensor) -> dict (option Tensor)) (cs : list module) :
  Forall (fun m => all_ready m = true -> apply fn m = Ok (module_map f m)) cs ->
  forallb all_ready cs = true ->
  traverse (apply fn) cs = Ok (List.map (module_map f) cs).
Proof.
  induction 1 as [|m cs Hm _ IH]; [reflexivity|].
  cbn [forallb]. intros [H1 H2]%andb_prop.
  cbn [traverse List.map]. rewrite (Hm H1). cbn [mbind result_bind].
  rewrite (IH H2). reflexivity.
Qed.

Lemma traverse_apply_unready (fn : module -> result module) (cs : list module) :
  Forall (fun m => all_ready m = false -> raises (apply fn m) = true) cs ->
  forallb all_ready cs = false ->
  raises (traverse (apply fn) cs) = true.
Proof.
  induction 1 as [|m cs Hm _ IH]; [discriminate|].
  cbn [forallb traverse]. intros H.
  destruct (all_ready m) eqn:Hr.
  - destruct (apply fn m); [|reflexivity]. cbn [mbind result_bind].
    apply raises_bind_l, IH, H.
  - apply raises_bind_l, Hm. reflexivity.
Qed.

Lemma apply_weights_init_ready (m : module) :
  all_ready m = true -> apply weights_init m = Ok (module_map init_attrs m).
Proof.
  induction m as [c a cs IH] using module_tree_ind.
  cbn [all_ready]. intros [Hn Hcs]%andb_prop. cbn [apply module_map].
  rewrite (traverse_apply_ready weights_init init_attrs cs IH Hcs).
  cbn [mbind result_bind]. now apply weights_init_ready.
Qed.

Lemma apply_weights_init_unready (m : module) :
  all_ready m = false -> raises (apply weights_init m) = true.
Proof.
  induction m as [c a cs IH] using module_tree_ind.
  cbn [all_ready apply]. intros H.
  destruct (forallb all_ready cs) eqn:Hcs.
  - assert (Hall : Forall (fun m => all_ready m = true ->
               apply weights_init m = Ok (module_map init_attrs m)) cs).
    { apply Forall_forall. intros m _. apply apply_weights_init_ready. }
    rewrite (traverse_apply_ready weights_init init_attrs cs Hall Hcs).
    cbn [mbind result_bind]. apply weights_init_unready.
    rewrite andb_true_r in H. exact H.
  - apply raises_bind_l. now apply traverse_apply_unready.
Qed.

Lemma apply_weights_init_Ok (m m' : module) :
  apply weights_init m = Ok m' ->
  all_ready m = true /\ m' = module_map init_attrs m.
Proof.
  intros H. destruct (all_ready m) eqn:Hr.
  - rewrite (apply_weights_init_ready m Hr) in H. split; congruence.
  - apply apply_weights_init_unready in Hr. rewrite H in Hr. discriminate.
Qed.

Lemma submodule_module_map (f : string -> dict (option Tensor) -> dict (option Tensor))
    (path : list nat) :
  forall m, submodule (module_map f m) path = module_map f <$> submodule m path.
Proof.
  induction path as [|i path IH]; intros [c a cs]; [reflexivity|].
  cbn [submodule module_map children_of].
  change (List.map (module_map f) cs) with (module_map f <$> cs).
  rewrite list_lookup_fmap. destruct (cs !! i) as [child|]; [apply IH | reflexivity].
Qed.

Lemma all_ready_submodule (path : list nat) :
  forall m n, all_ready m = true -> submodule m path = Some n -> all_ready n = true.
Proof.
  induction path as [|i path IH]; intros [c a cs] n Hr H.
  - now injection H as <-.
  - cbn [submodule children_of] in H.
    destruct (cs !! i) as [child|] eqn:Hi; [|discriminate].
    apply (IH child n); [|exact H].
    cbn [all_ready] in Hr. apply andb_prop in Hr as [_ Hcs].
    rewrite forallb_forall in Hcs. apply Hcs.
    apply list_elem_of_In. eapply list_elem_of_lookup_2; eauto.
Qed.

Lemma init_attrs_conv_or_linear (c : string) (a : dict (option Tensor)) :
  is_conv_or_linear c = true -> node_ready c a = true ->
  exists w b,
    dict_get a "weight" = Some (Some w) /\
    dict_get a "bias" = Some (Some b) /\
    dict_get (init_attrs c a) "weight" =
      Some (Some (mkTensor (ndim w) (inits w ++ [XavierNormal]))) /\
    dict_get (init_attrs c a) "bias" =
      Some (Some (mkTensor (ndim b) (inits b ++ [Constant 0]))) /\
    (forall k, k <> "weight" -> k <> "bias" ->
               dict_get (init_attrs c a) k = dict_get a k).
Proof.
  intros Hc. unfold node_ready, init_attrs. rewrite Hc.
  intros [Hw Hb]%andb_prop. unfold has_tensor in Hw, Hb.
  destruct (dict_get a "weight") as [[w|]|] eqn:Ew; try discriminate.
  destruct (dict_get a "bias") as [[b|]|] eqn:Eb; try discriminate.
  exists w, b. split; [reflexivity|]. split; [reflexivity|]. split; [|split].
  - rewrite dict_get_record_init_ne by discriminate.
    now apply dict_get_record_init_eq.
  - apply dict_get_record_init_eq.
    now rewrite dict_get_record_init_ne by discriminate.
  - intros k Hk1 Hk2. now rewrite !dict_get_record_init_ne by congruence.
Qed.

Lemma init_attrs_attention1 (c : string) (a : dict (option Tensor)) :
  is_attention1 c = true -> node_ready c a = true ->
  exists w1 w2,
    dict_get a "W1" = Some (Some w1) /\
    dict_get a "W2" = Some (Some w2) /\
    dict_get (init_attrs c a) "W1" =
      Some (Some (mkTensor (ndim w1) (inits w1 ++ [XavierNormal]))) /\
    dict_get (init_attrs c a) "W2" =
      Some (Some (mkTensor (ndim w2) (inits w2 ++ [XavierNormal]))) /\
    (forall k, k <> "W1" -> k <> "W2" ->
               dict_get (init_attrs c a) k = dict_get a k).
Proof.
  intros Hc. assert (Hn : is_conv_or_linear c = false).
  { unfold is_attention1 in Hc. apply andb_prop in Hc as [Hc _].
    now apply negb_true_iff in Hc. }
  unfold node_ready, init_attrs. rewrite Hn, Hc.
  intros [H1 H2]%andb_prop. unfold has_tensor in H1, H2.
  destruct (dict_get a "W1") as [[w1|]|] eqn:E1; try discriminate.
  destruct (dict_get a "W2") as [[w2|]|] eqn:E2; try discriminate.
  exists w1, w2. split; [reflexivity|]. split; [reflexivity|]. split; [|split].
  - rewrite dict_get_record_init_ne by discriminate.
    now apply dict_get_record_init_eq.
  - apply dict_get_record_init_eq.
    now rewrite dict_get_record_init_ne by discriminate.
  - intros k Hk1 Hk2. now rewrite !dict_get_record_init_ne by congruence.
Qed.

Lemma setup_model_modules (init : constructors)
    (Model_modules : Embedding -> list CNNLayer -> bool -> Z -> module)
    (emb : Embedding) (cfg : config) (model : Model) :
  setup_model init Model_modules emb cfg = Ok model ->
  apply weights_init
        (Model_modules emb (model_layers model)
                       (model_use_all_layer_outputs model) (final_size model))
    = Ok (modules model).
Proof.
  unfold setup_model. intros H.
  apply bind_Ok in H as ([ls szs] & _ & H).
  apply bind_Ok in H as (fs & _ & H).
  apply bind_Ok in H as (tree0 & Hnew & H).
  apply construct_Ok in Hnew as [_ ->].
  apply bind_Ok in H as (tree & Htree & H).
  injection H as <-. exact Htree.
Qed.

(** C7: [setup_model] runs [weights_init] over the tree of modules that the
    model constructor registered, and returns the result. Every module of
    the tree is visited once: the returned tree has the same shape, each
    module whose class name contains Conv2d or Linear has one Xavier-normal
    initialisation recorded on its weight and one constant 0 on its bias,
    each ABCNN1Attention module has one Xavier-normal initialisation recorded
    on W1 and on W2, and the attributes of all other modules are as
    constructed. *)
Theorem weights_init_applied_once (init : constructors)
    (Model_modules : Embedding -> list CNNLayer -> bool -> Z -> module)
    (emb : Embedding) (cfg : config) (model : Model) :
  setup_model init Model_modules emb cfg = Ok model ->
  let tree := Model_modules emb (model_layers model)
                (model_use_all_layer_outputs model) (final_size model) in
  apply weights_init tree = Ok (modules model) /\
  modules model = module_map init_attrs tree /\
  (forall path n, submodule tree path = Some n ->
     exists n',
       submodule (modules model) path = Some n' /\
       classname_of n' = classname_of n /\
       length (children_of n') = length (children_of n) /\
       (is_conv_or_linear (classname_of n) = true ->
        exists w b,
          dict_get (attrs_of n) "weight" = Some (Some w) /\
          dict_get (attrs_of n) "bias" = Some (Some b) /\
          dict_get (attrs_of n') "weight" =
            Some (Some (mkTensor (ndim w) (inits w ++ [XavierNormal]))) /\
          dict_get (attrs_of n') "bias" =
            Some (Some (mkTensor (ndim b) (inits b ++ [Constant 0]))) /\
          (forall k, k <> "weight" -> k <> "bias" ->
                     dict_get (attrs_of n') k = dict_get (attrs_of n) k)) /\
       (is_attention1 (classname_of n) = true ->
        exists w1 w2,
          dict_get (attrs_of n) "W1" = Some (Some w1) /\
          dict_get (attrs_of n) "W2" = Some (Some w2) /\
          dict_get (attrs_of n') "W1" =
            Some (Some (mkTensor (ndim w1) (inits w1 ++ [XavierNormal]))) /\
          dict_get (attrs_of n') "W2" =
            Some (Some (mkTensor (ndim w2) (inits w2 ++ [XavierNormal]))) /\
          (forall k, k <> "W1" -> k <> "W2" ->
                     dict_get (attrs_of n') k = dict_get (attrs_of n) k)) /\
       (is_conv_or_linear (classname_of n) = false ->
        is_attention1 (classname_of n) = false ->
        attrs_of n' = attrs_of n)) /\
  is_conv_or_linear "Conv2d" = true /\
  is_conv_or_linear "Linear" = true /\
  is_attention1 "ABCNN1Attention" = true.
Proof.
  intros H tree. pose proof (setup_model_modules _ _ _ _ _ H) as Hrun.
  fold tree in Hrun. split; [exact Hrun|].
  apply apply_weights_init_Ok in Hrun as [Hready Heq].
  split; [exact Heq|]. split; [|repeat split].
  intros path n Hn. exists (module_map init_attrs n).
  split; [rewrite Heq, submodule_module_map, Hn; reflexivity|].
  pose proof (all_ready_submodule path tree n Hready Hn) as Hr.
  destruct n as [c a cs]. cbn [all_ready] in Hr.
  apply andb_prop in Hr as [Hnode _].
  cbn [module_map classname_of children_of attrs_of].
  split; [reflexivity|]. split; [apply length_map|].
  split; [|split].
  - intros Hc. now apply init_attrs_conv_or_linear.
  - intros Hc. now apply init_attrs_attention1.
  - intros H1 H2. unfold init_attrs. now rewrite H1, H2.
Qed.

Lemma weights_init_applied_once_witness :
  exists model,
    setup_model checking sample_modules [] all_outputs_config = Ok model /\
    apply weights_init sample_tree = Ok (modules model) /\
    exists n',
      submodule (modules model) [0; 0; 1]%nat = Some n' /\
      classname_of n' = "Conv2d" /\
      dict_get (attrs_of n') "weight" = Some (Some (mkTensor 4 [XavierNormal])) /\
      dict_get (attrs_of n') "bias" = Some (Some (mkTensor 1 [Constant 0])).
Proof.
  eexists. split; [reflexivity|].
  pose proof (weights_init_applied_once checking sample_modules [] all_outputs_config
                _ eq_refl)
    as (Hrun & _ & Hnodes & _).
  split; [exact Hrun|].
  destruct (Hnodes [0; 0; 1]%nat _ eq_refl)
    as (n' & Hn' & Hc & _ & Hconv & _).
  destruct (Hconv eq_refl) as (w & b & Hw & Hb & Hw' & Hb' & _).
  injection Hw as <-. injection Hb as <-.
  exists n'. split; [exact Hn'|]. split; [exact Hc|]. split; assumption.
Defined.

(** ** [make_block] *)

Lemma make_block_loop_mono (p : string) (items bd : dict weights) (k : string) :
  dict_contains bd k = true ->
  dict_contains (make_block_loop p items bd) k = true.
Proof.
  revert bd. induction items as [|[name w] items IH]; intros bd H; [exact H|].
  cbn [make_block_loop]. apply IH.
  destruct (str_contains p name); [|exact H].
  destruct (dict_contains bd (str_remove name p)); [|exact H].
  now apply dict_contains_setitem_mono.
Qed.

(** A saved name that matches is written under the saved name itself, not
    under the block's name for the parameter. *)
Lemma make_block_loop_writes_saved_name (p : string) (items bd : dict weights)
    (name : string) (w : weights) :
  (name, w) ∈ items ->
  str_contains p name = true ->
  dict_contains bd (str_remove name p) = true ->
  dict_contains (make_block_loop p items bd) name = true.
Proof.
  revert bd. induction items as [|[name' w'] items IH]; intros bd Hin Hp Hbd.
  - apply elem_of_nil in Hin as [].
  - cbn [make_block_loop]. apply elem_of_cons in Hin as [[= <- <-]|Hin].
    + rewrite Hp, Hbd. apply make_block_loop_mono, dict_contains_setitem_eq.
    + apply IH; [exact Hin | exact Hp |].
      destruct (str_contains p name'); [|exact Hbd].
      destruct (dict_contains bd (str_remove name' p)); [|exact Hbd].
      now apply dict_contains_setitem_mono.
Qed.

(** Keys that are not saved names keep the value of the fresh block. *)
Lemma make_block_loop_keeps_fresh (p : string) (items bd : dict weights)
    (k : string) :
  k ∉ keys items -> dict_get (make_block_loop p items bd) k = dict_get bd k.
Proof.
  revert bd. induction items as [|[name w] items IH]; intros bd Hk; [reflexivity|].
  cbn [make_block_loop]. unfold keys in Hk. rewrite fmap_cons in Hk.
  apply not_elem_of_cons in Hk as [Hne Hk]. simpl in Hne.
  rewrite IH by exact Hk.
  destruct (str_contains p name); [|reflexivity].
  destruct (dict_contains bd (str_remove name p)); [|reflexivity].
  apply dict_get_setitem_ne. congruence.
Qed.

Lemma load_state_dict_unexpected (own given : dict weights) (k : string) :
  dict_contains given k = true -> dict_contains own k = false ->
  load_state_dict own given = Raise state_dict_error.
Proof.
  intros Hg Ho. unfold load_state_dict.
  assert (Hin : k ∈ filter (fun k => dict_contains own k = false) (keys given)).
  { apply list_elem_of_filter. split; [exact Ho|]. now apply dict_contains_keys. }
  destruct (filter (fun k => dict_contains given k = false) (keys own));
    destruct (filter (fun k => dict_contains own k = false) (keys given));
    try reflexivity; try (destruct (filter _ own); reflexivity).
  apply elem_of_nil in Hin as [].
Qed.

(** C2 (what the code does instead): when a saved name contains the prefix,
    names a parameter of the block once the prefix is removed, and is not
    itself a parameter name of the block, [make_block] stores the saved
    weights under the saved name and [load_state_dict] rejects the
    dict. *)
Theorem make_block_rejects_prefixed_names (init : constructors)
    (state_dict : Block -> dict weights) (model_dict : dict weights)
    (block_prefix : string) (ml : Z) (bc : block_config) (b : Block) (sz : Z)
    (name : string) (w : weights) :
  setup_block init ml bc = Ok (b, sz) ->
  (name, w) ∈ model_dict ->
  str_contains block_prefix name = true ->
  dict_contains (state_dict b) (str_remove name block_prefix) = true ->
  dict_contains (state_dict b) name = false ->
  make_block init state_dict model_dict block_prefix ml bc = Raise state_dict_error.
Proof.
  intros Hb Hin Hp Hstripped Hname. unfold make_block. rewrite Hb.
  cbn [mbind result_bind].
  rewrite (load_state_dict_unexpected _ _ name); [reflexivity| |exact Hname].
  eapply make_block_loop_writes_saved_name; eauto.
Qed.

Lemma make_block_rejects_prefixed_names_witness :
  make_block checking sample_state_dict sample_model_dict "layers.0.blocks.0." 40
             bcnn_config
    = Raise state_dict_error.
Proof.
  refine (make_block_rejects_prefixed_names checking sample_state_dict sample_model_dict
            "layers.0.blocks.0." 40 bcnn_config _ _
            "layers.0.blocks.0.conv.weight" (mkWeights [2%nat] [1%Q; 2%Q]) _ _ _ _ _).
  - reflexivity.
  - apply list_elem_of_here.
  - reflexivity.
  - reflexivity.
  - reflexivity.
Defined.

(** * Further properties *)

(** ** [setup_layer] and [setup_model]: structure and errors *)

Lemma list_getitem_last_cons {A} (x : A) (l : list A) :
  exists y, list_getitem (x :: l) (-1) = Ok y /\ last (x :: l) = Some y.
Proof.
  destruct (list_getitem (x :: l) (-1)) as [y|e] eqn:E.
  - exists y. split; [reflexivity|]. now apply list_getitem_last.
  - exfalso. unfold list_getitem, len in E. cbn [Z.ltb Z.compare] in E.
    cbn [length] in E.
    destruct (Z.ltb_spec (-1 + Z.of_nat (S (length l))) 0); [lia|].
    destruct (Z.leb_spec (Z.of_nat (S (length l))) (-1 + Z.of_nat (S (length l))));
      [lia|].
    cbn [orb] in E.
    replace (Z.to_nat (-1 + Z.of_nat (S (length l)))) with (length l) in E by lia.
    destruct (lookup_lt_is_Some_2 (x :: l) (length l)) as [y Hy]; [simpl; lia|].
    rewrite Hy in E. discriminate.
Qed.

Section LayerOutcome.
Variable init : constructors.

#[local] Abbreviation setup_block := (setup_block init).
#[local] Abbreviation setup_layer_loop := (setup_layer_loop init).
#[local] Abbreviation setup_layer := (setup_layer init).
#[local] Abbreviation setup_model_loop := (setup_model_loop init).

(** [bs] are the blocks built for the configurations [lc]. *)
#[local] Abbreviation built ml lc bs :=
  (Forall2 (fun bc b => setup_block ml bc = Ok (b, output_size bc)) lc bs).

Lemma setup_layer_loop_built (ml : Z) (lc : list block_config) :
  forall (bs : list Block) (os : list Z) (bs' : list Block),
    built ml lc bs' ->
    setup_layer_loop ml lc bs os = Ok (bs ++ bs', os ++ (output_size <$> lc)).
Proof.
  induction lc as [|bc lc IH]; intros bs os bs' Hall.
  - apply Forall2_nil_inv_l in Hall as ->. now rewrite !app_nil_r.
  - apply Forall2_cons_inv_l in Hall as (b & bs1 & Hb & Hall & ->).
    cbn [setup_layer_loop]. rewrite Hb. cbn [mbind result_bind].
    rewrite (IH _ _ bs1 Hall).
    rewrite <- (app_assoc bs [b] bs1), <- (app_assoc os [_] _). reflexivity.
Qed.

Lemma setup_layer_loop_first_failure (ml : Z) (pre : list block_config)
    (bc : block_config) (post : list block_config) (e : exn) :
  forall (bs : list Block) (os : list Z) (bs' : list Block),
    built ml pre bs' ->
    setup_block ml bc = Raise e ->
    setup_layer_loop ml (pre ++ bc :: post) bs os = Raise e.
Proof.
  induction pre as [|bc0 pre IH]; intros bs os bs' Hall He.
  - cbn [app setup_layer_loop]. now rewrite He.
  - apply Forall2_cons_inv_l in Hall as (b & bs1 & Hb & Hall & ->).
    cbn [app setup_layer_loop]. rewrite Hb. cbn [mbind result_bind].
    now apply (IH _ _ bs1).
Qed.

Lemma setup_layer_loop_Ok (ml : Z) (lc : list block_config) :
  forall (bs : list Block) (os : list Z) (bs1 : list Block) (os1 : list Z),
    setup_layer_loop ml lc bs os = Ok (bs1, os1) ->
    exists bs', bs1 = bs ++ bs' /\ built ml lc bs'.
Proof.
  induction lc as [|bc lc IH]; intros bs os bs1 os1 H.
  - injection H as <- <-. exists []. split; [now rewrite app_nil_r | constructor].
  - cbn [setup_layer_loop] in H. apply bind_Ok in H as ([b sz] & Hb & H).
    pose proof (setup_block_output_size _ _ _ _ _ Hb) as ->.
    apply IH in H as (bs' & -> & Hall).
    exists (b :: bs'). split; [now rewrite <- app_assoc | now constructor].
Qed.

Lemma setup_layer_built (ml : Z) (lc : list block_config) (bs : list Block) :
  built ml lc bs ->
  setup_layer ml lc =
    construct init (OCNNLayer (mkCNNLayer bs)) (mkCNNLayer bs, pooled_size lc).
Proof.
  intros Hall. unfold setup_layer.
  rewrite (setup_layer_loop_built ml lc [] [] bs Hall). cbn [mbind result_bind app].
  unfold new, construct. destruct (init _); reflexivity.
Qed.

Lemma setup_layer_first_failure (ml : Z) (pre : list block_config)
    (bc : block_config) (post : list block_config) (bs : list Block) (e : exn) :
  built ml pre bs ->
  setup_block ml bc = Raise e ->
  setup_layer ml (pre ++ bc :: post) = Raise e.
Proof.
  intros Hall He. unfold setup_layer.
  now rewrite (setup_layer_loop_first_failure ml pre bc post e [] [] bs Hall He).
Qed.

Lemma setup_layer_Ok (ml : Z) (lc : list block_config) (l : CNNLayer) (sz : Z) :
  setup_layer ml lc = Ok (l, sz) ->
  sz = pooled_size lc /\ init (OCNNLayer l) = None /\ built ml lc (blocks l).
Proof.
  intros H. pose proof (setup_layer_size _ _ _ _ _ H) as ->.
  split; [reflexivity|]. unfold setup_layer in H.
  apply bind_Ok in H as ([bs os] & Hloop & H).
  apply setup_layer_loop_Ok in Hloop as (bs' & -> & Hall).
  apply bind_Ok in H as (l' & Hnew & H). apply new_Ok in Hnew as [Hnew ->].
  injection H as <-. split; [exact Hnew | exact Hall].
Qed.

(** [ls] are the layers built for the layer configurations [lcs]. *)
#[local] Abbreviation layers_built ml lcs ls :=
  (Forall2 (fun lc l => setup_layer ml lc = Ok (l, pooled_size lc)) lcs ls).

Lemma setup_model_loop_built (ml : Z) (lcs : list (list block_config)) :
  forall (ls : list CNNLayer) (szs : list Z) (ls' : list CNNLayer),
    layers_built ml lcs ls' ->
    setup_model_loop ml lcs ls szs = Ok (ls ++ ls', szs ++ (pooled_size <$> lcs)).
Proof.
  induction lcs as [|lc lcs IH]; intros ls szs ls' Hall.
  - apply Forall2_nil_inv_l in Hall as ->. now rewrite !app_nil_r.
  - apply Forall2_cons_inv_l in Hall as (l & ls1 & Hl & Hall & ->).
    cbn [setup_model_loop]. rewrite Hl. cbn [mbind result_bind].
    rewrite (IH _ _ ls1 Hall).
    rewrite <- (app_assoc ls [l] ls1), <- (app_assoc szs [_] _). reflexivity.
Qed.

Lemma setup_model_loop_first_failure (ml : Z) (pre : list (list block_config))
    (lc : list block_config) (post : list (list block_config)) (e : exn) :
  forall (ls : list CNNLayer) (szs : list Z) (ls' : list CNNLayer),
    layers_built ml pre ls' ->
    setup_layer ml lc = Raise e ->
    setup_model_loop ml (pre ++ lc :: post) ls szs = Raise e.
Proof.
  induction pre as [|lc0 pre IH]; intros ls szs ls' Hall He.
  - cbn [app setup_model_loop]. now rewrite He.
  - apply Forall2_cons_inv_l in Hall as (l & ls1 & Hl & Hall & ->).
    cbn [app setup_model_loop]. rewrite Hl. cbn [mbind result_bind].
    now apply (IH _ _ ls1).
Qed.

(** The size of the head, as [setup_model] computes it from the sizes of the
    layers. *)
Lemma final_size_head_size (cfg : config) :
  (if use_all_layer_outputs (cfg_model cfg)
   then Ok (2 * sum (size (cfg_embeddings cfg) :: (pooled_size <$> layers (cfg_model cfg))))
   else list_getitem (size (cfg_embeddings cfg) :: (pooled_size <$> layers (cfg_model cfg)))
                     (-1) ≫= (fun last_size => Ok (2 * last_size)))
  = Ok (head_size cfg).
Proof.
  unfold head_size. cbv zeta. destruct (use_all_layer_outputs (cfg_model cfg)).
  - now rewrite sum_cons.
  - destruct (list_getitem_last_cons (size (cfg_embeddings cfg))
                (pooled_size <$> layers (cfg_model cfg))) as (y & -> & Hy).
    cbn [mbind result_bind]. rewrite last_cons in Hy.
    destruct (last (pooled_size <$> layers (cfg_model cfg))); injection Hy as <-;
      reflexivity.
Qed.

End LayerOutcome.

(** X1: [setup_layer] builds its blocks in the order of the configuration
    and stops at the first block whose construction raises, with that
    exception: the unsupported-type exception for a block of an unsupported
    type, unless an earlier block has raised. When all blocks are built it
    calls [CNNLayer] on them, in order, and returns the layer with the sum
    of the configured output sizes; a layer is returned in no other way. *)
Theorem setup_layer_blocks (init : constructors) (ml : Z) (lc : list block_config) :
  (forall bs,
      Forall2 (fun bc b => setup_block init ml bc = Ok (b, output_size bc)) lc bs ->
      setup_layer init ml lc =
        construct init (OCNNLayer (mkCNNLayer bs)) (mkCNNLayer bs, pooled_size lc)) /\
  (forall pre bc post bs e,
      lc = pre ++ bc :: post ->
      Forall2 (fun bc b => setup_block init ml bc = Ok (b, output_size bc)) pre bs ->
      setup_block init ml bc = Raise e ->
      setup_layer init ml lc = Raise e) /\
  (forall pre bc post bs,
      lc = pre ++ bc :: post ->
      Forall2 (fun bc b => setup_block init ml bc = Ok (b, output_size bc)) pre bs ->
      type bc ∉ block_types ->
      setup_layer init ml lc = Raise unsupported_block_type) /\
  (forall l sz,
      setup_layer init ml lc = Ok (l, sz) ->
      sz = pooled_size lc /\
      init (OCNNLayer l) = None /\
      Forall2 (fun bc b => setup_block init ml bc = Ok (b, output_size bc))
              lc (blocks l)).
Proof.
  split; [intros bs; apply setup_layer_built|]. split; [|split].
  - intros pre bc post bs e -> Hall He. eapply setup_layer_first_failure; eauto.
  - intros pre bc post bs -> Hall Ht. eapply setup_layer_first_failure; eauto.
    now apply setup_block_unsupported.
  - intros l sz. apply setup_layer_Ok.
Qed.

Lemma setup_layer_blocks_witness :
  (exists bs, setup_layer checking 40 [bcnn_config; abcnn3_config]
                = Ok (mkCNNLayer bs, 100) /\ length bs = 2%nat) /\
  setup_layer checking 40 [bcnn_config; uppercase_config; bad_score_config]
    = Raise unsupported_block_type /\
  setup_layer checking 40 [bcnn_config; bad_score_config; uppercase_config]
    = Raise (Exception "Unsupported match score.").
Proof.
  split; [|split].
  - eexists. split.
    + rewrite (proj1 (setup_layer_blocks checking 40 [bcnn_config; abcnn3_config])
                 [bcnn_block; abcnn3_block]); [reflexivity|].
      repeat constructor.
    + reflexivity.
  - apply (proj1 (proj2 (proj2 (setup_layer_blocks checking 40
                   [bcnn_config; uppercase_config; bad_score_config])))
             [bcnn_config] uppercase_config [bad_score_config] [bcnn_block]);
      [reflexivity | repeat constructor | compute_done].
  - apply (proj1 (proj2 (setup_layer_blocks checking 40
                   [bcnn_config; bad_score_config; uppercase_config]))
             [bcnn_config] bad_score_config [uppercase_config] [bcnn_block]);
      [reflexivity | repeat constructor | reflexivity].
Defined.

(** X2: [setup_model] builds the layers in the order of the configuration
    and raises what the first failing [setup_layer] raises, before the model
    class is called. When all layers are built it calls [Model] with the
    embeddings, the layers in order and the head size; it raises what that
    constructor raises, and otherwise returns, with [weights_init] applied
    to every module, exactly when the constructed module tree has the
    tensors [weights_init] touches. *)
Theorem setup_model_outcome (init : constructors)
    (Model_modules : Embedding -> list CNNLayer -> bool -> Z -> module)
    (emb : Embedding) (cfg : config) :
  let ml := max_length (cfg_model cfg) in
  let lcs := layers (cfg_model cfg) in
  let ua := use_all_layer_outputs (cfg_model cfg) in
  let fs := head_size cfg in
  (forall pre lc post ls e,
      lcs = pre ++ lc :: post ->
      Forall2 (fun lc l => setup_layer init ml lc = Ok (l, pooled_size lc)) pre ls ->
      setup_layer init ml lc = Raise e ->
      setup_model init Model_modules emb cfg = Raise e) /\
  (forall ls,
      Forall2 (fun lc l => setup_layer init ml lc = Ok (l, pooled_size lc)) lcs ls ->
      let tree := Model_modules emb ls ua fs in
      (forall e, init (OModel emb ls ua fs) = Some e ->
                 setup_model init Model_modules emb cfg = Raise e) /\
      (init (OModel emb ls ua fs) = None ->
       all_ready tree = true ->
       setup_model init Model_modules emb cfg =
         Ok (mkModel emb ls ua fs (module_map init_attrs tree))) /\
      (init (OModel emb ls ua fs) = None ->
       all_ready tree = false ->
       raises (setup_model init Model_modules emb cfg) = true)).
Proof.
  intros ml lcs ua fs. unfold setup_model. fold ml lcs ua. split.
  - intros pre lc post ls e Hlcs Hall He. rewrite Hlcs.
    now rewrite (setup_model_loop_first_failure init ml pre lc post e [] _ ls Hall He).
  - intros ls Hall.
    rewrite (setup_model_loop_built init ml lcs [] _ ls Hall).
    cbn [mbind result_bind app]. unfold lcs, ua.
    rewrite (final_size_head_size cfg). fold lcs ua fs.
    cbn [mbind result_bind]. unfold construct.
    split; [|split].
    + intros e ->. reflexivity.
    + intros -> Hr. cbn [mbind result_bind].
      now rewrite (apply_weights_init_ready _ Hr).
    + intros -> Hr. cbn [mbind result_bind].
      apply raises_bind_l. now apply apply_weights_init_unready.
Qed.

Lemma setup_model_outcome_witness :
  setup_model checking sample_modules []
    (Config [] (EmbeddingsConfig "vectors.bin" "word2vec" true 300)
            (ModelConfig 40 [[bcnn_config]; [abcnn3_config; uppercase_config]] true))
    = Raise unsupported_block_type /\
  raises (setup_model checking sample_modules [] all_outputs_config) = false.
Proof.
  split.
  - apply (proj1 (setup_model_outcome checking sample_modules [] _)
             [[bcnn_config]] [abcnn3_config; uppercase_config] []
             [mkCNNLayer [bcnn_block]]);
      [reflexivity | repeat constructor | reflexivity].
  - destruct (proj2 (setup_model_outcome checking sample_modules [] all_outputs_config)
                [mkCNNLayer [bcnn_block]]) as (_ & Hok & _); [repeat constructor|].
    rewrite Hok; reflexivity.
Defined.

(** ** The vocabulary as a numbering *)

Section Numbering.
Variable text_to_word_list : string -> list string.
Variable stopwords_english : list string.
Variable overflow : exn.

#[local] Abbreviation setup_datasets :=
  (setup_datasets text_to_word_list stopwords_english overflow).

(** X3: the mapping [setup_datasets] returns numbers its words by position:
    a word has index [i] exactly when it is the [i]-th key in insertion
    order. So two words never share an index, and every number from 0 to
    [len(word2index) - 1] is the index of exactly one word. *)
Theorem word2index_numbers_positions (l : loc) (es ml : Z) (h : heap) (l' : loc)
    (texts : dict (list (list (list string)))) (w2i : dict Z) (h' : heap) :
  setup_datasets l es ml h = Ok ((l', texts, w2i), h') ->
  (forall w i, dict_get w2i w = Some i <-> index2word w2i i = Some w) /\
  (forall w1 w2 i, dict_get w2i w1 = Some i -> dict_get w2i w2 = Some i -> w1 = w2) /\
  (forall i, 0 <= i < len w2i -> exists w, dict_get w2i w = Some i).
Proof.
  intros Hrun. apply setup_datasets_vocab in Hrun as Hok.
  split; [intros w i; now apply vocab_ok_index2word|]. split.
  - intros w1 w2 i H1 H2.
    apply (vocab_ok_index2word _ _ _ Hok) in H1, H2. congruence.
  - intros i Hi. unfold len in Hi.
    destruct (lookup_lt_is_Some_2 w2i (Z.to_nat i)) as [[w j] Hk]; [lia|].
    exists w. apply (vocab_ok_index2word _ _ _ Hok). unfold index2word.
    destruct (Z.ltb_spec i 0); [lia|]. unfold dict in *. now rewrite Hk.
Qed.

End Numbering.

Lemma word2index_numbers_positions_witness :
  index2word sample_word2index 4 = Some "iron" /\
  exists w, dict_get sample_word2index w = Some 6.
Proof.
  destruct sample_run as [texts Hrun].
  destruct (word2index_numbers_positions split_spaces sample_stops sample_overflow
              _ _ _ _ _ _ _ _ Hrun)
    as (Hpos & _ & Hsurj).
  split.
  - apply Hpos. reflexivity.
  - apply Hsurj. compute_done.
Defined.

(** ** Shapes, reruns and negative lengths *)

Lemma truncate_pad_negative {A} (max_length : Z) (pad : A) (l : list A) :
  max_length < 0 ->
  truncate_pad max_length pad l = take (length l - Z.to_nat (- max_length)) l.
Proof.
  intros Hml. unfold truncate_pad, len.
  destruct (Z.of_nat (length l) <? max_length) eqn:E; [apply Z.ltb_lt in E; lia|].
  rewrite Z.ltb_irrefl. unfold slice_to.
  destruct (Z.ltb_spec max_length 0); [reflexivity | lia].
Qed.

Section Shapes.
Variable text_to_word_list : string -> list string.
Variable stopwords_english : list string.
Variable overflow : exn.

#[local] Abbreviation tokens := (tokens text_to_word_list stopwords_english).
#[local] Abbreviation example_ok := (example_ok text_to_word_list stopwords_english).
#[local] Abbreviation dataset_ok := (dataset_ok text_to_word_list stopwords_english).
#[local] Abbreviation setup_datasets :=
  (setup_datasets text_to_word_list stopwords_english overflow).

(** X4: with a non-negative [max_length], the tensors stored under a name
    have the shape the docstring gives, (num_examples, 2, max_length): one
    example and one label per row of the frame, in row order, two sequences
    per example, [max_length] entries per sequence. *)
Theorem tensors_shape (l : loc) (es ml : Z) (h : heap) (d0 : dict dataset)
    (l' : loc) (texts : dict (list (list (list string)))) (w2i : dict Z)
    (h' : heap) (d' : dict dataset) (name : string) (t : TensorDataset) :
  0 <= ml ->
  h !! l = Some d0 ->
  NoDup (keys d0) ->
  setup_datasets l es ml h = Ok ((l', texts, w2i), h') ->
  h' !! l' = Some d' ->
  dict_get d' name = Some (Tensors t) ->
  exists rows,
    dict_get d0 name = Some (Frame rows) /\
    length (indexed_examples t) = length rows /\
    labels t = is_duplicate <$> rows /\
    Forall (fun e => length e = 2%nat /\ Forall (fun s => len s = ml) e)
           (indexed_examples t).
Proof.
  intros Hml Hh Hnd Hrun Hh' Hget.
  destruct (setup_datasets_spec text_to_word_list stopwords_english overflow
              l es ml h d0 Hh Hnd) as [_ H2].
  destruct (H2 _ _ _ _ Hrun) as (-> & Hok & d1 & -> & Hall).
  rewrite lookup_insert_eq in Hh'. injection Hh' as ->.
  destruct (dataset_ok_origin _ _ _ _ _ _ _ _ Hnd Hall Hget)
    as (rows & Hrows & Hlbl & Hexs).
  exists rows. split; [exact Hrows|].
  split; [symmetry; eapply Forall2_length; eauto|]. split; [exact Hlbl|].
  clear Hlbl Hget Hrows.
  induction Hexs as [|row e rows exs He _ IH]; [constructor|].
  constructor; [|exact IH].
  destruct (example_ok_shape text_to_word_list stopwords_english ml w2i row e Hml He)
    as [Hlen Hseqs].
  split; [exact Hlen|]. eapply Forall_impl; [exact Hseqs|].
  intros s Hs. simpl in Hs. unfold len. lia.
Qed.

(** X5: [setup_datasets] cannot be run twice on the same dict: after a
    successful run on a non-empty dict, the dict holds tensors, and a second
    call on it raises [AttributeError] at the first entry. *)
Theorem setup_datasets_twice (l : loc) (es ml : Z) (h : heap) (d0 : dict dataset)
    (l' : loc) (texts : dict (list (list (list string)))) (w2i : dict Z)
    (h' : heap) (es' ml' : Z) :
  h !! l = Some d0 ->
  NoDup (keys d0) ->
  d0 <> [] ->
  setup_datasets l es ml h = Ok ((l', texts, w2i), h') ->
  setup_datasets l' es' ml' h' = Raise (AttributeError "iterrows").
Proof.
  intros Hh Hnd Hne Hrun.
  destruct (setup_datasets_spec text_to_word_list stopwords_english overflow
              l es ml h d0 Hh Hnd) as [_ H2].
  destruct (H2 _ _ _ _ Hrun) as (-> & Hok & d1 & -> & Hall).
  unfold setup_datasets. unfold deref. rewrite lookup_insert_eq.
  cbn [mbind result_bind].
  destruct Hall as [|[n0 ds0] [n1 ds1] d0 d1 Hhead _]; [contradiction|].
  destruct Hhead as (_ & rows & exs & _ & Hds1 & _). simpl in Hds1. subst ds1.
  reflexivity.
Qed.

(** X6: a negative [max_length] is not rejected: when [setup_datasets]
    returns, each stored sequence is the token indices without their last
    [-max_length] entries, and nothing is padded. *)
Theorem negative_max_length_drops_tail (l : loc) (es ml : Z) (h : heap)
    (d0 : dict dataset) (l' : loc) (texts : dict (list (list (list string))))
    (w2i : dict Z) (h' : heap) (d' : dict dataset)
    (name : string) (t : TensorDataset) (i j : nat) (e : list (list Z))
    (s : list Z) :
  ml < 0 ->
  h !! l = Some d0 ->
  NoDup (keys d0) ->
  setup_datasets l es ml h = Ok ((l', texts, w2i), h') ->
  h' !! l' = Some d' ->
  dict_get d' name = Some (Tensors t) ->
  indexed_examples t !! i = Some e ->
  e !! j = Some s ->
  exists rows row column idxs,
    dict_get d0 name = Some (Frame rows) /\
    rows !! i = Some row /\
    question_cols !! j = Some column /\
    encodes w2i (tokens (column row)) idxs /\
    s = take (length idxs - Z.to_nat (- ml)) idxs.
Proof.
  intros Hml Hh Hnd Hrun Hh' Hget Hi Hj.
  destruct (setup_datasets_spec text_to_word_list stopwords_english overflow
              l es ml h d0 Hh Hnd) as [_ H2].
  destruct (H2 _ _ _ _ Hrun) as (-> & Hok & d1 & -> & Hall).
  rewrite lookup_insert_eq in Hh'. injection Hh' as ->.
  destruct (dataset_ok_origin _ _ _ _ _ _ _ _ Hnd Hall Hget)
    as (rows & Hrows & _ & Hexs).
  destruct (Forall2_lookup_r _ _ _ _ _ Hexs Hi) as (row & Hrow & Hex).
  destruct (Forall2_lookup_r _ _ _ _ _ Hex Hj) as (col & Hcol & idxs & Henc & ->).
  exists rows, row, col, idxs. repeat (split; [assumption|]).
  now apply truncate_pad_negative.
Qed.

End Shapes.

Lemma tensors_shape_witness :
  exists rows,
    dict_get sample_frames "train" = Some (Frame rows) /\
    length [[[1; 2; 0; 0]; [1; 3; 4; 0]]; [[1; 0; 0; 0]; [4; 1; 3; 4]]] = length rows.
Proof.
  destruct sample_run as [texts Hrun].
  destruct (tensors_shape split_spaces sample_stops sample_overflow 1%nat 300 4 sample_heap
              sample_frames 1%nat texts sample_word2index
              (<[1%nat := sample_tensors]> sample_heap) sample_tensors "train"
              (mkTensorDataset
                 [[[1; 2; 0; 0]; [1; 3; 4; 0]]; [[1; 0; 0; 0]; [4; 1; 3; 4]]] [0; 1]))
    as (rows & Hrows & Hlen & _).
  - lia.
  - reflexivity.
  - compute_done.
  - exact Hrun.
  - reflexivity.
  - reflexivity.
  - exists rows. split; assumption.
Defined.

Lemma setup_datasets_twice_witness :
  setup_datasets split_spaces sample_stops sample_overflow 1%nat 300 4
                 (<[1%nat := sample_tensors]> sample_heap)
    = Raise (AttributeError "iterrows").
Proof.
  destruct sample_run as [texts Hrun].
  refine (setup_datasets_twice split_spaces sample_stops sample_overflow 1%nat 300 4 sample_heap
            sample_frames 1%nat texts sample_word2index _ 300 4 _ _ _ Hrun).
  - reflexivity.
  - compute_done.
  - discriminate.
Defined.

Lemma one_row_run :
  exists texts,
    setup_datasets split_spaces sample_stops sample_overflow 1%nat 300 (-1) one_row_heap =
      Ok ((1%nat, texts,
           [("<PAD>", 0); ("magnets", 1); ("work", 2); ("iron", 3); ("attract", 4)]),
          <[1%nat := [("pairs", Tensors (mkTensorDataset [[[1]; [3]]] [1]))]]>
            one_row_heap).
Proof. eexists. vm_compute. reflexivity. Qed.

Lemma negative_max_length_drops_tail_witness :
  exists idxs, [1] = take (length idxs - Z.to_nat (- -1)) idxs /\ length idxs = 2%nat.
Proof.
  destruct one_row_run as [texts Hrun].
  destruct (negative_max_length_drops_tail split_spaces sample_stops sample_overflow 1%nat 300 (-1)
              one_row_heap [("pairs", Frame [mkExample "magnets work" "iron attract" 1])]
              1%nat texts
              [("<PAD>", 0); ("magnets", 1); ("work", 2); ("iron", 3); ("attract", 4)]
              (<[1%nat := [("pairs", Tensors (mkTensorDataset [[[1]; [3]]] [1]))]]> one_row_heap)
              [("pairs", Tensors (mkTensorDataset [[[1]; [3]]] [1]))]
              "pairs" (mkTensorDataset [[[1]; [3]]] [1]) 0 0 [[1]; [3]] [1])
    as (rows & row & col & idxs & Hrows & Hrow & Hcol & Henc & Hs).
  - lia.
  - reflexivity.
  - compute_done.
  - exact Hrun.
  - reflexivity.
  - reflexivity.
  - reflexivity.
  - reflexivity.
  - exists idxs. split; [exact Hs|].
    injection Hrows as <-. injection Hrow as <-. injection Hcol as <-.
    apply Forall2_length in Henc. now rewrite <- Henc.
Defined.

(** ** The embedding matrix in the pipeline *)

Section EmbeddingPipeline.
Variable uniform : Q -> Q -> nat -> nat -> Embedding.

(** X7: when no file exists at the configured path (and the format is
    supported), [setup_word_vectors] returns [None] without calling a
    loader, and [setup_embedding_matrix] then returns the random draw with
    its row 0 zeroed, for any [word2index], whose indices it does not read;
    a negative [embeddings_size] raises [ValueError]. *)
Theorem missing_file_gives_random_matrix (env : loaders) (cfg : config)
    (w2i : dict Z) :
  draws_shape uniform ->
  format (cfg_embeddings cfg) ∈ embedding_formats ->
  isfile env (path (cfg_embeddings cfg)) = false ->
  setup_word_vectors env cfg = Ok None /\
  (size (cfg_embeddings cfg) < 0 ->
   setup_embedding_matrix uniform None w2i (size (cfg_embeddings cfg))
     = Raise ValueError) /\
  (0 <= size (cfg_embeddings cfg) ->
   exists E,
     setup_embedding_matrix uniform None w2i (size (cfg_embeddings cfg)) = Ok E /\
     E !! 0%nat = Some (replicate (Z.to_nat (size (cfg_embeddings cfg))) 0%Q) /\
     (forall k, k <> 0%nat ->
        E !! k = uniform (-1 # 100)%Q (1 # 100)%Q (length w2i + 1)%nat
                         (Z.to_nat (size (cfg_embeddings cfg))) !! k)).
Proof.
  intros Hshape Hfmt Hfile. split; [|split].
  - rewrite (setup_word_vectors_supported env cfg Hfmt), Hfile. reflexivity.
  - intros Hneg. unfold setup_embedding_matrix.
    destruct (Z.ltb_spec (size (cfg_embeddings cfg)) 0); [reflexivity | lia].
  - intros Hsz. exists (initial_matrix uniform w2i (size (cfg_embeddings cfg))).
    split; [|split].
    + unfold setup_embedding_matrix.
      destruct (Z.ltb_spec (size (cfg_embeddings cfg)) 0); [lia|].
      now rewrite zero_padding_row.
    + unfold initial_matrix. apply list_lookup_insert_eq.
      destruct (Hshape (-1 # 100)%Q (1 # 100)%Q (length w2i + 1)%nat
                       (Z.to_nat (size (cfg_embeddings cfg)))) as [-> _]. lia.
    + intros k Hk. unfold initial_matrix. apply list_lookup_insert_ne. lia.
Qed.

End EmbeddingPipeline.

Lemma missing_file_gives_random_matrix_witness :
  setup_word_vectors no_files all_outputs_config = Ok None /\
  exists E, setup_embedding_matrix constant_draw None [("<PAD>", 0); ("a", 7)] 300 = Ok E.
Proof.
  destruct (missing_file_gives_random_matrix constant_draw no_files
              all_outputs_config [("<PAD>", 0); ("a", 7)])
    as (Hnone & _ & Hdraw).
  - exact constant_draw_shape.
  - compute_done.
  - reflexivity.
  - split; [exact Hnone|]. destruct Hdraw as (E & HE & _); [simpl; lia|].
    exists E. exact HE.
Defined.

Section DatasetsToMatrix.
Variable text_to_word_list : string -> list string.
Variable stopwords_english : list string.
Variable overflow : exn.
Variable uniform : Q -> Q -> nat -> nat -> Embedding.

#[local] Abbreviation setup_datasets :=
  (setup_datasets text_to_word_list stopwords_english overflow).

(** X8: on the [word2index] that [setup_datasets] returns, and with
    pretrained vectors of [embeddings_size] entries, [setup_embedding_matrix]
    raises nothing. The row of each word is its pretrained vector if it has
    one, and its row of the initial matrix otherwise; row 0 stays zero when
    the store has no vector for the padding word; and the last row of the
    matrix is the index of no word: it keeps its random values. *)
Theorem matrix_for_indexed_words (l : loc) (es ml : Z) (h : heap) (l' : loc)
    (texts : dict (list (list (list string)))) (w2i : dict Z) (h' : heap)
    (wv : option KeyedVectors) (sz : Z) :
  setup_datasets l es ml h = Ok ((l', texts, w2i), h') ->
  draws_shape uniform ->
  0 <= sz ->
  (forall w v, pretrained wv w = Some v -> len v = sz) ->
  exists E,
    setup_embedding_matrix uniform wv w2i sz = Ok E /\
    len E = len w2i + 1 /\
    (forall w i, dict_get w2i w = Some i ->
       E !! Z.to_nat i =
         match pretrained wv w with
         | Some v => Some v
         | None => initial_matrix uniform w2i sz !! Z.to_nat i
         end) /\
    (pretrained wv "<PAD>" = None -> E !! 0%nat = Some (replicate (Z.to_nat sz) 0%Q)) /\
    E !! length w2i =
      uniform (-1 # 100)%Q (1 # 100)%Q (length w2i + 1)%nat (Z.to_nat sz) !! length w2i.
Proof.
  intros Hrun Hshape Hsz Hdim. apply setup_datasets_vocab in Hrun as Hok.
  assert (Hrange : Forall (fun x => 0 <= snd x <= len w2i) w2i).
  { apply Forall_forall. intros [w i] Hin.
    pose proof (vocab_ok_values w2i w i Hok Hin). simpl. lia. }
  pose proof (vocab_ok_NoDup_values w2i Hok) as Hnd.
  destruct (setup_embedding_matrix_spec uniform wv w2i sz Hshape Hsz Hrange Hnd Hdim)
    as (E & HE & Hlen & Hhit & Hmiss).
  assert (Hsame : forall w w' i i', (w, i) ∈ w2i -> (w', i') ∈ w2i ->
                                    Z.to_nat i' = Z.to_nat i -> w' = w).
  { intros w w' i i' Hin Hin' Heq.
    pose proof (vocab_ok_values w2i w i Hok Hin).
    pose proof (vocab_ok_values w2i w' i' Hok Hin').
    assert (i' = i) as -> by lia.
    pose proof (NoDup_snd_inj w2i (w', i) (w, i) Hnd Hin' Hin eq_refl). congruence. }
  exists E. split; [exact HE|]. split; [unfold len; lia|]. split; [|split].
  - intros w i Hget. apply dict_get_Some_elem in Hget as Hin.
    destruct (pretrained wv w) as [v|] eqn:Hw; [now apply (Hhit w i v)|].
    apply Hmiss. intros w' i' Hin' Heq.
    now rewrite (Hsame w w' i i' Hin Hin' Heq).
  - intros Hpad. rewrite Hmiss.
    + unfold initial_matrix. apply list_lookup_insert_eq.
      destruct (Hshape (-1 # 100)%Q (1 # 100)%Q (length w2i + 1)%nat (Z.to_nat sz)) as [-> _]. lia.
    + intros w i Hin Heq.
      pose proof (dict_get_Some_elem _ _ _ (vocab_ok_PAD w2i Hok)) as Hp.
      now rewrite (Hsame "<PAD>" w 0 i Hp Hin Heq).
  - rewrite Hmiss.
    + unfold initial_matrix. apply list_lookup_insert_ne.
      destruct Hok as ([rest ->] & _). simpl. lia.
    + intros w i Hin Heq. pose proof (vocab_ok_values w2i w i Hok Hin) as Hb.
      unfold len in Hb. lia.
Qed.

End DatasetsToMatrix.

Lemma matrix_for_indexed_words_witness :
  exists E,
    setup_embedding_matrix constant_draw (Some (single_vector "iron" [1%Q; 2%Q]))
                           sample_word2index 2 = Ok E /\
    E !! 4%nat = Some [1%Q; 2%Q] /\
    E !! 7%nat = Some [(1 # 200)%Q; (1 # 200)%Q].
Proof.
  destruct sample_run as [texts Hrun].
  destruct (matrix_for_indexed_words split_spaces sample_stops sample_overflow constant_draw
              _ _ _ _ _ _ _ _ (Some (single_vector "iron" [1%Q; 2%Q])) 2 Hrun)
    as (E & HE & _ & Hrow & _ & Hlast).
  - exact constant_draw_shape.
  - lia.
  - intros w v. simpl. unfold single_vector.
    destruct (String.eqb w "iron"); [|discriminate]. now intros [= <-].
  - exists E. split; [exact HE|]. split.
    + apply (Hrow "iron" 4). reflexivity.
    + exact Hlast.
Defined.

(** ** Modules that [weights_init] cannot initialise *)

Lemma all_ready_false_submodule (path : list nat) (tree n : module) :
  submodule tree path = Some n -> all_ready n = false -> all_ready tree = false.
Proof.
  intros Hn Hr. destruct (all_ready tree) eqn:E; [|reflexivity].
  rewrite (all_ready_submodule path tree n E Hn) in Hr. discriminate.
Qed.

Lemma node_unready_no_bias (c : string) (a : dict (option Tensor)) :
  is_conv_or_linear c = true ->
  dict_get a "bias" = Some None \/ dict_get a "bias" = None ->
  node_ready c a = false.
Proof.
  intros Hc Hb. unfold node_ready, has_tensor. rewrite Hc.
  destruct Hb as [-> | ->]; apply andb_false_r.
Qed.

(** X9: a module whose class name contains Conv2d or Linear and whose bias is
    [None] (a layer built with [bias=False]) or absent, anywhere in the
    tree, makes [apply(weights_init)] raise; so [setup_model] raises for
    every configuration when the model class registers such a module. *)
Theorem bias_free_module_breaks_init (init : constructors)
    (Model_modules : Embedding -> list CNNLayer -> bool -> Z -> module)
    (emb : Embedding) (cfg : config) :
  (forall tree path n,
      submodule tree path = Some n ->
      is_conv_or_linear (classname_of n) = true ->
      dict_get (attrs_of n) "bias" = Some None \/ dict_get (attrs_of n) "bias" = None ->
      raises (apply weights_init tree) = true) /\
  ((forall ls ua fs, exists path n,
       submodule (Model_modules emb ls ua fs) path = Some n /\
       is_conv_or_linear (classname_of n) = true /\
       (dict_get (attrs_of n) "bias" = Some None \/
        dict_get (attrs_of n) "bias" = None)) ->
   raises (setup_model init Model_modules emb cfg) = true).
Proof.
  assert (Happly : forall tree path n,
      submodule tree path = Some n ->
      is_conv_or_linear (classname_of n) = true ->
      dict_get (attrs_of n) "bias" = Some None \/ dict_get (attrs_of n) "bias" = None ->
      raises (apply weights_init tree) = true).
  { intros tree path n Hn Hc Hb. apply apply_weights_init_unready.
    apply (all_ready_false_submodule path tree n Hn).
    destruct n as [c a cs]. cbn [all_ready]. cbn in Hc, Hb.
    now rewrite (node_unready_no_bias c a Hc Hb). }
  split; [exact Happly|].
  intros Hbad. unfold setup_model.
  destruct (setup_model_loop _ _ _ _) as [[ls szs]|e]; [|reflexivity].
  cbn [mbind result_bind].
  match goal with
  | |- raises (?r ≫= _) = true => destruct r as [fs|e]; [|reflexivity]
  end.
  cbn [mbind result_bind]. unfold construct.
  destruct (init _); [reflexivity|].
  cbn [mbind result_bind]. apply raises_bind_l.
  destruct (Hbad ls (use_all_layer_outputs (cfg_model cfg)) fs)
    as (path & n & Hn & Hc & Hb).
  eapply Happly; eauto.
Qed.

Lemma bias_free_module_breaks_init_witness :
  raises (setup_model checking bias_free_modules [] all_outputs_config) = true.
Proof.
  apply (proj2 (bias_free_module_breaks_init checking bias_free_modules []
                  all_outputs_config)).
  intros ls ua fs. exists [0%nat], (Module "Conv2d"
    [("weight", Some (mkTensor 4 [])); ("bias", None)] []).
  split; [reflexivity|]. split; [reflexivity|]. left. reflexivity.
Defined.

(** ** When [make_block] does load weights *)

Lemma dict_contains_same_keys {V W} (d1 : dict V) (d2 : dict W) (k : string) :
  keys d1 = keys d2 -> dict_contains d1 k = dict_contains d2 k.
Proof.
  intros Hk. pose proof (dict_contains_keys d1 k) as H1.
  pose proof (dict_contains_keys d2 k) as H2. rewrite Hk in H1.
  destruct (dict_contains d1 k), (dict_contains d2 k); try reflexivity.
  - symmetry. apply H2, H1. reflexivity.
  - apply H1, H2. reflexivity.
Qed.

Lemma filter_none {A} (P : A -> Prop) `{!forall x, Decision (P x)} (l : list A) :
  Forall (fun x => ~ P x) l -> filter P l = [].
Proof.
  induction 1 as [|x l Hx _ IH]; [reflexivity|].
  rewrite filter_cons. destruct (decide (P x)); [contradiction | exact IH].
Qed.

Lemma make_block_loop_keys_stable (p : string) (items : dict weights) :
  forall bd : dict weights,
    (forall name w, (name, w) ∈ items -> str_contains p name = true ->
                    dict_contains bd (str_remove name p) = true ->
                    dict_contains bd name = true) ->
    keys (make_block_loop p items bd) = keys bd.
Proof.
  induction items as [|[name w] items IH]; intros bd H; [reflexivity|].
  cbn [make_block_loop].
  assert (Hstep : keys (if str_contains p name
                        then if dict_contains bd (str_remove name p)
                             then dict_setitem bd name w else bd
                        else bd) = keys bd).
  { destruct (str_contains p name) eqn:Hp; [|reflexivity].
    destruct (dict_contains bd (str_remove name p)) eqn:Hs; [|reflexivity].
    apply keys_setitem_present, dict_contains_keys.
    apply (H name w); [apply list_elem_of_here | exact Hp | exact Hs]. }
  rewrite IH; [exact Hstep|].
  intros name' w' Hin Hp' Hs'.
  rewrite (dict_contains_same_keys _ bd _ Hstep) in Hs'.
  rewrite (dict_contains_same_keys _ bd _ Hstep).
  apply (H name' w'); [now apply list_elem_of_further | exact Hp' | exact Hs'].
Qed.

Lemma make_block_loop_value (p : string) (items : dict weights) :
  forall (bd : dict weights) (name : string) (w : weights),
    NoDup (keys items) ->
    (name, w) ∈ items ->
    str_contains p name = true ->
    dict_contains bd (str_remove name p) = true ->
    dict_get (make_block_loop p items bd) name = Some w.
Proof.
  induction items as [|[name' w'] items IH]; intros bd name w Hnd Hin Hp Hs.
  - apply elem_of_nil in Hin as [].
  - unfold keys in Hnd. rewrite fmap_cons in Hnd.
    apply NoDup_cons in Hnd as [Hfresh Hnd]. cbn [make_block_loop].
    apply elem_of_cons in Hin as [[= <- <-]|Hin].
    + rewrite Hp, Hs. rewrite make_block_loop_keeps_fresh by exact Hfresh.
      apply dict_get_setitem_eq.
    + apply IH; [exact Hnd | exact Hin | exact Hp |].
      destruct (str_contains p name'); [|exact Hs].
      destruct (dict_contains bd (str_remove name' p)); [|exact Hs].
      now apply dict_contains_setitem_mono.
Qed.

Lemma make_block_loop_unmatched (p : string) (items : dict weights) (k : string) :
  forall bd : dict weights,
    (forall name w, (name, w) ∈ items -> str_contains p name = true ->
                    dict_contains bd (str_remove name p) = true ->
                    dict_contains bd name = true) ->
    (forall w, (k, w) ∈ items -> str_contains p k = true ->
               dict_contains bd (str_remove k p) = false) ->
    dict_get (make_block_loop p items bd) k = dict_get bd k.
Proof.
  induction items as [|[name w] items IH]; intros bd H Hk; [reflexivity|].
  cbn [make_block_loop].
  set (bd1 := if str_contains p name
              then if dict_contains bd (str_remove name p)
                   then dict_setitem bd name w else bd
              else bd).
  assert (Hkeys : keys bd1 = keys bd).
  { unfold bd1. destruct (str_contains p name) eqn:Hp; [|reflexivity].
    destruct (dict_contains bd (str_remove name p)) eqn:Hs; [|reflexivity].
    apply keys_setitem_present, dict_contains_keys.
    apply (H name w); [apply list_elem_of_here | exact Hp | exact Hs]. }
  assert (Hval : dict_get bd1 k = dict_get bd k).
  { unfold bd1. destruct (str_contains p name) eqn:Hp; [|reflexivity].
    destruct (dict_contains bd (str_remove name p)) eqn:Hs; [|reflexivity].
    apply dict_get_setitem_ne. intros ->.
    rewrite (Hk w (list_elem_of_here _ _) Hp) in Hs. discriminate. }
  rewrite IH; [exact Hval | |].
  - intros name' w' Hin Hp' Hs'.
    rewrite (dict_contains_same_keys _ bd _ Hkeys) in Hs'.
    rewrite (dict_contains_same_keys _ bd _ Hkeys).
    apply (H name' w'); [now apply list_elem_of_further | exact Hp' | exact Hs'].
  - intros w' Hin Hp'. rewrite (dict_contains_same_keys _ bd _ Hkeys).
    apply (Hk w'); [now apply list_elem_of_further | exact Hp'].
Qed.

Lemma size_mismatch_shape (given : dict weights) (k : string) (w0 w : weights) :
  dict_get given k = Some w ->
  size_mismatch given (k, w0) = negb (bool_decide (shape w = shape w0)).
Proof. intros H. unfold size_mismatch. cbn [fst snd]. now rewrite H. Qed.

Lemma load_state_dict_mismatch (own given : dict weights) (k : string) (w0 w : weights) :
  (k, w0) ∈ own -> dict_get given k = Some w -> shape w <> shape w0 ->
  load_state_dict own given = Raise state_dict_error.
Proof.
  intros Hin Hg Hne. unfold load_state_dict.
  assert (Hbad : (k, w0) ∈ filter (fun kv => size_mismatch given kv = true) own).
  { apply list_elem_of_filter. split; [|exact Hin].
    rewrite (size_mismatch_shape given k w0 w Hg).
    now rewrite bool_decide_eq_false_2. }
  destruct (filter (fun k => dict_contains given k = false) (keys own));
    destruct (filter (fun k => dict_contains own k = false) (keys given));
    try reflexivity.
  destruct (filter _ own); [|reflexivity].
  apply elem_of_nil in Hbad as [].
Qed.

Lemma load_state_dict_same_keys (own given : dict weights) :
  keys given = keys own ->
  (forall k w0 w, (k, w0) ∈ own -> dict_get given k = Some w -> shape w = shape w0) ->
  exists loaded,
    load_state_dict own given = Ok loaded /\
    keys loaded = keys own /\
    (forall k, k ∈ keys own -> dict_get loaded k = dict_get given k).
Proof.
  intros Hk Hshape. unfold load_state_dict.
  rewrite (filter_none (fun k => dict_contains given k = false) (keys own)).
  2:{ apply Forall_forall. intros k Hin. rewrite <- Hk in Hin.
      apply dict_contains_keys in Hin. congruence. }
  rewrite (filter_none (fun k => dict_contains own k = false) (keys given)).
  2:{ apply Forall_forall. intros k Hin. rewrite Hk in Hin.
      apply dict_contains_keys in Hin. congruence. }
  rewrite (filter_none (fun kv => size_mismatch given kv = true) own).
  2:{ apply Forall_forall. intros [k w0] Hin. unfold size_mismatch. cbn [fst snd].
      destruct (dict_get given k) as [w|] eqn:Hg; [|discriminate].
      rewrite (bool_decide_eq_true_2 _ (Hshape k w0 w Hin Hg)). discriminate. }
  eexists. split; [reflexivity|]. split.
  - unfold keys. rewrite <- list_fmap_compose. reflexivity.
  - intros k Hin. rewrite <- Hk in Hin.
    apply dict_contains_keys in Hin. unfold dict_contains in Hin.
    destruct (dict_get given k) as [v|] eqn:Hv; [|discriminate].
    assert (Hown : k ∈ keys own)
      by (rewrite <- Hk; apply dict_contains_keys; unfold dict_contains; now rewrite Hv).
    clear Hk Hin Hshape. induction own as [|[k0 v0] own IH].
    + apply elem_of_nil in Hown as [].
    + cbn [fmap list_fmap dict_get fst snd].
      destruct (String.eqb_spec k k0) as [->|Hne].
      * now rewrite Hv.
      * apply IH. unfold keys in Hown. rewrite fmap_cons in Hown.
        apply elem_of_cons in Hown as [?|?]; [contradiction | assumption].
Qed.

(** X10: [make_block] returns when every saved name that contains the prefix
    and names a block parameter once the prefix is removed is itself a
    parameter name of the block (as is always the case for the empty
    prefix) and is saved in the shape of that parameter. The block then
    keeps its parameter names, holds the saved weights under each such saved
    name, and keeps its fresh weights under every other name. So when no
    saved name matches, for instance with a prefix that occurs in no saved
    name, the call returns the freshly initialised block without any
    notice. A matching saved tensor of another shape makes the call raise
    the error of [load_state_dict]. *)
Theorem make_block_loads_own_names (init : constructors)
    (state_dict : Block -> dict weights) (model_dict : dict weights)
    (block_prefix : string) (ml : Z) (bc : block_config) (b : Block) (sz : Z) :
  setup_block init ml bc = Ok (b, sz) ->
  NoDup (keys model_dict) ->
  NoDup (keys (state_dict b)) ->
  (block_prefix = EmptyString \/
   forall name w, (name, w) ∈ model_dict ->
                  str_contains block_prefix name = true ->
                  dict_contains (state_dict b) (str_remove name block_prefix) = true ->
                  dict_contains (state_dict b) name = true) ->
  ((forall name w w0,
       (name, w) ∈ model_dict ->
       str_contains block_prefix name = true ->
       dict_contains (state_dict b) (str_remove name block_prefix) = true ->
       dict_get (state_dict b) name = Some w0 ->
       shape w = shape w0) ->
   exists loaded,
     make_block init state_dict model_dict block_prefix ml bc = Ok ((b, loaded), sz) /\
     keys loaded = keys (state_dict b) /\
     (forall name w, (name, w) ∈ model_dict ->
                     str_contains block_prefix name = true ->
                     dict_contains (state_dict b) (str_remove name block_prefix) = true ->
                     dict_get loaded name = Some w) /\
     (forall k,
         (forall w, (k, w) ∈ model_dict ->
                    str_contains block_prefix k = true ->
                    dict_contains (state_dict b) (str_remove k block_prefix) = false) ->
         dict_get loaded k = dict_get (state_dict b) k)) /\
  (forall name w w0,
      (name, w) ∈ model_dict ->
      str_contains block_prefix name = true ->
      dict_contains (state_dict b) (str_remove name block_prefix) = true ->
      dict_get (state_dict b) name = Some w0 ->
      shape w <> shape w0 ->
      make_block init state_dict model_dict block_prefix ml bc = Raise state_dict_error).
Proof.
  intros Hb Hnd Hnd0 Hown.
  assert (H : forall name w, (name, w) ∈ model_dict ->
                str_contains block_prefix name = true ->
                dict_contains (state_dict b) (str_remove name block_prefix) = true ->
                dict_contains (state_dict b) name = true).
  { destruct Hown as [-> | H]; [|exact H]. intros name w _ _ Hs. exact Hs. }
  pose proof (make_block_loop_keys_stable block_prefix model_dict (state_dict b) H)
    as Hkeys.
  assert (Hval : forall k w0 w,
             (k, w0) ∈ state_dict b ->
             dict_get (make_block_loop block_prefix model_dict (state_dict b)) k = Some w ->
             w = w0 \/
             (k, w) ∈ model_dict /\ str_contains block_prefix k = true /\
             dict_contains (state_dict b) (str_remove k block_prefix) = true).
  { intros k w0 w Hin Hget.
    assert (Hcase :
      (exists w', (k, w') ∈ model_dict /\ str_contains block_prefix k = true /\
                  dict_contains (state_dict b) (str_remove k block_prefix) = true) \/
      (forall w', (k, w') ∈ model_dict -> str_contains block_prefix k = true ->
                  dict_contains (state_dict b) (str_remove k block_prefix) = false)).
    { destruct (dict_get model_dict k) as [w'|] eqn:Hm.
      - apply dict_get_Some_elem in Hm.
        destruct (str_contains block_prefix k) eqn:Hp; [|right; discriminate].
        destruct (dict_contains (state_dict b) (str_remove k block_prefix)) eqn:Hs;
          [left; eauto | right; reflexivity].
      - right. intros w' Hin'. exfalso. apply dict_get_None in Hm. apply Hm.
        now apply (list_elem_of_fmap_2 fst) in Hin'. }
    destruct Hcase as [(w' & Hin' & Hp & Hs)|Hno].
    - right. rewrite (make_block_loop_value _ _ _ _ _ Hnd Hin' Hp Hs) in Hget.
      injection Hget as <-. auto.
    - left. rewrite make_block_loop_unmatched in Hget; [|exact H|exact Hno].
      rewrite (dict_get_elem_NoDup _ _ _ Hnd0 Hin) in Hget. congruence. }
  split.
  - intros Hshape.
    destruct (load_state_dict_same_keys (state_dict b)
                (make_block_loop block_prefix model_dict (state_dict b)) Hkeys)
      as (loaded & Hload & Hlk & Hlv).
    { intros k w0 w Hin Hget.
      destruct (Hval k w0 w Hin Hget) as [->|(Hin' & Hp & Hs)]; [reflexivity|].
      apply (Hshape k w w0 Hin' Hp Hs). now apply dict_get_elem_NoDup. }
    exists loaded. unfold make_block. rewrite Hb. cbn [mbind result_bind].
    rewrite Hload. split; [reflexivity|]. split; [exact Hlk|]. split.
    + intros name w Hin Hp Hs. rewrite Hlv.
      * now apply make_block_loop_value.
      * apply dict_contains_keys. now apply (H name w).
    + intros k Hk. destruct (decide (k ∈ keys (state_dict b))) as [Hin|Hnin].
      * rewrite Hlv by exact Hin. now apply make_block_loop_unmatched.
      * rewrite (proj2 (dict_get_None (state_dict b) k) Hnin).
        apply dict_get_None. now rewrite Hlk.
  - intros name w w0 Hin Hp Hs Hget Hne.
    unfold make_block. rewrite Hb. cbn [mbind result_bind].
    rewrite (load_state_dict_mismatch _ _ name w0 w); [reflexivity| | |exact Hne].
    + now apply dict_get_Some_elem.
    + now apply make_block_loop_value.
Qed.

Lemma make_block_loads_own_names_witness :
  (exists loaded,
     make_block checking sample_state_dict plain_model_dict EmptyString 40 bcnn_config
       = Ok ((bcnn_block, loaded), 50) /\
     dict_get loaded "conv.weight" = Some (mkWeights [2%nat] [1%Q; 2%Q]) /\
     dict_get loaded "conv.bias" = Some (mkWeights [1%nat] [0%Q])) /\
  make_block checking sample_state_dict reshaped_model_dict EmptyString 40 bcnn_config
    = Raise state_dict_error.
Proof.
  split.
  - destruct (make_block_loads_own_names checking sample_state_dict plain_model_dict
                EmptyString 40 bcnn_config bcnn_block 50 eq_refl) as [Hrun _].
    + compute_done.
    + compute_done.
    + left. reflexivity.
    + destruct Hrun as (loaded & Hrun & _ & Hsaved & Hfresh).
      * intros name w w0 Hin _ _ Hget. unfold plain_model_dict in Hin.
        apply elem_of_cons in Hin as [[= -> ->]|Hin];
          [injection Hget as <-; reflexivity|].
        apply elem_of_cons in Hin as [[= -> ->]|Hin]; [discriminate|].
        apply elem_of_nil in Hin as [].
      * exists loaded. split; [exact Hrun|]. split.
        -- apply (Hsaved "conv.weight" (mkWeights [2%nat] [1%Q; 2%Q]));
             [apply list_elem_of_here | reflexivity | reflexivity].
        -- rewrite Hfresh; [reflexivity|].
           intros w Hin. exfalso.
           unfold plain_model_dict in Hin.
           repeat (apply elem_of_cons in Hin as [Hin|Hin]; [discriminate|]).
           apply elem_of_nil in Hin as [].
  - destruct (make_block_loads_own_names checking sample_state_dict reshaped_model_dict
                EmptyString 40 bcnn_config bcnn_block 50 eq_refl) as [_ Hbad].
    + compute_done.
    + compute_done.
    + left. reflexivity.
    + apply (Hbad "conv.weight" (mkWeights [3%nat] [1%Q; 2%Q; 3%Q])
                  (mkWeights [2%nat] [0%Q; 0%Q]));
        [apply list_elem_of_here | reflexivity | reflexivity | reflexivity
        | discriminate].
Defined.

(** ** The parsed texts *)

Lemma encodes_truncate_pad (d : dict Z) (ws : list string) (idxs : list Z)
    (ml : Z) (pw : string) (pi : Z) :
  encodes d ws idxs -> dict_get d pw = Some pi ->
  encodes d (truncate_pad ml pw ws) (truncate_pad ml pi idxs).
Proof.
  intros Henc Hp. unfold encodes in *.
  pose proof (Forall2_length _ _ _ Henc) as Hlen.
  unfold truncate_pad, len. rewrite Hlen.
  set (n := if Z.of_nat (length idxs) <? ml then Z.of_nat (length idxs) else ml).
  assert (Hslice : Forall2 (fun w i => dict_get d w = Some i)
                           (slice_to ws n) (slice_to idxs n)).
  { unfold slice_to. rewrite Hlen. destruct (n <? 0); now apply Forall2_take. }
  destruct (n <? ml); [|exact Hslice].
  apply Forall2_app; [exact Hslice|]. now apply Forall2_replicate.
Qed.

Section ParsedTexts.
Variable text_to_word_list : string -> list string.
Variable stopwords_english : list string.
Variable overflow : exn.

#[local] Abbreviation tokens := (tokens text_to_word_list stopwords_english).
#[local] Abbreviation index_question := (index_question text_to_word_list stopwords_english).
#[local] Abbreviation index_columns := (index_columns text_to_word_list stopwords_english).
#[local] Abbreviation index_rows := (index_rows text_to_word_list stopwords_english).
#[local] Abbreviation example_ok := (example_ok text_to_word_list stopwords_english).
#[local] Abbreviation dataset_ok := (dataset_ok text_to_word_list stopwords_english).
#[local] Abbreviation setup_datasets_loop :=
  (setup_datasets_loop text_to_word_list stopwords_english overflow).
#[local] Abbreviation setup_datasets :=
  (setup_datasets text_to_word_list stopwords_english overflow).
#[local] Abbreviation parsed_row := (parsed_row text_to_word_list stopwords_english).
#[local] Abbreviation parsed_texts := (parsed_texts text_to_word_list stopwords_english).

Lemma index_words_length (ws : list string) :
  forall (d : dict Z) (acc : list Z) (d' : dict Z) (idxs : list Z),
    index_words d ws acc = Ok (d', idxs) ->
    length idxs = (length acc + length ws)%nat.
Proof.
  induction ws as [|w ws IH]; intros d acc d' idxs H.
  - injection H as <- <-. simpl. lia.
  - cbn [index_words] in H. apply bind_Ok in H as ([d1 i] & _ & H).
    apply IH in H. rewrite H, List.length_app. simpl. lia.
Qed.

Lemma index_question_words (ml : Z) (d d' : dict Z) (q : string)
    (s : list Z) (ws : list string) :
  index_question ml d q = Ok (d', (s, ws)) ->
  ws = truncate_pad ml "<PAD>" (tokens q).
Proof.
  unfold index_question. fold (tokens q). intros H.
  apply bind_Ok in H as ([d1 idxs] & Hidx & H).
  apply index_words_length in Hidx. simpl in Hidx.
  assert (Hlen : len idxs = len (tokens q)) by (unfold len; now rewrite Hidx).
  unfold truncate_pad. rewrite <- Hlen.
  destruct ((if len idxs <? ml then len idxs else ml) <? ml);
    injection H as _ _ <-; reflexivity.
Qed.

Lemma index_columns_words (ml : Z) (cols : list (example -> string)) (e : example) :
  forall (d : dict Z) (m : list (list Z)) (p : list (list string))
         (d' : dict Z) (m' : list (list Z)) (p' : list (list string)),
    index_columns ml cols e d m p = Ok (d', (m', p')) ->
    p' = p ++ ((fun column => truncate_pad ml "<PAD>" (tokens (column e))) <$> cols).
Proof.
  induction cols as [|col cols IH]; intros d m p d' m' p' H.
  - injection H as _ _ <-. now rewrite app_nil_r.
  - cbn [index_columns] in H. apply bind_Ok in H as ([d1 [s ws]] & Hq & H).
    apply index_question_words in Hq. subst ws.
    apply IH in H. rewrite H, <- app_assoc. reflexivity.
Qed.

Lemma index_rows_words (ml : Z) (rows : list example) :
  forall (d : dict Z) (lb : list Z) (ie : list (list (list Z)))
         (pt : list (list (list string))) (d' : dict Z) (lb' : list Z)
         (ie' : list (list (list Z))) (pt' : list (list (list string))),
    index_rows ml rows d lb ie pt = Ok (d', (lb', ie', pt')) ->
    pt' = pt ++ parsed_texts ml rows.
Proof.
  induction rows as [|e rows IH]; intros d lb ie pt d' lb' ie' pt' H.
  - injection H as _ _ _ <-. now rewrite app_nil_r.
  - cbn [index_rows] in H. apply bind_Ok in H as ([d1 [m p]] & Hc & H).
    apply index_columns_words in Hc. simpl in Hc. subst p.
    apply IH in H. rewrite H, <- app_assoc. reflexivity.
Qed.

Lemma setup_datasets_loop_texts (l : loc) (ml : Z) (items : dict dataset) :
  forall (texts : dict (list (list (list string)))) (d : dict Z) (h : heap)
         l' texts' d' h' name rows,
    setup_datasets_loop l ml items texts d h = Ok ((l', texts', d'), h') ->
    NoDup (keys items) ->
    dict_get items name = Some (Frame rows) ->
    dict_get texts' name = Some (parsed_texts ml rows).
Proof.
  induction items as [|[n ds] rest IH];
    intros texts d h l' texts' d' h' name rows H Hnd Hget.
  - discriminate.
  - unfold keys in Hnd. rewrite fmap_cons in Hnd.
    apply NoDup_cons in Hnd as [Hfresh Hnd]. simpl in Hfresh.
    destruct ds as [rows0|t]; [|discriminate].
    cbn [setup_datasets_loop] in H. cbn [mbind result_bind] in H.
    apply bind_Ok in H as ([d1 [[lb ie] pt]] & Hrows & H).
    apply index_rows_words in Hrows. simpl in Hrows. subst pt.
    apply bind_Ok in H as (lb' & _ & H).
    apply bind_Ok in H as (ie' & _ & H).
    apply bind_Ok in H as (t & _ & H).
    apply bind_Ok in H as (dd & _ & H).
    cbn [dict_get] in Hget. destruct (String.eqb_spec name n) as [->|Hne].
    + injection Hget as <-.
      assert (Hkeep : forall items texts d h l' texts' d' h',
                 setup_datasets_loop l ml items texts d h = Ok ((l', texts', d'), h') ->
                 n ∉ keys items -> dict_get texts' n = dict_get texts n).
      { clear. induction items as [|[n' ds'] items IHi];
          intros texts d h l' texts' d' h' H Hn.
        - injection H as _ <- _ _. reflexivity.
        - unfold keys in Hn. rewrite fmap_cons in Hn.
          apply not_elem_of_cons in Hn as [Hne Hn]. simpl in Hne.
          destruct ds' as [rows'|t']; [|discriminate].
          cbn [setup_datasets_loop] in H. cbn [mbind result_bind] in H.
          apply bind_Ok in H as ([d1 [[lb ie] pt]] & _ & H).
          apply bind_Ok in H as (lb' & _ & H).
          apply bind_Ok in H as (ie' & _ & H).
          apply bind_Ok in H as (t & _ & H).
          apply bind_Ok in H as (dd & _ & H).
          rewrite (IHi _ _ _ _ _ _ _ H Hn).
          apply dict_get_setitem_ne. congruence. }
      rewrite (Hkeep _ _ _ _ _ _ _ _ H Hfresh). apply dict_get_setitem_eq.
    + eapply IH; eauto.
Qed.

(** X11: the parsed texts that [setup_datasets] returns line up with the
    tensors it stores. Under each dataset name the texts hold, per row and
    question, the tokens cut or padded with the padding word; the tensors
    have the same nesting, and the word at every position has, under the
    returned [word2index], the index stored at that position. *)
Theorem texts_match_tensors (l : loc) (es ml : Z) (h : heap) (d0 : dict dataset)
    (l' : loc) (texts : dict (list (list (list string)))) (w2i : dict Z)
    (h' : heap) (d' : dict dataset) (name : string) (rows : list example) :
  h !! l = Some d0 ->
  NoDup (keys d0) ->
  setup_datasets l es ml h = Ok ((l', texts, w2i), h') ->
  h' !! l' = Some d' ->
  dict_get d0 name = Some (Frame rows) ->
  dict_get texts name = Some (parsed_texts ml rows) /\
  exists t,
    dict_get d' name = Some (Tensors t) /\
    Forall2 (Forall2 (encodes w2i)) (parsed_texts ml rows) (indexed_examples t).
Proof.
  intros Hh Hnd Hrun Hh' Hget.
  destruct (setup_datasets_spec text_to_word_list stopwords_english overflow
              l es ml h d0 Hh Hnd) as [_ H2].
  destruct (H2 _ _ _ _ Hrun) as (-> & Hok & d1 & -> & Hall).
  rewrite lookup_insert_eq in Hh'. injection Hh' as ->.
  split.
  - unfold setup_datasets in Hrun. rewrite (deref_Some _ _ _ Hh) in Hrun.
    cbn [mbind result_bind] in Hrun.
    eapply setup_datasets_loop_texts; eauto.
  - apply dict_get_Some_elem in Hget as Hin.
    apply list_elem_of_lookup_1 in Hin as [k Hk].
    destruct (Forall2_lookup_l _ _ _ _ _ Hall Hk) as ([name' ds'] & Hk' & Hok').
    destruct Hok' as (Hname & rows' & exs & Hfrm & Hds' & Hrows). simpl in *.
    injection Hfrm as <-. subst name' ds'.
    exists (mkTensorDataset exs (is_duplicate <$> rows)). split.
    + apply dict_get_elem_NoDup.
      * now rewrite (dataset_ok_keys _ _ _ _ _ _ Hall).
      * eapply list_elem_of_lookup_2; eauto.
    + cbn [indexed_examples]. unfold parsed_texts. apply Forall2_fmap_l.
      eapply Forall2_impl; [exact Hrows|].
      intros e m He. unfold parsed_row. apply Forall2_fmap_l.
      eapply Forall2_impl; [exact He|].
      intros col s (idxs & Henc & ->). cbn.
      apply encodes_truncate_pad; [exact Henc | now apply vocab_ok_PAD].
Qed.

End ParsedTexts.

Lemma texts_match_tensors_witness :
  exists texts,
    dict_get texts "test" = Some [[["iron"; "work"; "<PAD>"; "<PAD>"];
                                   ["work"; "<PAD>"; "<PAD>"; "<PAD>"]]] /\
    encodes sample_word2index ["iron"; "work"; "<PAD>"; "<PAD>"] [4; 2; 0; 0].
Proof.
  destruct sample_run as [texts Hrun]. exists texts.
  destruct (texts_match_tensors split_spaces sample_stops sample_overflow 1%nat 300 4 sample_heap
              sample_frames 1%nat texts sample_word2index
              (<[1%nat := sample_tensors]> sample_heap) sample_tensors
              "test" [mkExample "iron work" "work" 1])
    as (Htexts & t & Ht & Hall).
  - reflexivity.
  - compute_done.
  - exact Hrun.
  - reflexivity.
  - reflexivity.
  - split; [exact Htexts|]. injection Ht as <-.
    apply Forall2_cons_1 in Hall as [Hrow _].
    apply Forall2_cons_1 in Hrow as [Hq _]. exact Hq.
Defined.

(** ** The vocabulary is exactly the words seen *)

Section Vocabulary.
Variable text_to_word_list : string -> list string.
Variable stopwords_english : list string.
Variable overflow : exn.

#[local] Abbreviation tokens := (tokens text_to_word_list stopwords_english).
#[local] Abbreviation index_question := (index_question text_to_word_list stopwords_english).
#[local] Abbreviation index_columns := (index_columns text_to_word_list stopwords_english).
#[local] Abbreviation index_rows := (index_rows text_to_word_list stopwords_english).
#[local] Abbreviation setup_datasets_loop :=
  (setup_datasets_loop text_to_word_list stopwords_english overflow).
#[local] Abbreviation setup_datasets :=
  (setup_datasets text_to_word_list stopwords_english overflow).
#[local] Abbreviation row_tokens := (row_tokens text_to_word_list stopwords_english).
#[local] Abbreviation frame_tokens := (frame_tokens text_to_word_list stopwords_english).
#[local] Abbreviation all_tokens := (all_tokens text_to_word_list stopwords_english).

(** X12: the words of the returned [word2index] are the padding word followed
    by the distinct tokens of all questions of all datasets, in the order of
    their first occurrence. Tokens are indexed before the question is cut to
    [max_length], so a word that is cut away from every sequence is in the
    vocabulary all the same. *)
Theorem word2index_is_words_seen (l : loc) (es ml : Z) (h : heap)
    (d0 : dict dataset) (l' : loc) (texts : dict (list (list (list string))))
    (w2i : dict Z) (h' : heap) :
  h !! l = Some d0 ->
  setup_datasets l es ml h = Ok ((l', texts, w2i), h') ->
  keys w2i = "<PAD>" :: new_words ["<PAD>"] (all_tokens d0) /\
  (forall w, dict_contains w2i w = true <-> w = "<PAD>" \/ w ∈ all_tokens d0).
Proof.
  intros Hh Hrun.
  pose proof (setup_datasets_keys _ _ _ _ _ _ _ _ _ _ _ _ Hh Hrun) as Hkeys.
  clear Hrun. rename Hkeys into Hrun. split; [exact Hrun|].
  intros w. rewrite dict_contains_keys, Hrun, elem_of_cons, elem_of_new_words.
  rewrite list_elem_of_singleton. destruct (decide (w = "<PAD>")); tauto.
Qed.

End Vocabulary.

Lemma word2index_is_words_seen_witness :
  keys sample_word2index =
    "<PAD>" :: new_words ["<PAD>"] (all_tokens split_spaces sample_stops sample_frames) /\
  dict_contains sample_word2index "easily" = true.
Proof.
  destruct sample_run as [texts Hrun].
  destruct (word2index_is_words_seen split_spaces sample_stops sample_overflow
              1%nat 300 4 sample_heap sample_frames 1%nat texts sample_word2index
              _ eq_refl Hrun)
    as [Hkeys Hmem].
  split; [exact Hkeys|]. apply Hmem. right. compute_done.
Defined.

(** ** [text_to_word_list] *)

Lemma Str_all_app (P : ascii -> Prop) (s t : string) :
  Str_all P (s ++ t)%string <-> Str_all P s /\ Str_all P t.
Proof. induction s as [|c s IH]; simpl; [tauto | rewrite IH; tauto]. Qed.

Lemma Str_all_impl (P Q : ascii -> Prop) (s : string) :
  (forall c, P c -> Q c) -> Str_all P s -> Str_all Q s.
Proof. intros H. induction s as [|c s IH]; simpl; [tauto | intuition]. Qed.

Lemma clean_charb_spec (ex : list ascii) (c : ascii) :
  clean_charb ex c = true <-> clean_char ex c.
Proof.
  unfold clean_charb, clean_char. rewrite !orb_true_iff, Ascii.eqb_eq.
  rewrite existsb_exists. split.
  - intros [[H|H]|(x & Hin & Hx)]; [tauto | tauto |].
    apply Ascii.eqb_eq in Hx as <-. right. right. now apply list_elem_of_In.
  - intros [H|[H|H]]; [tauto | tauto |]. right. exists c.
    split; [now apply list_elem_of_In | apply Ascii.eqb_refl].
Qed.

Ltac each_char c :=
  destruct c as [[] [] [] [] [] [] [] []]; try reflexivity; try discriminate.

Lemma lower_char_not_upper (c : ascii) : in_range 65 90 (lower_char c) = false.
Proof. each_char c. Qed.

Lemma str_lower_not_upper (s : string) :
  Str_all (fun c => in_range 65 90 c = false) (str_lower s).
Proof.
  induction s as [|c s IH]; simpl; [exact I|].
  split; [apply lower_char_not_upper | exact IH].
Qed.

Lemma class_char_clean (c : ascii) :
  in_range 65 90 c = false ->
  clean_charb [","; "."; "/"; "'"]%char (if in_class c then c else " "%char) = true.
Proof. each_char c. Qed.

Lemma sub_not_in_class_clean (s : string) :
  Str_all (fun c => in_range 65 90 c = false) s ->
  Str_all (clean_char [","; "."; "/"; "'"]%char) (sub_not_in_class s).
Proof.
  induction s as [|c s IH]; simpl; [tauto|]. intros [Hc Hs].
  split; [|now apply IH]. now apply clean_charb_spec, class_char_clean.
Qed.

(** A replacement keeps a property that the replacement text has. *)
Lemma str_replace_go_all (P : ascii -> Prop) (old new : string) (s : string) :
  Str_all P new ->
  forall skip, Str_all P s -> Str_all P (str_replace_go old new skip s).
Proof.
  intros Hnew. induction s as [|c s IH]; intros skip Hs; [exact I|].
  destruct Hs as [Hc Hs]. cbn [str_replace_go]. destruct skip as [|k].
  - destruct (String.prefix old (String c s)).
    + apply Str_all_app. split; [exact Hnew | now apply IH].
    + split; [exact Hc | now apply IH].
  - now apply IH.
Qed.

Lemma str_intersperse_all (P : ascii -> Prop) (new s : string) :
  Str_all P new -> Str_all P s -> Str_all P (str_intersperse new s).
Proof.
  intros Hnew. induction s as [|c s IH]; simpl; [tauto|]. intros [Hc Hs].
  apply Str_all_app. split; [exact Hnew|]. split; [exact Hc | now apply IH].
Qed.

Lemma re_sub_all (P : ascii -> Prop) (old new s : string) :
  Str_all P new -> Str_all P s -> Str_all P (re_sub old new s).
Proof.
  intros Hnew Hs. unfold re_sub. destruct old.
  - now apply str_intersperse_all.
  - now apply str_replace_go_all.
Qed.

(** Replacing a single character removes it. *)
Lemma re_sub_char_removes (ex : list ascii) (c : ascii) (new s : string) :
  Str_all (clean_char ex) new ->
  Str_all (clean_char (c :: ex)) s ->
  Str_all (clean_char ex) (re_sub (String c EmptyString) new s).
Proof.
  intros Hnew. unfold re_sub. induction s as [|c' s IH]; [intros _; exact I|].
  intros [Hc Hs]. cbn [str_replace_go String.prefix String.length Nat.sub].
  destruct (Ascii.ascii_dec c c') as [->|Hne].
  - destruct s; cbn [String.prefix];
      (apply Str_all_app; split; [exact Hnew | now apply IH]).
  - split; [|now apply IH].
    destruct Hc as [H|[H|H]]; [left; exact H | right; left; exact H|].
    apply elem_of_cons in H as [->|H]; [contradiction|]. right. right. exact H.
Qed.

Lemma sub_digits_k_all (P : ascii -> Prop) (s : string) :
  P "0"%char ->
  forall after_digit, Str_all P s -> Str_all P (sub_digits_k after_digit s).
Proof.
  intros H0. induction s as [|c s IH]; intros b Hs; [exact I|].
  destruct Hs as [Hc Hs]. cbn [sub_digits_k].
  destruct (b && Ascii.eqb c "k"%char).
  - simpl. repeat split; try exact H0. now apply IH.
  - split; [exact Hc | now apply IH].
Qed.

Lemma sub_spaces_all (P : ascii -> Prop) (s : string) :
  P " "%char ->
  forall in_run, Str_all P s -> Str_all P (sub_spaces in_run s).
Proof.
  intros Hsp. induction s as [|c s IH]; intros b Hs; [exact I|].
  destruct Hs as [Hc Hs]. cbn [sub_spaces].
  destruct (is_space c); [|split; [exact Hc | now apply IH]].
  destruct b; [now apply IH|].
  destruct s as [|c' s']; [split; [exact Hc | exact I]|].
  destruct (is_space c'); split; try assumption; now apply IH.
Qed.

Lemma str_split_go_words (P : ascii -> Prop) (s : string) :
  forall (current w : string),
    Str_all (fun c => is_space c = false /\ P c) current ->
    Str_all P s ->
    w ∈ str_split_go current s ->
    w <> EmptyString /\ Str_all (fun c => is_space c = false /\ P c) w.
Proof.
  induction s as [|c s IH]; intros current w Hcur Hs Hw; cbn [str_split_go] in Hw.
  - destruct current as [|c0 cur]; [apply elem_of_nil in Hw as []|].
    apply list_elem_of_singleton in Hw as ->. split; [discriminate | exact Hcur].
  - destruct Hs as [Hc Hs]. destruct (is_space c) eqn:Hsp.
    + destruct current as [|c0 cur].
      * apply (IH EmptyString w); [exact I | exact Hs | exact Hw].
      * apply elem_of_cons in Hw as [->|Hw]; [split; [discriminate | exact Hcur]|].
        apply (IH EmptyString w); [exact I | exact Hs | exact Hw].
    + apply (IH (current ++ String c EmptyString)%string w); [|exact Hs | exact Hw].
      apply Str_all_app. split; [exact Hcur|]. simpl. tauto.
Qed.

Lemma word_char_of_clean (c : ascii) :
  is_space c = false -> clean_char [] c -> word_char c = true.
Proof.
  intros Hsp [H|[->|H]]; [exact H | discriminate | apply elem_of_nil in H as []].
Qed.

Ltac clean_literal :=
  simpl; repeat split; apply clean_charb_spec; reflexivity.

Lemma cleaned_text_chars (text : string) (w : string) :
  w ∈ text_to_word_list text ->
  w <> EmptyString /\ Str_all (fun c => word_char c = true) w.
Proof.
  unfold text_to_word_list, str_split. cbv zeta. intros Hw.
  eapply (str_split_go_words (clean_char [])) in Hw; [| exact I |].
  - destruct Hw as [Hne Hall]. split; [exact Hne|].
    eapply Str_all_impl; [|exact Hall].
    intros c [Hsp Hc]. now apply word_char_of_clean.
  - clear Hw.
    apply sub_spaces_all; [clean_literal|].
    do 8 (apply re_sub_all; [clean_literal|]).
    apply sub_digits_k_all; [clean_literal|].
    apply re_sub_char_removes; [clean_literal|].
    do 4 (apply re_sub_all; [clean_literal|]).
    apply re_sub_char_removes; [clean_literal|].
    apply re_sub_all; [clean_literal|].
    apply re_sub_char_removes; [clean_literal|].
    apply re_sub_char_removes; [clean_literal|].
    do 9 (apply re_sub_all; [clean_literal|]).
    apply sub_not_in_class_clean, str_lower_not_upper.
Qed.

(** X13: every word that [text_to_word_list] returns is non-empty and
    consists of lower-case letters, digits and the signs ! ^ + - = : ; and
    the less-than sign only: no whitespace, no capital letter, no comma,
    full stop, slash or apostrophe. In particular the padding word is never
    a word of a text. *)
Theorem text_to_word_list_words (text : string) (w : string) :
  w ∈ text_to_word_list text ->
  w <> EmptyString /\
  Str_all (fun c => word_char c = true) w /\
  Str_all (fun c => is_space c = false /\ in_range 65 90 c = false /\
                    c <> ","%char /\ c <> "."%char /\ c <> "/"%char /\
                    c <> "'"%char /\ c <> ">"%char) w /\
  w <> "<PAD>".
Proof.
  intros Hw. destruct (cleaned_text_chars text w Hw) as [Hne Hall].
  split; [exact Hne|]. split; [exact Hall|]. split.
  - eapply Str_all_impl; [|exact Hall]. intros c Hc.
    repeat split; try (intros ->; discriminate); revert Hc; each_char c.
  - intros ->. simpl in Hall. destruct Hall as (_ & Hp & _). discriminate.
Qed.

Lemma text_to_word_list_words_witness :
  "cannot" <> EmptyString /\ "cannot" <> "<PAD>".
Proof.
  destruct (text_to_word_list_words "Can't <PAD> it's" "cannot") as (H1 & _ & _ & H2).
  - compute_done.
  - split; assumption.
Defined.

Lemma encodes_positive (stops : list string) (d : dict Z) (q : string)
    (idxs : list Z) :
  vocab_ok d ->
  encodes d (tokens text_to_word_list stops q) idxs ->
  Forall (fun i => 0 < i) idxs.
Proof.
  intros Hok Henc.
  assert (Hws : Forall (fun w => w <> "<PAD>") (tokens text_to_word_list stops q)).
  { apply Forall_forall. intros w Hw. unfold tokens, remove_stop_words in Hw.
    apply list_elem_of_filter in Hw as [_ Hw].
    apply cleaned_text_chars in Hw as [_ Hall]. intros ->.
    simpl in Hall. destruct Hall as (_ & Hp & _). discriminate. }
  unfold encodes in Henc.
  induction Henc as [|w i ws idxs Hw _ IH]; [constructor|].
  apply Forall_cons in Hws as [Hne Hws]. constructor; [|now apply IH].
  pose proof (vocab_ok_bound d w i Hok Hw) as Hb.
  assert (i <> 0); [|lia]. intros ->. apply Hne. eapply vocab_ok_zero; eauto.
Qed.

(** X14: with [text_to_word_list] as the cleaner, index 0 marks padding and
    nothing else: in every stored sequence the entries before position
    min(number of tokens, max_length) are positive and the entries from that
    position on are 0. The number of non-padding positions of a sequence can
    therefore be read off the sequence. *)
Theorem zero_marks_padding (stops : list string) (overflow : exn)
    (l : loc) (es ml : Z) (h : heap)
    (d0 : dict dataset) (l' : loc) (texts : dict (list (list (list string))))
    (w2i : dict Z) (h' : heap) (d' : dict dataset)
    (name : string) (t : TensorDataset) (i j : nat) (e : list (list Z))
    (s : list Z) :
  0 <= ml ->
  h !! l = Some d0 ->
  NoDup (keys d0) ->
  setup_datasets text_to_word_list stops overflow l es ml h
    = Ok ((l', texts, w2i), h') ->
  h' !! l' = Some d' ->
  dict_get d' name = Some (Tensors t) ->
  indexed_examples t !! i = Some e ->
  e !! j = Some s ->
  exists rows row column,
    dict_get d0 name = Some (Frame rows) /\
    rows !! i = Some row /\
    question_cols !! j = Some column /\
    forall k x, s !! k = Some x ->
      (x = 0 <->
       (Nat.min (length (tokens text_to_word_list stops (column row)))
                (Z.to_nat ml) <= k)%nat) /\
      0 <= x.
Proof.
  intros Hml Hh Hnd Hrun Hh' Hget Hi Hj.
  destruct (setup_datasets_spec text_to_word_list stops overflow l es ml h d0 Hh Hnd)
    as [_ H2].
  destruct (H2 _ _ _ _ Hrun) as (-> & Hok & d1 & -> & Hall).
  rewrite lookup_insert_eq in Hh'. injection Hh' as ->.
  destruct (dataset_ok_origin _ _ _ _ _ _ _ _ Hnd Hall Hget)
    as (rows & Hrows & _ & Hexs).
  destruct (Forall2_lookup_r _ _ _ _ _ Hexs Hi) as (row & Hrow & Hex).
  destruct (Forall2_lookup_r _ _ _ _ _ Hex Hj) as (col & Hcol & idxs & Henc & ->).
  exists rows, row, col. repeat (split; [assumption|]).
  pose proof (encodes_positive stops w2i (col row) idxs Hok Henc) as Hpos.
  pose proof (Forall2_length _ _ _ Henc) as Hlen. rewrite Hlen.
  rewrite truncate_pad_nonneg by exact Hml.
  intros k x Hk.
  assert (Htake : length (take (Z.to_nat ml) idxs)
                  = Nat.min (length idxs) (Z.to_nat ml))
    by (rewrite length_take; lia).
  destruct (decide (k < Nat.min (length idxs) (Z.to_nat ml))%nat) as [Hlt|Hge].
  - rewrite lookup_app_l in Hk by lia.
    assert (Hin : x ∈ idxs).
    { apply list_elem_of_lookup_2 in Hk. eapply subseteq_take; eauto. }
    rewrite Forall_forall in Hpos. pose proof (Hpos x Hin). lia.
  - rewrite lookup_app_r in Hk by lia.
    apply lookup_replicate in Hk as [-> _]. lia.
Qed.

Lemma cleaned_sample_run :
  exists texts,
    setup_datasets text_to_word_list sample_stops sample_overflow 1%nat 300 4
                   sample_heap =
      Ok ((1%nat, texts, sample_word2index), <[1%nat := sample_tensors]> sample_heap).
Proof. eexists. vm_compute. reflexivity. Qed.

Lemma zero_marks_padding_witness :
  (0 = 0 <-> (Nat.min (length (tokens text_to_word_list sample_stops "iron work"))
                      (Z.to_nat 4) <= 2)%nat) /\ 0 <= 0.
Proof.
  destruct cleaned_sample_run as [texts Hrun].
  destruct (zero_marks_padding sample_stops sample_overflow 1%nat 300 4 sample_heap
              sample_frames
              1%nat texts sample_word2index (<[1%nat := sample_tensors]> sample_heap)
              sample_tensors "test"
              (mkTensorDataset [[[4; 2; 0; 0]; [2; 0; 0; 0]]] [1]) 0 0
              [[4; 2; 0; 0]; [2; 0; 0; 0]] [4; 2; 0; 0])
    as (rows & row & col & Hrows & Hrow & Hcol & Hpad).
  - lia.
  - reflexivity.
  - compute_done.
  - exact Hrun.
  - reflexivity.
  - reflexivity.
  - reflexivity.
  - reflexivity.
  - injection Hrows as <-. injection Hrow as <-. injection Hcol as <-.
    apply (Hpad 2%nat 0). reflexivity.
Defined.

(** ** [setup] end to end *)

Lemma NoDup_keys_setitem {V} (d : dict V) (k : string) (v : V) :
  NoDup (keys d) -> NoDup (keys (dict_setitem d k v)).
Proof.
  intros Hnd. destruct (dict_get d k) as [v0|] eqn:E.
  - rewrite keys_setitem_present; [exact Hnd|].
    apply dict_contains_keys. unfold dict_contains. now rewrite E.
  - rewrite dict_setitem_fresh by exact E. unfold keys in *. rewrite fmap_app.
    apply NoDup_app. split; [exact Hnd|]. split; [|apply NoDup_singleton].
    intros x Hx Hx'. apply list_elem_of_singleton in Hx'. simpl in Hx'. subst x.
    now apply dict_get_None in E.
Qed.

Lemma dict_contains_setitem {V} (d : dict V) (k k' : string) (v : V) :
  dict_contains (dict_setitem d k v) k' = String.eqb k k' || dict_contains d k'.
Proof.
  unfold dict_contains. destruct (String.eqb_spec k k') as [->|Hne].
  - now rewrite dict_get_setitem_eq.
  - now rewrite dict_get_setitem_ne.
Qed.

Lemma Forall_frames_setitem (d : dict dataset) (k : string) (rows : DataFrame) :
  Forall (fun x => is_frame (snd x) = true) d ->
  Forall (fun x => is_frame (snd x) = true) (dict_setitem d k (Frame rows)).
Proof.
  induction 1 as [|[k0 v0] d Hx Hd IH]; simpl.
  - repeat constructor.
  - destruct (String.eqb k k0); constructor;
      [reflexivity | exact Hd | exact Hx | exact IH].
Qed.

Section SetupRun.
Variable read_csv : string -> result DataFrame.
Variable stopwords_english : list string.
Variable overflow : exn.
Variable env : loaders.
Variable uniform : Q -> Q -> nat -> nat -> Embedding.
Variable init : constructors.
Variable Model_modules : Embedding -> list CNNLayer -> bool -> Z -> module.

#[local] Abbreviation read_frames := (read_frames read_csv).
#[local] Abbreviation setup :=
  (setup read_csv stopwords_english overflow env uniform init Model_modules).
#[local] Abbreviation dataset_ok := (dataset_ok text_to_word_list stopwords_english).

Lemma read_frames_spec (items : dict string) :
  forall (acc d : dict dataset),
    read_frames items acc = Ok d ->
    NoDup (keys acc) ->
    Forall (fun x => is_frame (snd x) = true) acc ->
    NoDup (keys d) /\
    Forall (fun x => is_frame (snd x) = true) d /\
    (forall k, dict_contains d k = dict_contains acc k || dict_contains items k).
Proof.
  induction items as [|[name data_path] items IH]; intros acc d H Hnd Hfr.
  - injection H as <-. split; [exact Hnd|]. split; [exact Hfr|].
    intros k. now rewrite orb_false_r.
  - simpl in H. apply bind_Ok in H as (frame & _ & H).
    apply IH in H as (Hnd' & Hfr' & Hk).
    + split; [exact Hnd'|]. split; [exact Hfr'|].
      intros k. rewrite Hk, dict_contains_setitem.
      assert (Hc : dict_contains ((name, data_path) :: items) k
                   = String.eqb k name || dict_contains items k).
      { unfold dict_contains. cbn [dict_get].
        destruct (String.eqb k name); reflexivity. }
      rewrite Hc, (String.eqb_sym name k).
      destruct (String.eqb k name), (dict_contains acc k), (dict_contains items k);
        reflexivity.
    + now apply NoDup_keys_setitem.
    + now apply Forall_frames_setitem.
Qed.

Lemma tensor_index_bound (ml : Z) (w2i : dict Z) (d0 d' : dict dataset)
    (name : string) (t : TensorDataset) (e : list (list Z)) (s : list Z) (x : Z) :
  NoDup (keys d0) ->
  vocab_ok w2i ->
  Forall2 (dataset_ok ml w2i) d0 d' ->
  dict_get d' name = Some (Tensors t) ->
  e ∈ indexed_examples t -> s ∈ e -> x ∈ s ->
  0 <= x < len w2i.
Proof.
  intros Hnd Hok Hall Hget He Hs Hx.
  destruct (dataset_ok_origin _ _ _ _ _ _ _ _ Hnd Hall Hget)
    as (rows & Hrows & _ & Hexs).
  apply list_elem_of_lookup_1 in He as [i Hi].
  apply list_elem_of_lookup_1 in Hs as [j Hj].
  destruct (Forall2_lookup_r _ _ _ _ _ Hexs Hi) as (row & Hrow & Hex).
  destruct (Forall2_lookup_r _ _ _ _ _ Hex Hj) as (col & Hcol & idxs & Henc & ->).
  apply elem_of_truncate_pad in Hx as [Hx| ->].
  - pose proof (encodes_bound _ _ _ Hok Henc) as Hall'.
    rewrite Forall_forall in Hall'. now apply Hall'.
  - pose proof (vocab_ok_bound _ _ _ Hok (vocab_ok_PAD _ Hok)). lia.
Qed.

Lemma setup_model_embeddings (emb : Embedding) (cfg : config) (m : Model) :
  setup_model init Model_modules emb cfg = Ok m -> model_embeddings m = emb.
Proof.
  unfold setup_model. intros H.
  apply bind_Ok in H as ([ls szs] & _ & H).
  apply bind_Ok in H as (fs & _ & H).
  apply bind_Ok in H as (tree0 & _ & H).
  apply bind_Ok in H as (tree & _ & H).
  now injection H as <-.
Qed.

(** X15: when [setup] returns, the datasets dict is a new object (the
    caller's heap is otherwise unchanged), it has one entry per key of
    [data_paths], and every token index stored in it is a row number of the
    embedding matrix inside the returned model: no embedding lookup on the
    returned pair can be out of bounds. *)
Theorem setup_returns_consistent_pair (cfg : config) (h h' : heap) (l : loc)
    (model : Model) :
  draws_shape uniform ->
  setup cfg h = Ok ((l, model), h') ->
  h !! l = None /\
  (forall l0, l0 <> l -> h' !! l0 = h !! l0) /\
  exists d',
    h' !! l = Some d' /\
    (forall name, dict_contains d' name = dict_contains (cfg_data_paths cfg) name) /\
    (forall name t e s x,
        dict_get d' name = Some (Tensors t) ->
        e ∈ indexed_examples t -> s ∈ e -> x ∈ s ->
        0 <= x /\ is_Some (model_embeddings model !! Z.to_nat x)).
Proof.
  intros Hshape H. unfold setup in H.
  apply bind_Ok in H as (frames & Hframes & H).
  apply read_frames_spec in Hframes as (Hnd & Hfr & Hkeys);
    [|apply NoDup_nil_2 | constructor].
  set (l0 := fresh (dom h)) in H.
  assert (Hl0 : h !! l0 = None) by (apply not_elem_of_dom, is_fresh).
  apply bind_Ok in H as ([[[l1 texts] w2i] h1] & Hds & H).
  destruct (setup_datasets_spec text_to_word_list stopwords_english overflow l0
              (size (cfg_embeddings cfg)) (max_length (cfg_model cfg))
              (<[l0 := frames]> h) frames (lookup_insert_eq _ _ _) Hnd)
    as [_ H2].
  destruct (H2 _ _ _ _ Hds) as (-> & Hok & d' & -> & Hall).
  apply bind_Ok in H as (wv & _ & H).
  apply bind_Ok in H as (E & HE & H).
  apply bind_Ok in H as (m & Hm & H).
  injection H as <- <- <-.
  apply setup_model_embeddings in Hm.
  pose proof (setup_embedding_matrix_rows uniform wv w2i _ E Hshape HE) as Hrows.
  split; [exact Hl0|]. split.
  - intros l2 Hne. now rewrite !lookup_insert_ne by congruence.
  - exists d'. split; [rewrite insert_insert_eq; apply lookup_insert_eq|]. split.
    + intros name.
      rewrite (dict_contains_same_keys d' frames name
                 (dataset_ok_keys _ _ _ _ _ _ Hall)).
      now rewrite Hkeys.
    + intros name t e s x Hget He Hs Hx.
      pose proof (tensor_index_bound _ _ _ _ _ _ _ _ _ Hnd Hok Hall Hget He Hs Hx) as Hb.
      split; [lia|]. rewrite Hm. apply lookup_lt_is_Some. unfold len in *. lia.
Qed.

(** X16: configuration errors are found late. With an unsupported embeddings
    format [setup] always raises, but first it reads every file: an error of
    [pd.read_csv] is what it raises, and once all frames are read (with
    labels that are 64-bit integers and a [max_length] that is not negative)
    it indexes them and only then raises the unsupported-format exception,
    whether or not the block types are supported. *)
Theorem setup_checks_format_late (cfg : config) (h : heap) :
  format (cfg_embeddings cfg) ∉ embedding_formats ->
  raises (setup cfg h) = true /\
  (forall e, read_frames (cfg_data_paths cfg) [] = Raise e -> setup cfg h = Raise e) /\
  (forall frames, read_frames (cfg_data_paths cfg) [] = Ok frames ->
                  labels_fit frames ->
                  0 <= max_length (cfg_model cfg) ->
                  setup cfg h = Raise unsupported_format).
Proof.
  intros Hfmt. unfold setup. split; [|split].
  - destruct (read_frames _ _) as [frames|e]; [|reflexivity].
    cbn [mbind result_bind].
    destruct (setup_datasets _ _ _ _ _ _ _) as [[[[l1 texts] w2i] h1]|e];
      [|reflexivity].
    cbn [mbind result_bind].
    now rewrite (setup_word_vectors_unsupported env cfg Hfmt).
  - intros e He. now rewrite He.
  - intros frames Hframes Hfit Hml. rewrite Hframes. cbn [mbind result_bind].
    apply read_frames_spec in Hframes as (Hnd & Hfr & _);
      [|apply NoDup_nil_2 | constructor].
    destruct (setup_datasets_spec text_to_word_list stopwords_english overflow
                (fresh (dom h)) (size (cfg_embeddings cfg))
                (max_length (cfg_model cfg))
                (<[fresh (dom h) := frames]> h) frames (lookup_insert_eq _ _ _) Hnd)
      as [H1 _].
    destruct (H1 Hml Hfr Hfit) as ([[[l1 texts] w2i] h1] & Hds).
    rewrite Hds. cbn [mbind result_bind].
    now rewrite (setup_word_vectors_unsupported env cfg Hfmt).
Qed.

End SetupRun.

Lemma sample_setup_run :
  exists model h',
    setup sample_csv sample_stops sample_overflow no_files constant_draw checking
          sample_modules sample_setup_config ∅ = Ok ((0%nat, model), h').
Proof. eexists _, _. vm_compute. reflexivity. Qed.

Lemma setup_returns_consistent_pair_witness :
  exists model h' d',
    setup sample_csv sample_stops sample_overflow no_files constant_draw checking
          sample_modules sample_setup_config ∅ = Ok ((0%nat, model), h') /\
    h' !! 0%nat = Some d' /\
    dict_contains d' "test" = true.
Proof.
  destruct sample_setup_run as (model & h' & Hrun).
  destruct (setup_returns_consistent_pair sample_csv sample_stops sample_overflow
              no_files constant_draw checking sample_modules sample_setup_config
              ∅ h' 0%nat model constant_draw_shape Hrun)
    as (_ & _ & d' & Hd' & Hkeys & _).
  exists model, h', d'. split; [exact Hrun|]. split; [exact Hd'|].
  rewrite Hkeys. reflexivity.
Defined.

Lemma setup_checks_format_late_witness :
  setup sample_csv sample_stops sample_overflow no_files constant_draw checking
        sample_modules late_error_config ∅ = Raise unsupported_format.
Proof.
  refine (proj2 (proj2 (setup_checks_format_late sample_csv sample_stops
                          sample_overflow no_files constant_draw checking
                          sample_modules late_error_config ∅ _)) _ eq_refl _ _).
  - compute_done.
  - repeat constructor.
  - simpl. lia.
Defined.

(** ** What a block takes from its configuration *)



(** ** Pretrained vectors of the wrong dimension *)

Lemma try_copy_cases (cols : nat) (wv : KeyedVectors) (E : Embedding)
    (w : string) (i : Z) :
  0 <= i < len E ->
  (exists E1, try_copy cols wv E w i = Ok E1 /\ length E1 = length E /\
              ~ (exists v, wv w = Some v /\ length v <> cols /\ length v <> 1%nat)) \/
  (try_copy cols wv E w i = Raise ValueError).
Proof.
  intros Hi. unfold try_copy, word_vectors_getitem.
  destruct (wv w) as [v|] eqn:Hw; cbn [mbind result_bind].
  2:{ left. exists E. split; [reflexivity|]. split; [reflexivity|].
      intros (v & Hv & _). discriminate. }
  unfold ndarray_setitem.
  destruct (Z.ltb_spec i 0); [lia|].
  destruct (Z.ltb_spec i 0); [lia|].
  destruct (Z.leb_spec (len E) i); [lia|]. cbn [orb].
  unfold broadcast. destruct (Nat.eqb_spec (length v) cols) as [Hc|Hc].
  - left. eexists. split; [reflexivity|]. split; [apply length_insert|].
    intros (v' & [= <-] & Hne & _). contradiction.
  - destruct v as [|x [|y v']].
    + right. reflexivity.
    + left. eexists. split; [reflexivity|]. split; [apply length_insert|].
      intros (v' & [= <-] & _ & Hne). now apply Hne.
    + right. reflexivity.
Qed.

Lemma embedding_loop_bad_dimension (cols : nat) (wv : KeyedVectors) (items : dict Z) :
  forall E : Embedding,
    Forall (fun x => 0 <= snd x < len E) items ->
    Exists (fun x => exists v, wv (fst x) = Some v /\
                               length v <> cols /\ length v <> 1%nat) items ->
    embedding_loop cols wv items E = Raise ValueError.
Proof.
  induction items as [|[w i] items IH]; intros E Hrange Hbad.
  - apply Exists_nil in Hbad as [].
  - apply Forall_cons in Hrange as [Hi Hrange]. simpl in Hi.
    cbn [embedding_loop].
    destruct (try_copy_cases cols wv E w i Hi) as [(E1 & -> & Hlen & Hgood)| ->];
      [|reflexivity].
    cbn [mbind result_bind]. apply IH.
    + eapply Forall_impl; [exact Hrange|]. unfold len. rewrite Hlen. auto.
    + apply Exists_cons in Hbad as [Hbad|Hbad]; [contradiction | exact Hbad].
Qed.

Section WrongDimension.
Variable text_to_word_list : string -> list string.
Variable stopwords_english : list string.
Variable overflow : exn.
Variable uniform : Q -> Q -> nat -> nat -> Embedding.

#[local] Abbreviation setup_datasets :=
  (setup_datasets text_to_word_list stopwords_english overflow).

(** X18: pretrained vectors of the wrong dimension are rejected, not cut or
    filled up: if some word of the returned [word2index] has a pretrained
    vector whose length is neither [embeddings_size] nor 1 (a vector of
    length 1 is repeated along the row), [setup_embedding_matrix] raises
    [ValueError], which its [except] clause does not catch. *)
Theorem wrong_dimension_raises (l : loc) (es ml : Z) (h : heap) (l' : loc)
    (texts : dict (list (list (list string)))) (w2i : dict Z) (h' : heap)
    (store : KeyedVectors) (sz : Z) (w : string) (i : Z) (v : list Q) :
  setup_datasets l es ml h = Ok ((l', texts, w2i), h') ->
  draws_shape uniform ->
  0 <= sz ->
  dict_get w2i w = Some i ->
  store w = Some v ->
  len v <> sz ->
  length v <> 1%nat ->
  setup_embedding_matrix uniform (Some store) w2i sz = Raise ValueError.
Proof.
  intros Hrun Hshape Hsz Hget Hv Hlen H1.
  apply setup_datasets_vocab in Hrun as Hok.
  unfold setup_embedding_matrix. destruct (Z.ltb_spec sz 0); [lia|].
  rewrite zero_padding_row by exact Hshape. cbn [mbind result_bind].
  apply embedding_loop_bad_dimension.
  - apply Forall_forall. intros [w' i'] Hin.
    pose proof (vocab_ok_values w2i w' i' Hok Hin) as Hb. simpl.
    unfold initial_matrix, len in *. rewrite length_insert.
    destruct (Hshape (-1 # 100)%Q (1 # 100)%Q (length w2i + 1)%nat (Z.to_nat sz)) as [-> _]. lia.
  - apply Exists_exists. exists (w, i). split.
    + now apply dict_get_Some_elem.
    + exists v. split; [exact Hv|]. split; [|exact H1].
      unfold len in Hlen. lia.
Qed.

End WrongDimension.

Lemma wrong_dimension_raises_witness :
  setup_embedding_matrix constant_draw (Some (single_vector "iron" [1%Q; 2%Q]))
                         sample_word2index 3 = Raise ValueError.
Proof.
  destruct sample_run as [texts Hrun].
  refine (wrong_dimension_raises split_spaces sample_stops sample_overflow constant_draw
            _ _ _ _ _ _ _ _ (single_vector "iron" [1%Q; 2%Q]) 3 "iron" 4
            [1%Q; 2%Q] Hrun constant_draw_shape _ _ _ _ _).
  - lia.
  - reflexivity.
  - reflexivity.
  - discriminate.
  - discriminate.
Defined.
